(** * Vita3K application bootstrap and lifecycle (vita3k/app/src/app_init.cpp)

    A shallow embedding of the functions of [app_init.cpp]:
    [load_custom_driver], [update_viewport], [init_paths], [init],
    [late_init] and [switch_state], followed by the properties of the
    design document that concern them. *)

From Stdlib Require Import ZArith List String Ascii Bool Lia.
From Stdlib Require Import Floats.SpecFloat.
Import ListNotations.

Local Open Scope string_scope.
Local Open Scope Z_scope.

(** ** Platform identity

    The file is compiled under one of four sets of preprocessor symbols:
    [ANDROID], [__APPLE__], [__linux__] (desktop) or [WIN32]. *)

Inductive Platform := Android | Apple | Linux | Windows.

Definition is_android (pf : Platform) : bool :=
  match pf with Android => true | _ => false end.

Definition is_apple (pf : Platform) : bool :=
  match pf with Apple => true | _ => false end.

(** [defined(__linux__) && !defined(__APPLE__)], outside the [ANDROID] arm. *)
Definition is_linux (pf : Platform) : bool :=
  match pf with Linux => true | _ => false end.

(** ** The filesystem library

    [fs::path] is kept as its native pathname string.  The library behind the
    [fs] namespace is not part of the sources, so the two operations that
    [init_paths] uses are an interface: [path_append] is [operator/] and
    [parent_path] is the member of the same name. *)

Class FsLib := {
  path_append : string -> string -> string;
  parent_path : string -> string
}.

Notation "p // q" := (path_append p q) (at level 40, left associativity).

Definition is_sep (c : ascii) : bool :=
  orb (Ascii.eqb c "/") (Ascii.eqb c "\").

(** A pathname without a root: it does not start with a directory separator. *)
Definition rootless (s : string) : bool :=
  match s with
  | EmptyString => true
  | String c _ => negb (is_sep c)
  end.

(** What every version of [operator/] does with a root-less right operand:
    the operand is appended, after at most one directory separator. *)
Class FsLibLaws (L : FsLib) : Prop := {
  append_rootless : forall p s, rootless s = true ->
    exists sep, (sep = "" \/ sep = "/" \/ sep = "\") /\ p // s = p ++ sep ++ s
}.

(** The result of the probes [fs::exists] and [fs::is_directory]. *)
Record Filesystem := {
  fs_exists : string -> bool;
  fs_is_directory : string -> bool
}.

(** *** POSIX pathnames

    The behaviour of Boost.Filesystem (version 3) on POSIX pathnames, used to
    run the model on concrete inputs: [operator/] adds a separator unless the
    left operand is empty or ends with one, or the right operand is empty or
    starts with one. *)

Fixpoint last_char (s : string) : option ascii :=
  match s with
  | EmptyString => None
  | String c EmptyString => Some c
  | String _ r => last_char r
  end.

Definition needs_sep (p : string) : bool :=
  match last_char p with
  | None => false
  | Some c => negb (Ascii.eqb c "/")
  end.

Definition posix_append (p q : string) : string :=
  match q with
  | EmptyString => p
  | String c _ =>
      if Ascii.eqb c "/" || negb (needs_sep p) then p ++ q else p ++ "/" ++ q
  end.

(** [drop_filename] drops the characters after the last separator and
    [drop_seps] the separators that end the remainder; both work on the
    reversed pathname. *)
Fixpoint drop_filename (r : list ascii) : list ascii :=
  match r with
  | [] => []
  | c :: r' => if Ascii.eqb c "/" then r else drop_filename r'
  end.

Fixpoint drop_seps (r : list ascii) : list ascii :=
  match r with
  | [] => []
  | c :: r' => if Ascii.eqb c "/" then drop_seps r' else r
  end.

(** The parent of a name without separator, and of the root, is empty; the
    parent of a name directly under the root is the root. *)
Definition posix_parent_path (p : string) : string :=
  let r := rev (list_ascii_of_string p) in
  match drop_filename r with
  | [] => ""
  | _ :: _ as r1 =>
      match drop_seps r1 with
      | [] => match r with
              | c :: _ => if Ascii.eqb c "/" then "" else "/"
              | [] => ""
              end
      | _ :: _ as r2 => string_of_list_ascii (rev r2)
      end
  end.

Definition posix_fs : FsLib :=
  {| path_append := posix_append; parent_path := posix_parent_path |}.

(** A filesystem given by the list of its entries; the flag tells a
    directory from a regular file. *)
Definition fs_of_list (entries : list (string * bool)) : Filesystem :=
  {| fs_exists := fun p => existsb (fun e => String.eqb (fst e) p) entries;
     fs_is_directory := fun p =>
       existsb (fun e => andb (String.eqb (fst e) p) (snd e)) entries |}.

(** ** Root paths *)

Record Root := {
  base_path : string;
  pref_path : string;
  log_path : string;
  config_path : string;
  shared_path : string;
  cache_path : string;
  static_assets_path : string
}.

Definition empty_root : Root :=
  {| base_path := ""; pref_path := ""; log_path := ""; config_path := "";
     shared_path := ""; cache_path := ""; static_assets_path := "" |}.

Definition set_base_path (r : Root) (p : string) : Root :=
  {| base_path := p; pref_path := pref_path r; log_path := log_path r;
     config_path := config_path r; shared_path := shared_path r;
     cache_path := cache_path r; static_assets_path := static_assets_path r |}.

Definition set_pref_path (r : Root) (p : string) : Root :=
  {| base_path := base_path r; pref_path := p; log_path := log_path r;
     config_path := config_path r; shared_path := shared_path r;
     cache_path := cache_path r; static_assets_path := static_assets_path r |}.

Definition set_log_path (r : Root) (p : string) : Root :=
  {| base_path := base_path r; pref_path := pref_path r; log_path := p;
     config_path := config_path r; shared_path := shared_path r;
     cache_path := cache_path r; static_assets_path := static_assets_path r |}.

Definition set_config_path (r : Root) (p : string) : Root :=
  {| base_path := base_path r; pref_path := pref_path r; log_path := log_path r;
     config_path := p; shared_path := shared_path r;
     cache_path := cache_path r; static_assets_path := static_assets_path r |}.

Definition set_shared_path (r : Root) (p : string) : Root :=
  {| base_path := base_path r; pref_path := pref_path r; log_path := log_path r;
     config_path := config_path r; shared_path := p;
     cache_path := cache_path r; static_assets_path := static_assets_path r |}.

Definition set_cache_path (r : Root) (p : string) : Root :=
  {| base_path := base_path r; pref_path := pref_path r; log_path := log_path r;
     config_path := config_path r; shared_path := shared_path r;
     cache_path := p; static_assets_path := static_assets_path r |}.

Definition set_static_assets_path (r : Root) (p : string) : Root :=
  {| base_path := base_path r; pref_path := pref_path r; log_path := log_path r;
     config_path := config_path r; shared_path := shared_path r;
     cache_path := cache_path r; static_assets_path := p |}.

(** ** The host: what the platform layer and the process environment answer *)

Record Host := {
  SDL_GetBasePath : string;
  SDL_GetPrefPath : string -> string -> string;
  SDL_AndroidGetExternalStoragePath : string;
  getenv : string -> option string;
  host_fs : Filesystem
}.

(** ** init_paths *)

Section InitPaths.

Context {L : FsLib}.

(** [org_name] and [app_name] come from [config/version.h];
    [string_utils::split_string] from [util/string_utils.h]. *)
Variables org_name app_name : string.
Variable split_string : string -> ascii -> list string.

(** The [ANDROID] arm. *)
Definition init_paths_android (h : Host) (root_paths : Root) : Root :=
  let storage_path := SDL_AndroidGetExternalStoragePath h // "" in
  let vita_storage_path := storage_path // "vita/" in
  let root_paths := set_base_path root_paths storage_path in
  let root_paths := set_static_assets_path root_paths storage_path in
  let root_paths := set_pref_path root_paths vita_storage_path in
  let root_paths := set_log_path root_paths storage_path in
  let root_paths := set_config_path root_paths storage_path in
  let root_paths := set_shared_path root_paths storage_path in
  set_cache_path root_paths (storage_path // "cache" // "").

Definition portable_path_of (pf : Platform) (base : string) : string :=
  if is_apple pf
  then parent_path (parent_path (parent_path (parent_path base))) // "portable" // ""
  else base // "portable" // "".

(** The first entry of the list under which [app_name] exists: the loop
    with [break] over the entries of [XDG_DATA_DIRS]. *)
Definition first_data_dir (fs : Filesystem) (env_paths : list string) : option string :=
  find (fun i => fs_exists fs (i // app_name)) env_paths.

Definition has_assets (fs : Filesystem) (dir : string) : bool :=
  fs_exists fs (dir // "data") && fs_exists fs (dir // "lang")
  && fs_exists fs (dir // "shaders-builtin").

(** The block under [defined(__linux__) && !defined(__APPLE__)]. *)
Definition xdg_paths (h : Host) (root_paths : Root) : Root :=
  let fs := host_fs h in
  let env_home := getenv h "HOME" in
  let XDG_DATA_DIRS := getenv h "XDG_DATA_DIRS" in
  let XDG_DATA_HOME := getenv h "XDG_DATA_HOME" in
  let XDG_CACHE_HOME := getenv h "XDG_CACHE_HOME" in
  let XDG_CONFIG_HOME := getenv h "XDG_CONFIG_HOME" in
  let APPDIR := getenv h "APPDIR" in
  let root_paths :=
    match XDG_DATA_HOME with
    | Some d => set_pref_path root_paths (d // app_name // app_name // "")
    | None => root_paths
    end in
  let root_paths :=
    match XDG_CONFIG_HOME, env_home with
    | Some c, _ => set_config_path root_paths (c // app_name // "")
    | None, Some hm => set_config_path root_paths (hm // ".config" // app_name // "")
    | None, None => root_paths
    end in
  let root_paths :=
    match XDG_CACHE_HOME, env_home with
    | Some c, _ =>
        set_log_path (set_cache_path root_paths (c // app_name // ""))
          (c // app_name // "")
    | None, Some hm =>
        set_log_path (set_cache_path root_paths (hm // ".cache" // app_name // ""))
          (hm // ".cache" // app_name // "")
    | None, None => root_paths
    end in
  let root_paths :=
    if has_assets fs (base_path root_paths)
    then set_static_assets_path root_paths (base_path root_paths)
    else match env_home with
         | Some hm => set_static_assets_path root_paths (hm // ".local/share" // app_name // "")
         | None => root_paths
         end in
  let root_paths :=
    match XDG_DATA_DIRS, XDG_DATA_HOME with
    | Some dirs, _ =>
        match first_data_dir fs (split_string dirs ":"%char) with
        | Some i => set_static_assets_path root_paths (i // app_name // "")
        | None => root_paths
        end
    | None, Some d =>
        if has_assets fs (d // app_name)
        then set_static_assets_path root_paths (d // app_name // "")
        else root_paths
    | None, None => root_paths
    end in
  let root_paths :=
    match APPDIR with
    | Some a =>
        if fs_exists fs (a // "usr/share/Vita3K")
        then set_static_assets_path root_paths (a // "usr/share/Vita3K")
        else root_paths
    | None => root_paths
    end in
  let root_paths :=
    match env_home with
    | Some hm => set_shared_path root_paths (hm // ".local/share" // app_name // "")
    | None => root_paths
    end in
  match XDG_DATA_DIRS, XDG_DATA_HOME with
  | Some dirs, _ =>
      match first_data_dir fs (split_string dirs ":"%char) with
      | Some i => set_shared_path root_paths (i // app_name // "")
      | None => root_paths
      end
  | None, Some d => set_shared_path root_paths (d // app_name // "")
  | None, None => root_paths
  end.

(** The arm without a portable directory. *)
Definition init_paths_user (pf : Platform) (h : Host) (base_path0 : string)
    (root_paths : Root) : Root :=
  let fs := host_fs h in
  let pref_path0 := SDL_GetPrefPath h org_name app_name in
  let base_path1 :=
    if is_apple pf
    then (if fs_exists fs (base_path0 // "config.yml") then base_path0 else pref_path0)
    else base_path0 in
  let pref_path1 :=
    if is_apple pf
    then (if fs_is_directory fs (pref_path0 // "ux0") then pref_path0
          else pref_path0 // "fs" // "")
    else pref_path0 in
  let root_paths := set_pref_path root_paths pref_path1 in
  let root_paths := set_log_path root_paths base_path1 in
  let root_paths := set_config_path root_paths base_path1 in
  let root_paths := set_shared_path root_paths base_path1 in
  let root_paths := set_cache_path root_paths (base_path1 // "cache" // "") in
  if is_linux pf then xdg_paths h root_paths else root_paths.

(** The arm of the desktop platforms. *)
Definition init_paths_desktop (pf : Platform) (h : Host) (root_paths : Root) : Root :=
  let base_path0 := SDL_GetBasePath h in
  let root_paths := set_base_path root_paths base_path0 in
  let root_paths := set_static_assets_path root_paths base_path0 in
  let portable_path := portable_path_of pf base_path0 in
  if fs_is_directory (host_fs h) portable_path then
    let root_paths := set_pref_path root_paths (portable_path // "fs" // "") in
    let root_paths := set_log_path root_paths portable_path in
    let root_paths := set_config_path root_paths portable_path in
    let root_paths := set_shared_path root_paths portable_path in
    set_cache_path root_paths (portable_path // "cache" // "")
  else init_paths_user pf h base_path0 root_paths.

(** The directories handed to [fs::create_directories] once the roots are set. *)
Definition created_directories (root_paths : Root) : list string :=
  [ config_path root_paths; cache_path root_paths;
    log_path root_paths // "shaderlog"; log_path root_paths // "texturelog" ].

(** [init_paths]: the resolved roots and the directories it creates. *)
Definition init_paths (pf : Platform) (h : Host) (root_paths : Root)
    : Root * list string :=
  let root_paths :=
    if is_android pf then init_paths_android h root_paths
    else init_paths_desktop pf h root_paths in
  (root_paths, created_directories root_paths).

End InitPaths.

(** ** Single-precision arithmetic

    [float] and [SceFloat] are IEEE 754 binary32: 24 bits of precision,
    rounding to nearest even. *)

Definition float := spec_float.

Definition prec32 : Z := 24.
Definition emax32 : Z := 128.

(** [static_cast<float>(n)] of an [int], also the implicit conversion of an
    [int] operand. *)
Definition float_of_int (n : Z) : float := binary_normalize prec32 emax32 n 0 false.

Definition fmul (x y : float) : float := SFmul prec32 emax32 x y.
Definition fdiv (x y : float) : float := SFdiv prec32 emax32 x y.
Definition fsub (x y : float) : float := SFsub prec32 emax32 x y.

(** [x > y]; false when either side is a NaN. *)
Definition fgt (x y : float) : bool := SFltb y x.

(** ** Configuration and host calls *)

(** Modelled from the spec: the enumeration [renderer::Backend] is declared
    in [renderer/types.h]; the design document lists its values as OpenGL,
    Vulkan and an unimplemented one, which the [default:] arms handle. *)
Inductive Backend := OpenGL | Vulkan | Unimplemented.

(** Modelled from the spec: the enumeration [MappingMethod] is declared with
    the renderer; the design document lists its values as Direct, PageTable
    and NativeBuffer. *)
Inductive MappingMethod := Direct | PageTable | NativeBuffer.

Definition MappingMethod_eqb (a b : MappingMethod) : bool :=
  match a, b with
  | Direct, Direct | PageTable, PageTable | NativeBuffer, NativeBuffer => true
  | _, _ => false
  end.

(** Modelled from the spec: [DEFAULT_RES_WIDTH] and [DEFAULT_RES_HEIGHT] are
    declared outside this file; the design document gives the reference
    resolution as 960 by 544. *)
Definition DEFAULT_RES_WIDTH : Z := 960.
Definition DEFAULT_RES_HEIGHT : Z := 544.

(** [state.cfg.current_config]. *)
Record CurrentConfig := {
  cur_backend_renderer : string;
  custom_driver_name : string
}.

(** The fields of [state.cfg] that this file reads or writes. *)
Record Config := {
  cfg_pref_path : string;
  cfg_backend_renderer : string;
  current_config : CurrentConfig;
  cfg_config_path : string;
  cfg_fullscreen : bool;
  cfg_console : bool;
  cfg_stretch_the_display_area : bool;
  cfg_discord_rich_presence : bool;
  cfg_audio_backend : string;
  cfg_enable_gamepad_overlay : bool
}.

Definition set_cfg_pref_path (c : Config) (p : string) : Config :=
  {| cfg_pref_path := p;
     cfg_backend_renderer := cfg_backend_renderer c;
     current_config := current_config c;
     cfg_config_path := cfg_config_path c;
     cfg_fullscreen := cfg_fullscreen c;
     cfg_console := cfg_console c;
     cfg_stretch_the_display_area := cfg_stretch_the_display_area c;
     cfg_discord_rich_presence := cfg_discord_rich_presence c;
     cfg_audio_backend := cfg_audio_backend c;
     cfg_enable_gamepad_overlay := cfg_enable_gamepad_overlay c |}.

Definition set_cfg_backend_renderer (c : Config) (b : string) : Config :=
  {| cfg_pref_path := cfg_pref_path c;
     cfg_backend_renderer := b;
     current_config := current_config c;
     cfg_config_path := cfg_config_path c;
     cfg_fullscreen := cfg_fullscreen c;
     cfg_console := cfg_console c;
     cfg_stretch_the_display_area := cfg_stretch_the_display_area c;
     cfg_discord_rich_presence := cfg_discord_rich_presence c;
     cfg_audio_backend := cfg_audio_backend c;
     cfg_enable_gamepad_overlay := cfg_enable_gamepad_overlay c |}.

Inductive LogLevel := LOG_INFO | LOG_WARN | LOG_ERROR | LOG_CRITICAL.

(** The calls that leave the file, in the order they are made. *)
Inductive Event :=
| EvLog (level : LogLevel) (message : string)
| EvCreateDirectory (p : string)
| EvReadFile (p : string)
| EvQueryNativeLibraryDir
| EvOpenLibvulkan (temp_dir : option string)
    (lib_dir driver_path main_so_name file_redirect : string)
| EvVulkanLoadLibrary (magic handle : Z)
| EvImGuiCreateContext
| EvSerializeConfig (cfg : Config) (path : string)
| EvSetHint (name value : string)
| EvCreateWindow (flags : Z)
| EvRendererInit (backend : Backend)
| EvGetDrawableSize (backend : Backend)
| EvErrorDialog (message : string)
| EvIoInit (cache log pref : string) (console : bool)
| EvMotionInit
| EvDiscordInit
| EvDiscordUpdatePresence
| EvRendererLateInit
| EvMemInit (need_page_table : bool)
| EvAudioInit (audio_backend : string)
| EvNgsInit.

(** A computation that makes host calls: it extends the trace of the calls
    made so far. *)
Definition Eff (A : Type) : Type := list Event -> A * list Event.

Definition ret {A : Type} (a : A) : Eff A := fun t => (a, t).

Definition bind {A B : Type} (m : Eff A) (k : A -> Eff B) : Eff B :=
  fun t => let (a, t') := m t in k a t'.

Definition emit (e : Event) : Eff unit := fun t => (tt, (t ++ [e])%list).

Definition run_eff {A : Type} (m : Eff A) : A * list Event := m [].

Notation "x <- m ;; k" := (bind m (fun x => k))
  (at level 61, m at next level, right associativity).
Notation "m ;;; k" := (bind m (fun _ => k))
  (at level 61, right associativity).

(** [if (c) m;] *)
Definition when (c : bool) (m : Eff unit) : Eff unit :=
  if c then m else ret tt.

(** ** load_custom_driver (Android) *)

(** What the Android runtime answers. [read_word p] is the first word of
    the file [p], as [name_file >> main_so_name] extracts it; a handle is an
    address and the null handle is 0. *)
Record AndroidHost := {
  SDL_AndroidGetInternalStoragePath : string;
  SDL_GetAndroidSDKVersion : Z;
  nativeLibraryDir : string;
  android_fs : Filesystem;
  read_word : string -> string;
  adrenotools_open_libvulkan :
    option string -> string -> string -> string -> string -> Z;
  SDL_Vulkan_LoadLibrary : Z -> Z -> Z
}.

Definition driver_magic : Z := 0xFEEDC0DE.

Section Driver.

Context {L : FsLib}.

Definition driver_path_of (h : AndroidHost) (driver_name : string) : string :=
  SDL_AndroidGetInternalStoragePath h // "driver" // driver_name // "/".

Definition load_custom_driver (h : AndroidHost) (driver_name : string) : Eff bool :=
  let driver_path := driver_path_of h driver_name in
  if negb (fs_exists (android_fs h) driver_path) then
    emit (EvLog LOG_ERROR "Could not find driver {}") ;;; ret false
  else
  let driver_name_file := driver_path // "driver_name.txt" in
  if negb (fs_exists (android_fs h) driver_name_file) then
    emit (EvLog LOG_ERROR "Could not find driver driver_name.txt") ;;; ret false
  else
  emit (EvReadFile driver_name_file) ;;;
  let main_so_name := read_word h driver_name_file in
  temp_dir <-
    (if SDL_GetAndroidSDKVersion h <? 29 then
       let temp_dir_path := driver_path // "tmp/" in
       emit (EvCreateDirectory temp_dir_path) ;;; ret (Some temp_dir_path)
     else ret None) ;;
  emit EvQueryNativeLibraryDir ;;;
  let lib_dir := nativeLibraryDir h // "/" in
  emit (EvCreateDirectory (driver_path // "file_redirect")) ;;;
  let file_redirect := driver_path // "file_redirect/" in
  emit (EvOpenLibvulkan temp_dir lib_dir driver_path main_so_name file_redirect) ;;;
  let vulkan_handle :=
    adrenotools_open_libvulkan h temp_dir lib_dir driver_path main_so_name file_redirect in
  if vulkan_handle =? 0 then
    emit (EvLog LOG_ERROR "Could not open handle for custom driver {}") ;;; ret false
  else
  emit (EvVulkanLoadLibrary driver_magic vulkan_handle) ;;;
  if SDL_Vulkan_LoadLibrary h driver_magic vulkan_handle <? 0 then
    emit (EvLog LOG_ERROR "Could not load custom diver, error {}") ;;; ret false
  else ret true.

End Driver.

(** ** The emulator environment *)

(** What the window answers to [SDL_GL_GetDrawableSize] and to
    [SDL_Vulkan_GetDrawableSize]. *)
Record Window := {
  gl_drawable_size : Z * Z;
  vulkan_drawable_size : Z * Z
}.

Record FVector2 := { vx : float; vy : float }.

(** [state.drawable_size], [state.viewport_pos] and [state.viewport_size]. *)
Record ViewGeometry := {
  drawable_size : Z * Z;
  viewport_pos : FVector2;
  viewport_size : FVector2
}.

(** The object behind [state.renderer]. *)
Record Renderer := {
  current_backend : Backend;
  mapping_method : MappingMethod;
  current_custom_driver : string
}.

Definition set_current_custom_driver (r : Renderer) (name : string) : Renderer :=
  {| current_backend := current_backend r;
     mapping_method := mapping_method r;
     current_custom_driver := name |}.

(** The eight paths of the environment; [default_path] receives the
    preference root, [st_pref_path] the preference path in use. *)
Record EnvPaths := {
  st_base_path : string;
  st_default_path : string;
  st_log_path : string;
  st_config_path : string;
  st_cache_path : string;
  st_shared_path : string;
  st_static_assets_path : string;
  st_pref_path : string
}.

Record DisplayState := {
  fullscreen : bool;
  imgui_render : bool
}.

Record MemState := { use_page_table : bool }.

(** [ThreadStatus::run] and [ThreadStatus::wait] are the two values this
    file names; [dormant] stands for a thread that is not schedulable. *)
Inductive ThreadStatus := dormant | run | wait.

Inductive CPUBackend := Unicorn | OtherCPUBackend.

(** [threads] maps a thread id to the status of its thread. *)
Record KernelState := {
  cpu_backend : CPUBackend;
  threads : list (Z * ThreadStatus)
}.

Record AudioState := { stream_paused : bool }.

(** The fields of [EmuEnvState] that this file reads or writes;
    [controller_overlay_state] is the state that
    [gui::set_controller_overlay_state] sets. *)
Record EmuEnvState := {
  paths : EnvPaths;
  cfg : Config;
  backend_renderer : Backend;
  display : DisplayState;
  window : option Window;
  renderer : Renderer;
  view : ViewGeometry;
  mem : MemState;
  kernel : KernelState;
  audio : AudioState;
  controller_overlay_state : Z
}.

Definition set_paths (s : EmuEnvState) (p : EnvPaths) : EmuEnvState :=
  {| paths := p; cfg := cfg s; backend_renderer := backend_renderer s;
     display := display s; window := window s; renderer := renderer s;
     view := view s; mem := mem s; kernel := kernel s; audio := audio s;
     controller_overlay_state := controller_overlay_state s |}.

Definition set_cfg (s : EmuEnvState) (c : Config) : EmuEnvState :=
  {| paths := paths s; cfg := c; backend_renderer := backend_renderer s;
     display := display s; window := window s; renderer := renderer s;
     view := view s; mem := mem s; kernel := kernel s; audio := audio s;
     controller_overlay_state := controller_overlay_state s |}.

Definition set_backend_renderer (s : EmuEnvState) (b : Backend) : EmuEnvState :=
  {| paths := paths s; cfg := cfg s; backend_renderer := b;
     display := display s; window := window s; renderer := renderer s;
     view := view s; mem := mem s; kernel := kernel s; audio := audio s;
     controller_overlay_state := controller_overlay_state s |}.

Definition set_display (s : EmuEnvState) (d : DisplayState) : EmuEnvState :=
  {| paths := paths s; cfg := cfg s; backend_renderer := backend_renderer s;
     display := d; window := window s; renderer := renderer s;
     view := view s; mem := mem s; kernel := kernel s; audio := audio s;
     controller_overlay_state := controller_overlay_state s |}.

Definition set_window (s : EmuEnvState) (w : option Window) : EmuEnvState :=
  {| paths := paths s; cfg := cfg s; backend_renderer := backend_renderer s;
     display := display s; window := w; renderer := renderer s;
     view := view s; mem := mem s; kernel := kernel s; audio := audio s;
     controller_overlay_state := controller_overlay_state s |}.

Definition set_renderer (s : EmuEnvState) (r : Renderer) : EmuEnvState :=
  {| paths := paths s; cfg := cfg s; backend_renderer := backend_renderer s;
     display := display s; window := window s; renderer := r;
     view := view s; mem := mem s; kernel := kernel s; audio := audio s;
     controller_overlay_state := controller_overlay_state s |}.

Definition set_view (s : EmuEnvState) (v : ViewGeometry) : EmuEnvState :=
  {| paths := paths s; cfg := cfg s; backend_renderer := backend_renderer s;
     display := display s; window := window s; renderer := renderer s;
     view := v; mem := mem s; kernel := kernel s; audio := audio s;
     controller_overlay_state := controller_overlay_state s |}.

Definition set_mem (s : EmuEnvState) (m : MemState) : EmuEnvState :=
  {| paths := paths s; cfg := cfg s; backend_renderer := backend_renderer s;
     display := display s; window := window s; renderer := renderer s;
     view := view s; mem := m; kernel := kernel s; audio := audio s;
     controller_overlay_state := controller_overlay_state s |}.

Definition set_kernel (s : EmuEnvState) (k : KernelState) : EmuEnvState :=
  {| paths := paths s; cfg := cfg s; backend_renderer := backend_renderer s;
     display := display s; window := window s; renderer := renderer s;
     view := view s; mem := mem s; kernel := k; audio := audio s;
     controller_overlay_state := controller_overlay_state s |}.

Definition set_audio (s : EmuEnvState) (a : AudioState) : EmuEnvState :=
  {| paths := paths s; cfg := cfg s; backend_renderer := backend_renderer s;
     display := display s; window := window s; renderer := renderer s;
     view := view s; mem := mem s; kernel := kernel s; audio := a;
     controller_overlay_state := controller_overlay_state s |}.

Definition set_controller_overlay_state (s : EmuEnvState) (mask : Z) : EmuEnvState :=
  {| paths := paths s; cfg := cfg s; backend_renderer := backend_renderer s;
     display := display s; window := window s; renderer := renderer s;
     view := view s; mem := mem s; kernel := kernel s; audio := audio s;
     controller_overlay_state := mask |}.

Definition set_fullscreen (d : DisplayState) (b : bool) : DisplayState :=
  {| fullscreen := b; imgui_render := imgui_render d |}.

Definition set_imgui_render (d : DisplayState) (b : bool) : DisplayState :=
  {| fullscreen := fullscreen d; imgui_render := b |}.

(** ** update_viewport *)

Definition fzero : float := float_of_int 0.

Definition vita_aspect : float :=
  fdiv (float_of_int DEFAULT_RES_WIDTH) (float_of_int DEFAULT_RES_HEIGHT).

(** The assignments to [viewport_pos] and [viewport_size], from the drawable
    size [w], [h] and the stretch flag: the pair (position, size). *)
Definition viewport_of (w h : Z) (stretch : bool) : FVector2 * FVector2 :=
  if 0 <? h then
    let window_aspect := fdiv (float_of_int w) (float_of_int h) in
    if stretch then
      ({| vx := fzero; vy := fzero |},
       {| vx := float_of_int w; vy := float_of_int h |})
    else if fgt window_aspect vita_aspect then
      let size_x := fmul (float_of_int h) vita_aspect in
      ({| vx := fdiv (fsub (float_of_int w) size_x) (float_of_int 2); vy := fzero |},
       {| vx := size_x; vy := float_of_int h |})
    else
      let size_y := fdiv (float_of_int w) vita_aspect in
      ({| vx := fzero; vy := fdiv (fsub (float_of_int h) size_y) (float_of_int 2) |},
       {| vx := float_of_int w; vy := size_y |})
  else
    ({| vx := fzero; vy := fzero |}, {| vx := fzero; vy := fzero |}).

(** The drawable size comes from the window of the state; without a window
    SDL leaves [w] and [h] at 0. *)
Definition get_drawable_size (state : EmuEnvState) : Eff (Z * Z) :=
  match current_backend (renderer state) with
  | OpenGL =>
      emit (EvGetDrawableSize OpenGL) ;;;
      ret (match window state with Some win => gl_drawable_size win | None => (0, 0) end)
  | Vulkan =>
      emit (EvGetDrawableSize Vulkan) ;;;
      ret (match window state with Some win => vulkan_drawable_size win | None => (0, 0) end)
  | Unimplemented =>
      emit (EvLog LOG_ERROR "Unimplemented backend renderer: {}.") ;;; ret (0, 0)
  end.

Definition update_viewport (state : EmuEnvState) : Eff EmuEnvState :=
  wh <- get_drawable_size state ;;
  let '(w, h) := wh in
  let '(pos, size) := viewport_of w h (cfg_stretch_the_display_area (cfg state)) in
  ret (set_view state
         {| drawable_size := (w, h); viewport_pos := pos; viewport_size := size |}).

(** ** init *)

(** What the subsystems behind [init] and [late_init] answer.
    [string_utils::toupper] comes from [util/string_utils.h];
    [USE_DISCORD] is the build option of that name. *)
Record Services := {
  toupper : string -> string;
  imgui_has_context : bool;
  driver_host : AndroidHost;
  SDL_CreateWindow : Z -> option Window;
  renderer_init : Backend -> Config -> option Renderer;
  io_init : string -> string -> string -> bool -> bool;
  USE_DISCORD : bool;
  discordrpc_init : bool;
  renderer_late_init : Config -> Renderer -> Renderer;
  mem_init : bool -> option MemState;
  audio_init : string -> bool;
  ngs_init : bool;
  get_overlay_display_mask : Config -> Z
}.

Definition SDL_WINDOW_OPENGL : Z := 0x00000002.
Definition SDL_WINDOW_RESIZABLE : Z := 0x00000020.
Definition SDL_WINDOW_FULLSCREEN_DESKTOP : Z := 0x00001001.
Definition SDL_WINDOW_VULKAN : Z := 0x10000000.

Definition preferred_separator (pf : Platform) : ascii :=
  match pf with Windows => "\"%char | _ => "/"%char end.

Definition push_back (s : string) (c : ascii) : string := s ++ String c EmptyString.

Section Init.

Context {L : FsLib}.
Variable pf : Platform.
Variable sv : Services.

(** Copies the roots and reconciles the configured preference path. *)
Definition seed_paths (state : EmuEnvState) (root_paths : Root) : EmuEnvState :=
  let c := cfg state in
  let use_default :=
    String.eqb (cfg_pref_path c) (pref_path root_paths)
    || String.eqb (cfg_pref_path c) "" in
  let c' :=
    if use_default then c
    else match last_char (cfg_pref_path c) with
         | Some last =>
             if negb (Ascii.eqb last (preferred_separator pf)) && negb (Ascii.eqb last "/")
             then set_cfg_pref_path c (push_back (cfg_pref_path c) (preferred_separator pf))
             else c
         | None => c
         end in
  set_cfg
    (set_paths state
       {| st_base_path := base_path root_paths;
          st_default_path := pref_path root_paths;
          st_log_path := log_path root_paths;
          st_config_path := config_path root_paths;
          st_cache_path := cache_path root_paths;
          st_shared_path := shared_path root_paths;
          st_static_assets_path := static_assets_path root_paths;
          st_pref_path := if use_default then pref_path root_paths else cfg_pref_path c' |})
    c'.

Definition log_paths : Eff unit :=
  emit (EvLog LOG_INFO "Base path: {}") ;;;
  when (is_linux pf)
    (emit (EvLog LOG_INFO "Static assets path: {}") ;;;
     emit (EvLog LOG_INFO "Shared path: {}") ;;;
     emit (EvLog LOG_INFO "Log path: {}") ;;;
     emit (EvLog LOG_INFO "User config path: {}") ;;;
     emit (EvLog LOG_INFO "User cache path: {}")) ;;;
  emit (EvLog LOG_INFO "User pref path: {}").

(** The choice of the backend: Vulkan, unless the configuration in use asks
    for OpenGL. *)
Definition select_backend (state : EmuEnvState) : Eff EmuEnvState :=
  let state := set_backend_renderer state Vulkan in
  if String.eqb (toupper sv (cur_backend_renderer (current_config (cfg state)))) "OPENGL"
  then
    if is_apple pf then
      let state := set_cfg state (set_cfg_backend_renderer (cfg state) "Vulkan") in
      emit (EvSerializeConfig (cfg state) (cfg_config_path (cfg state))) ;;;
      ret state
    else ret (set_backend_renderer state OpenGL)
  else ret state.

Definition select_window_type (state : EmuEnvState) : Eff Z :=
  match backend_renderer state with
  | OpenGL => ret SDL_WINDOW_OPENGL
  | Vulkan => ret SDL_WINDOW_VULKAN
  | Unimplemented =>
      emit (EvLog LOG_ERROR "Unimplemented backend renderer: {}.") ;;; ret 0
  end.

Definition select_fullscreen (state : EmuEnvState) (window_type : Z)
    : Eff (EmuEnvState * Z) :=
  if is_android pf then
    emit (EvSetHint "SDL_HINT_ORIENTATIONS" "LandscapeLeft LandscapeRight") ;;;
    ret (set_display state (set_fullscreen (display state) true),
         Z.lor window_type SDL_WINDOW_FULLSCREEN_DESKTOP)
  else if cfg_fullscreen (cfg state) then
    ret (set_display state (set_fullscreen (display state) true),
         Z.lor window_type SDL_WINDOW_FULLSCREEN_DESKTOP)
  else ret (state, window_type).

Definition renderer_error_dialog (state : EmuEnvState) : Eff unit :=
  match backend_renderer state with
  | OpenGL =>
      if is_android pf
      then emit (EvErrorDialog "Could not create OpenGL ES context!")
      else emit (EvErrorDialog "Could not create OpenGL context!")
  | Vulkan => emit (EvErrorDialog "Could not create Vulkan context!")
  | Unimplemented => emit (EvErrorDialog "Unknown backend renderer: {}.")
  end.

(** From the creation of the window to the end of [init].  The window is
    described by its flags; its size, the reference resolution scaled by the
    DPI factor, plays no part in what follows. *)
Definition init_window_and_subsystems (state : EmuEnvState) (window_type : Z)
    : Eff (bool * EmuEnvState) :=
  let flags := Z.lor window_type SDL_WINDOW_RESIZABLE in
  emit (EvCreateWindow flags) ;;;
  let state := set_window state (SDL_CreateWindow sv flags) in
  match window state with
  | None => emit (EvLog LOG_ERROR "SDL failed to create window!") ;;; ret (false, state)
  | Some _ =>
    rendered <-
      (if negb (cfg_console (cfg state)) then
         emit (EvRendererInit (backend_renderer state)) ;;;
         match renderer_init sv (backend_renderer state) (cfg state) with
         | Some r => state' <- update_viewport (set_renderer state r) ;; ret (true, state')
         | None => renderer_error_dialog state ;;; ret (false, state)
         end
       else ret (true, state)) ;;
    let '(ok, state) := rendered in
    if negb ok then ret (false, state)
    else
    let state :=
      if is_android pf
      then set_renderer state
             (set_current_custom_driver (renderer state)
                (custom_driver_name (current_config (cfg state))))
      else state in
    let p := paths state in
    emit (EvIoInit (st_cache_path p) (st_log_path p) (st_pref_path p)
            (cfg_console (cfg state))) ;;;
    if negb (io_init sv (st_cache_path p) (st_log_path p) (st_pref_path p)
               (cfg_console (cfg state)))
    then
      emit (EvLog LOG_ERROR "Failed to initialize file system for the emulator!") ;;;
      ret (false, state)
    else
    emit EvMotionInit ;;;
    when (USE_DISCORD sv)
      (emit EvDiscordInit ;;;
       when (discordrpc_init sv && cfg_discord_rich_presence (cfg state))
         (emit EvDiscordUpdatePresence)) ;;;
    ret (true, state)
  end.

Definition init (state : EmuEnvState) (root_paths : Root) : Eff (bool * EmuEnvState) :=
  let state := seed_paths state root_paths in
  log_paths ;;;
  when (negb (imgui_has_context sv)) (emit EvImGuiCreateContext) ;;;
  state <- select_backend state ;;
  window_type <- select_window_type state ;;
  sw <- select_fullscreen state window_type ;;
  let '(state, window_type) := sw in
  driver_ok <-
    (if is_android pf
        && negb (String.eqb (custom_driver_name (current_config (cfg state))) "")
     then load_custom_driver (driver_host sv)
            (custom_driver_name (current_config (cfg state)))
     else ret true) ;;
  if negb driver_ok then ret (false, state)
  else init_window_and_subsystems state window_type.

(** ** late_init *)


Definition late_init (state : EmuEnvState) : Eff (bool * EmuEnvState) :=
  emit EvRendererLateInit ;;;
  let state := set_renderer state (renderer_late_init sv (cfg state) (renderer state)) in
  let need_page_table :=
    MappingMethod_eqb (mapping_method (renderer state)) PageTable
    || MappingMethod_eqb (mapping_method (renderer state)) NativeBuffer in
  emit (EvMemInit need_page_table) ;;;
  match mem_init sv need_page_table with
  | None =>
      emit (EvLog LOG_ERROR "Failed to initialize memory for emulator state!") ;;;
      ret (false, state)
  | Some m =>
      let state := set_mem state m in
      when (use_page_table (mem state)
            && match cpu_backend (kernel state) with Unicorn => true | _ => false end)
        (emit (EvLog LOG_CRITICAL "Unicorn backend is not supported with a page table")) ;;;
      emit (EvAudioInit (cfg_audio_backend (cfg state))) ;;;
      when (negb (audio_init sv (cfg_audio_backend (cfg state))))
        (emit (EvLog LOG_WARN "Failed to initialize audio! Audio will not work.")) ;;;
      emit EvNgsInit ;;;
      if negb (ngs_init sv) then
        emit (EvLog LOG_ERROR "Failed to initialize ngs.") ;;; ret (false, state)
      else ret (true, state)
  end.

(** ** switch_state *)

(** Modelled from the spec: [KernelState::pause_threads] and
    [KernelState::resume_threads] are defined with the kernel.  The design
    document has the pause take every schedulable thread out of the runnable
    state, and the resume move every thread parked in the wait state to
    runnable. *)
Definition pause_status (s : ThreadStatus) : ThreadStatus :=
  match s with run => wait | _ => s end.

Definition resume_status (s : ThreadStatus) : ThreadStatus :=
  match s with wait => run | _ => s end.

Definition map_status (f : ThreadStatus -> ThreadStatus) (k : KernelState)
    : KernelState :=
  {| cpu_backend := cpu_backend k;
     threads := map (fun t => (fst t, f (snd t))) (threads k) |}.

Definition pause_threads (k : KernelState) : KernelState := map_status pause_status k.

Definition resume_threads (k : KernelState) : KernelState := map_status resume_status k.

(** Modelled from the spec: [AudioState::switch_state] is defined with the
    audio subsystem.  The design document has it suspend or resume the audio
    output stream. *)
Definition audio_switch_state (a : AudioState) (pause : bool) : AudioState :=
  {| stream_paused := pause |}.

(** The effects of [switch_state], one per statement. *)
Inductive Step :=
| StepImguiRender (b : bool)
| StepControllerOverlay (mask : Z)
| StepPauseThreads
| StepResumeThreads
| StepAudioSwitch (pause : bool).

Definition exec_step (emuenv : EmuEnvState) (st : Step) : EmuEnvState :=
  match st with
  | StepImguiRender b => set_display emuenv (set_imgui_render (display emuenv) b)
  | StepControllerOverlay mask => set_controller_overlay_state emuenv mask
  | StepPauseThreads => set_kernel emuenv (pause_threads (kernel emuenv))
  | StepResumeThreads => set_kernel emuenv (resume_threads (kernel emuenv))
  | StepAudioSwitch pause => set_audio emuenv (audio_switch_state (audio emuenv) pause)
  end.

Definition exec_steps (steps : list Step) (emuenv : EmuEnvState) : EmuEnvState :=
  fold_left exec_step steps emuenv.

(** The statements of [switch_state] in program order. *)
Definition switch_state_steps (emuenv : EmuEnvState) (pause : bool) : list Step :=
  ((if pause then
      (if is_android pf
       then [StepImguiRender true; StepControllerOverlay 0]
       else [])
      ++ [StepPauseThreads]
    else
      (if is_android pf
       then StepImguiRender false ::
            (if cfg_enable_gamepad_overlay (cfg emuenv)
             then [StepControllerOverlay (get_overlay_display_mask sv (cfg emuenv))]
             else [])
       else [])
      ++ [StepResumeThreads])
   ++ [StepAudioSwitch pause])%list.

Definition switch_state (emuenv : EmuEnvState) (pause : bool) : EmuEnvState :=
  exec_steps (switch_state_steps emuenv pause) emuenv.

End Init.

(** ** Sample inputs

    Concrete hosts, configurations and states on which the model is run. *)

(** C-locale upper-casing, character by character. *)
Definition ascii_toupper (c : ascii) : ascii :=
  let n := nat_of_ascii c in
  if (97 <=? n)%nat && (n <=? 122)%nat then ascii_of_nat (n - 32) else c.

Fixpoint string_toupper (s : string) : string :=
  match s with
  | EmptyString => EmptyString
  | String c r => String (ascii_toupper c) (string_toupper r)
  end.

Definition sample_fs : Filesystem :=
  fs_of_list [("/data/app/driver/turnip/", true)].

Definition sample_android : AndroidHost :=
  {| SDL_AndroidGetInternalStoragePath := "/data/app";
     SDL_GetAndroidSDKVersion := 30;
     nativeLibraryDir := "/data/app/lib";
     android_fs := sample_fs;
     read_word := fun _ => "libvulkan_freedreno.so";
     adrenotools_open_libvulkan := fun _ _ _ _ _ => 4096;
     SDL_Vulkan_LoadLibrary := fun _ _ => 0 |}.

Definition sample_window : Window :=
  {| gl_drawable_size := (1920, 1080); vulkan_drawable_size := (1920, 1080) |}.

Definition sample_renderer (b : Backend) : Renderer :=
  {| current_backend := b; mapping_method := Direct; current_custom_driver := "" |}.

Definition sample_services (audio_ok ngs_ok : bool) : Services :=
  {| toupper := string_toupper;
     imgui_has_context := false;
     driver_host := sample_android;
     SDL_CreateWindow := fun _ => Some sample_window;
     renderer_init := fun b _ => Some (sample_renderer b);
     io_init := fun _ _ _ _ => true;
     USE_DISCORD := false;
     discordrpc_init := false;
     renderer_late_init := fun _ r => r;
     mem_init := fun need => Some {| use_page_table := need |};
     audio_init := fun _ => audio_ok;
     ngs_init := ngs_ok;
     get_overlay_display_mask := fun _ => 3 |}.

Definition sample_cfg (backend : string) : Config :=
  {| cfg_pref_path := "";
     cfg_backend_renderer := backend;
     current_config := {| cur_backend_renderer := backend; custom_driver_name := "" |};
     cfg_config_path := "/home/user/.config/Vita3K/";
     cfg_fullscreen := false;
     cfg_console := false;
     cfg_stretch_the_display_area := false;
     cfg_discord_rich_presence := false;
     cfg_audio_backend := "SDL";
     cfg_enable_gamepad_overlay := true |}.

Definition zero2 : FVector2 := {| vx := S754_zero false; vy := S754_zero false |}.

Definition sample_state (backend : string) (win : option Window) : EmuEnvState :=
  {| paths := {| st_base_path := ""; st_default_path := ""; st_log_path := "";
                 st_config_path := ""; st_cache_path := ""; st_shared_path := "";
                 st_static_assets_path := ""; st_pref_path := "" |};
     cfg := sample_cfg backend;
     backend_renderer := Vulkan;
     display := {| fullscreen := false; imgui_render := false |};
     window := win;
     renderer := sample_renderer Vulkan;
     view := {| drawable_size := (0, 0); viewport_pos := zero2; viewport_size := zero2 |};
     mem := {| use_page_table := false |};
     kernel := {| cpu_backend := OtherCPUBackend;
                  threads := [(1, run); (2, wait); (3, dormant); (4, run)] |};
     audio := {| stream_paused := false |};
     controller_overlay_state := 3 |}.

(** A colon-separated list, split the way [std::getline] reads it: an
    empty segment at the end is not reported. *)
Fixpoint split_segments (s : string) (delimiter : ascii) (segment : string)
    : list string :=
  match s with
  | EmptyString => if String.eqb segment "" then [] else [segment]
  | String c r =>
      if Ascii.eqb c delimiter then segment :: split_segments r delimiter ""
      else split_segments r delimiter (push_back segment c)
  end.

Definition sample_split_string (s : string) (delimiter : ascii) : list string :=
  split_segments s delimiter "".

Definition set_getenv (h : Host) (env : string -> option string) : Host :=
  {| SDL_GetBasePath := SDL_GetBasePath h;
     SDL_GetPrefPath := SDL_GetPrefPath h;
     SDL_AndroidGetExternalStoragePath := SDL_AndroidGetExternalStoragePath h;
     getenv := env;
     host_fs := host_fs h |}.

(** An installation with a portable directory next to the executable. *)
Definition portable_host : Host :=
  {| SDL_GetBasePath := "/opt/vita3k/";
     SDL_GetPrefPath := fun _ _ => "/home/user/.local/share/Vita3K/Vita3K/";
     SDL_AndroidGetExternalStoragePath := "";
     getenv := fun _ => None;
     host_fs := fs_of_list [("/opt/vita3k/portable", true)] |}.

(** An application bundle whose user keeps a [ux0] directory of an older
    version in the per-user directory. *)
Definition legacy_apple_host : Host :=
  {| SDL_GetBasePath := "/Applications/Vita3K.app/Contents/Resources/";
     SDL_GetPrefPath := fun _ _ => "/Users/user/Library/Application Support/Vita3K/Vita3K/";
     SDL_AndroidGetExternalStoragePath := "";
     getenv := fun _ => None;
     host_fs :=
       fs_of_list [("/Users/user/Library/Application Support/Vita3K/Vita3K/ux0", true)] |}.

Definition android_host : Host :=
  {| SDL_GetBasePath := "";
     SDL_GetPrefPath := fun _ _ => "";
     SDL_AndroidGetExternalStoragePath :=
       "/storage/emulated/0/Android/data/org.vita3k.emulator/files";
     getenv := fun _ => None;
     host_fs := fs_of_list [] |}.

(** The preference path differs from the log, config, cache and shared
    paths. *)
Definition pref_apart_from_user_roots (r : Root) : Prop :=
  pref_path r <> log_path r /\ pref_path r <> config_path r /\
  pref_path r <> cache_path r /\ pref_path r <> shared_path r.

(** The preference path differs from the base and static-assets paths. *)
Definition pref_apart_from_install_roots (r : Root) : Prop :=
  pref_path r <> base_path r /\ pref_path r <> static_assets_path r.

(** The width-to-height ratio of [size] is the reference ratio
    [DEFAULT_RES_WIDTH / DEFAULT_RES_HEIGHT] up to a relative error of
    [2^-23], the machine epsilon of single precision: both components are
    finite, non-zero and of one sign, and with [x] and [y] their magnitudes,
    [|H * x - W * y| * 2^23 <= W * y]. *)
Definition keeps_aspect (size : FVector2) : bool :=
  match vx size, vy size with
  | S754_finite sx mx ex, S754_finite sy my ey =>
      Bool.eqb sx sy &&
      (let e0 := Z.min ex ey in
       let x := Zpos mx * 2 ^ (ex - e0) in
       let y := Zpos my * 2 ^ (ey - e0) in
       Z.abs (DEFAULT_RES_HEIGHT * x - DEFAULT_RES_WIDTH * y) * 2 ^ 23
         <=? DEFAULT_RES_WIDTH * y)
  | _, _ => false
  end.

(** The invariant of the right shifts of a rounding: the record locates
    the number [N / V], with [V] the weight of a unit of [shr_m]: the round
    bit tells whether [N / V] reaches the half above [shr_m], the sticky bit
    whether anything lies beyond. *)
Definition b2z (b : bool) : Z := if b then 1 else 0.

Definition shr_inv (N V : Z) (mrs : shr_record) : Prop :=
  0 <= shr_m mrs /\
  0 <= 2 * N - V * (2 * shr_m mrs + b2z (shr_r mrs)) < V /\
  (shr_s mrs = false <-> 2 * N = V * (2 * shr_m mrs + b2z (shr_r mrs))).

(** Every computation of this file only extends the trace it is given. *)
Definition extends {A : Type} (m : Eff A) : Prop :=
  forall t, exists post, snd (m t) = (t ++ post)%list.

(** The computation [m] returns [a] and adds the calls [w] to the trace,
    whatever the trace is. *)
Definition emits {A : Type} (m : Eff A) (a : A) (w : list Event) : Prop :=
  forall t, m t = (a, (t ++ w)%list).

(** The calls that [m] adds to the trace all satisfy [P]. *)
Definition writes {A : Type} (P : Event -> bool) (m : Eff A) : Prop :=
  exists a w, emits m a w /\ forallb P w = true.

(** [init] up to the choice of the window flags: the state and the flags
    it reaches before a driver is loaded and the window is created. *)
Definition init_prologue {L : FsLib} (pf : Platform) (sv : Services)
    (state : EmuEnvState) (root_paths : Root) : Eff (EmuEnvState * Z) :=
  let state := seed_paths pf state root_paths in
  log_paths pf ;;;
  when (negb (imgui_has_context sv)) (emit EvImGuiCreateContext) ;;;
  state <- select_backend pf sv state ;;
  window_type <- select_window_type state ;;
  select_fullscreen pf state window_type.

(** [init] from there on: the driver, the window and the subsystems. *)
Definition init_epilogue {L : FsLib} (pf : Platform) (sv : Services)
    (state : EmuEnvState) (window_type : Z) : Eff (bool * EmuEnvState) :=
  driver_ok <-
    (if is_android pf
        && negb (String.eqb (custom_driver_name (current_config (cfg state))) "")
     then load_custom_driver (driver_host sv)
            (custom_driver_name (current_config (cfg state)))
     else ret true) ;;
  if negb driver_ok then ret (false, state)
  else init_window_and_subsystems pf sv state window_type.

(** Whether the configuration in use asks for OpenGL. *)
Definition requests_opengl (sv : Services) (c : Config) : bool :=
  String.eqb (toupper sv (cur_backend_renderer (current_config c))) "OPENGL".

(** The flags of the window that [init] creates. *)
Definition window_flags (pf : Platform) (sv : Services) (c : Config) : Z :=
  let api :=
    if requests_opengl sv c && negb (is_apple pf)
    then SDL_WINDOW_OPENGL else SDL_WINDOW_VULKAN in
  let window_type :=
    if is_android pf || cfg_fullscreen c
    then Z.lor api SDL_WINDOW_FULLSCREEN_DESKTOP else api in
  Z.lor window_type SDL_WINDOW_RESIZABLE.

Definition is_window_call (e : Event) : bool :=
  match e with EvCreateWindow _ => true | _ => false end.

Definition is_renderer_call (e : Event) : bool :=
  match e with
  | EvRendererInit _ | EvGetDrawableSize _ | EvErrorDialog _ => true
  | _ => false
  end.

Definition is_subsystem_call (e : Event) : bool :=
  match e with
  | EvIoInit _ _ _ _ | EvMotionInit | EvDiscordInit | EvDiscordUpdatePresence => true
  | _ => false
  end.

(** The calls of [init] before the driver and the window. *)
Definition prologue_event (e : Event) : bool :=
  match e with
  | EvLog _ _ | EvImGuiCreateContext | EvSetHint _ _ | EvSerializeConfig _ _ => true
  | _ => false
  end.

(** The calls that end [init], by the answer of the filesystem
    initialization. *)
Definition closing_calls (sv : Services) (state : EmuEnvState) (io_ok : bool)
    : list Event :=
  EvIoInit (st_cache_path (paths state)) (st_log_path (paths state))
    (st_pref_path (paths state)) (cfg_console (cfg state)) ::
  (if io_ok then
     EvMotionInit ::
     (if USE_DISCORD sv then
        EvDiscordInit ::
        (if discordrpc_init sv && cfg_discord_rich_presence (cfg state)
         then [EvDiscordUpdatePresence] else [])
      else [])
   else [EvLog LOG_ERROR "Failed to initialize file system for the emulator!"]).

Definition is_config_write (e : Event) : bool :=
  match e with EvSerializeConfig _ _ => true | _ => false end.

(** The calls that [load_custom_driver] makes. *)
Definition is_driver_call (e : Event) : bool :=
  match e with
  | EvReadFile _ | EvCreateDirectory _ | EvQueryNativeLibraryDir
  | EvOpenLibvulkan _ _ _ _ _ | EvVulkanLoadLibrary _ _ => true
  | _ => false
  end.

Definition is_log (e : Event) : bool :=
  match e with EvLog _ _ => true | _ => false end.

(** A driver directory complete with its manifest. *)
Definition ready_android : AndroidHost :=
  {| SDL_AndroidGetInternalStoragePath := "/data/app";
     SDL_GetAndroidSDKVersion := 28;
     nativeLibraryDir := "/data/app/lib";
     android_fs :=
       fs_of_list [("/data/app/driver/turnip/", true);
                   ("/data/app/driver/turnip/driver_name.txt", false)];
     read_word := fun _ => "libvulkan_freedreno.so";
     adrenotools_open_libvulkan := fun _ _ _ _ _ => 4096;
     SDL_Vulkan_LoadLibrary := fun _ _ => 0 |}.

(** Services whose memory subsystem initializes or not, as asked. *)
Definition memory_services (mem_ok : bool) : Services :=
  {| toupper := string_toupper;
     imgui_has_context := true;
     driver_host := sample_android;
     SDL_CreateWindow := fun _ => Some sample_window;
     renderer_init := fun b _ => Some (sample_renderer b);
     io_init := fun _ _ _ _ => true;
     USE_DISCORD := false;
     discordrpc_init := false;
     renderer_late_init := fun _ r => r;
     mem_init := fun need => if mem_ok then Some {| use_page_table := need |} else None;
     audio_init := fun _ => true;
     ngs_init := true;
     get_overlay_display_mask := fun _ => 3 |}.

(** A Linux desktop with the XDG variables of a usual session. *)
Definition xdg_host : Host :=
  {| SDL_GetBasePath := "/usr/bin/";
     SDL_GetPrefPath := fun _ _ => "/home/user/.local/share/Vita3K/Vita3K/";
     SDL_AndroidGetExternalStoragePath := "";
     getenv := fun name =>
       if String.eqb name "HOME" then Some "/home/user"
       else if String.eqb name "XDG_DATA_DIRS" then Some "/usr/local/share:/usr/share"
       else if String.eqb name "XDG_CONFIG_HOME" then Some "/home/user/.config"
       else None;
     host_fs := fs_of_list [("/usr/share/Vita3K", true)] |}.

(** The number [x] is exactly the integer [n]. *)
Definition float_is_int (x : float) (n : Z) : bool :=
  match x with
  | S754_zero _ => n =? 0
  | S754_finite s m e =>
      (e <=? 0) && (Zpos m =? Z.abs n * 2 ^ (- e)) && Bool.eqb s (n <? 0)
  | _ => false
  end.

(** An AppImage run by a user without XDG variables. *)
Definition appimage_host : Host :=
  {| SDL_GetBasePath := "/tmp/.mount_Vita3K/usr/bin/";
     SDL_GetPrefPath := fun _ _ => "/home/user/.local/share/Vita3K/Vita3K/";
     SDL_AndroidGetExternalStoragePath := "";
     getenv := fun name =>
       if String.eqb name "HOME" then Some "/home/user"
       else if String.eqb name "APPDIR" then Some "/tmp/.mount_Vita3K"
       else None;
     host_fs := fs_of_list [("/tmp/.mount_Vita3K/usr/share/Vita3K", true)] |}.

(** The sample state with the display area stretched. *)
Definition stretched_state (win : option Window) : EmuEnvState :=
  set_cfg (sample_state "Vulkan" win)
    {| cfg_pref_path := "";
       cfg_backend_renderer := "Vulkan";
       current_config := {| cur_backend_renderer := "Vulkan"; custom_driver_name := "" |};
       cfg_config_path := "/home/user/.config/Vita3K/";
       cfg_fullscreen := false;
       cfg_console := false;
       cfg_stretch_the_display_area := true;
       cfg_discord_rich_presence := false;
       cfg_audio_backend := "SDL";
       cfg_enable_gamepad_overlay := false |}.

(** The calls of [init] after the creation of the window. *)
Definition window_event (e : Event) : bool :=
  is_log e || is_renderer_call e || is_subsystem_call e.

(** No custom driver is to be loaded, or the configured one loads. *)
Definition driver_ready {L : FsLib} (pf : Platform) (sv : Services) (c : Config) : bool :=
  negb (is_android pf && negb (String.eqb (custom_driver_name (current_config c)) ""))
  || fst (run_eff (load_custom_driver (driver_host sv)
                     (custom_driver_name (current_config c)))).

(** The calls of [init] before the creation of the window. *)
Definition before_window (e : Event) : bool :=
  prologue_event e || is_driver_call e.

(** Services whose window, renderer and filesystem answer as asked. *)
Definition bootstrap_services (win : option Window) (renderer_ok io_ok : bool)
    : Services :=
  {| toupper := string_toupper;
     imgui_has_context := false;
     driver_host := sample_android;
     SDL_CreateWindow := fun _ => win;
     renderer_init := fun b _ => if renderer_ok then Some (sample_renderer b) else None;
     io_init := fun _ _ _ _ => io_ok;
     USE_DISCORD := true;
     discordrpc_init := true;
     renderer_late_init := fun _ r => r;
     mem_init := fun need => Some {| use_page_table := need |};
     audio_init := fun _ => true;
     ngs_init := true;
     get_overlay_display_mask := fun _ => 3 |}.

(** The sample state with a custom driver and the console mode as asked. *)
Definition configured_state (driver : string) (console : bool) : EmuEnvState :=
  set_cfg (sample_state "Vulkan" None)
    {| cfg_pref_path := "/sdcard/vita3k";
       cfg_backend_renderer := "Vulkan";
       current_config := {| cur_backend_renderer := "Vulkan"; custom_driver_name := driver |};
       cfg_config_path := "/home/user/.config/Vita3K/";
       cfg_fullscreen := false;
       cfg_console := console;
       cfg_stretch_the_display_area := false;
       cfg_discord_rich_presence := true;
       cfg_audio_backend := "SDL";
       cfg_enable_gamepad_overlay := true |}.

(** * Properties *)

(** ** The viewport of a window without height *)

Lemma viewport_of_degenerate (w h : Z) (stretch : bool) :
  h <= 0 -> viewport_of w h stretch = (zero2, zero2).
Proof.
  intros Hh. unfold viewport_of.
  destruct (Z.ltb_spec 0 h) as [Hlt | _]; [lia | reflexivity].
Qed.

(** C4: whenever the drawable height that the window reports is zero or
    negative, [update_viewport] leaves the degenerate rectangle, position
    (0,0) and size (0,0), whatever the stretch flag. *)
Theorem update_viewport_degenerate (state : EmuEnvState) (t : list Event) :
  snd (fst (get_drawable_size state t)) <= 0 ->
  viewport_pos (view (fst (update_viewport state t))) = zero2 /\
  viewport_size (view (fst (update_viewport state t))) = zero2.
Proof.
  intros Hh. unfold update_viewport, bind.
  destruct (get_drawable_size state t) as [[w h] t']. simpl in Hh.
  rewrite (viewport_of_degenerate w h _ Hh). simpl. split; reflexivity.
Qed.

Lemma update_viewport_degenerate_witness :
  viewport_pos (view (fst (update_viewport
     (sample_state "Vulkan" (Some {| gl_drawable_size := (0, 0);
                                    vulkan_drawable_size := (800, 0) |})) []))) = zero2 /\
  viewport_size (view (fst (update_viewport
     (sample_state "Vulkan" (Some {| gl_drawable_size := (0, 0);
                                    vulkan_drawable_size := (800, 0) |})) []))) = zero2.
Proof.
  apply update_viewport_degenerate. simpl. lia.
Defined.

(** ** Late initialization *)

Lemma late_init_trace_head (sv : Services) (state : EmuEnvState) :
  let m := mapping_method (renderer_late_init sv (cfg state) (renderer state)) in
  exists rest,
    snd (run_eff (late_init sv state)) =
      EvRendererLateInit ::
      EvMemInit (MappingMethod_eqb m PageTable || MappingMethod_eqb m NativeBuffer) ::
      rest.
Proof.
  unfold run_eff, late_init, bind, emit, when, ret. simpl.
  destruct (mem_init sv _) as [m |]; simpl.
  - destruct (use_page_table m && _); simpl;
      destruct (audio_init sv _); simpl;
      destruct (ngs_init sv); simpl; eexists; reflexivity.
  - eexists; reflexivity.
Qed.

(** C10: the memory subsystem is initialized right after the renderer's late
    initialization, and the flag it receives is true exactly when the mapping
    method that the renderer then reports is PageTable or NativeBuffer; it is
    false exactly for Direct. *)
Theorem late_init_need_page_table (sv : Services) (state : EmuEnvState) :
  exists (need : bool) (rest : list Event),
    snd (run_eff (late_init sv state)) = EvRendererLateInit :: EvMemInit need :: rest /\
    let m := mapping_method (renderer_late_init sv (cfg state) (renderer state)) in
    (need = true <-> m = PageTable \/ m = NativeBuffer) /\
    (need = false <-> m = Direct).
Proof.
  destruct (late_init_trace_head sv state) as [rest Hrest].
  eexists; exists rest. split; [exact Hrest |].
  simpl.
  destruct (mapping_method _); simpl; split; split; intros H;
    try reflexivity; try discriminate; auto;
    destruct H; discriminate.
Qed.

Lemma late_init_result (sv : Services) (state : EmuEnvState) :
  let m := mapping_method (renderer_late_init sv (cfg state) (renderer state)) in
  fst (fst (run_eff (late_init sv state))) =
    match mem_init sv (MappingMethod_eqb m PageTable || MappingMethod_eqb m NativeBuffer) with
    | None => false
    | Some _ => ngs_init sv
    end.
Proof.
  unfold run_eff, late_init, bind, emit, when, ret. simpl.
  destruct (mem_init sv _) as [m |]; simpl; [| reflexivity].
  destruct (use_page_table m && _); simpl;
    destruct (audio_init sv _); simpl;
    destruct (ngs_init sv); reflexivity.
Qed.

(** C7: when the memory subsystem and ngs initialize, a failure of the audio
    subsystem is not fatal: [late_init] logs a warning, goes on to the ngs
    initialization and returns success.  A failure of the ngs initialization
    makes [late_init] return failure. *)
Theorem late_init_audio_nonfatal (sv : Services) (state : EmuEnvState) :
  let m := mapping_method (renderer_late_init sv (cfg state) (renderer state)) in
  let need := MappingMethod_eqb m PageTable || MappingMethod_eqb m NativeBuffer in
  (forall ms, mem_init sv need = Some ms ->
     audio_init sv (cfg_audio_backend (cfg state)) = false ->
     ngs_init sv = true ->
     fst (fst (run_eff (late_init sv state))) = true /\
     In (EvLog LOG_WARN "Failed to initialize audio! Audio will not work.")
        (snd (run_eff (late_init sv state))) /\
     In EvNgsInit (snd (run_eff (late_init sv state)))) /\
  (ngs_init sv = false -> fst (fst (run_eff (late_init sv state))) = false).
Proof.
  intros m need. split.
  - intros ms Hmem Haudio Hngs.
    unfold run_eff, late_init, bind, emit, when, ret in *. simpl in *.
    fold m. fold need. rewrite Hmem. simpl. rewrite Haudio, Hngs.
    destruct (use_page_table ms && _); simpl; intuition.
  - intros Hngs. rewrite late_init_result. simpl.
    destruct (mem_init sv _); [exact Hngs | reflexivity].
Qed.

Lemma late_init_audio_nonfatal_witness :
  (fst (fst (run_eff (late_init (sample_services false true)
                        (sample_state "Vulkan" None)))) = true /\
   In (EvLog LOG_WARN "Failed to initialize audio! Audio will not work.")
      (snd (run_eff (late_init (sample_services false true) (sample_state "Vulkan" None)))) /\
   In EvNgsInit
      (snd (run_eff (late_init (sample_services false true) (sample_state "Vulkan" None))))) /\
  fst (fst (run_eff (late_init (sample_services true false)
                       (sample_state "Vulkan" None)))) = false.
Proof.
  split.
  - apply (proj1 (late_init_audio_nonfatal (sample_services false true)
                    (sample_state "Vulkan" None)) {| use_page_table := false |});
      reflexivity.
  - apply (proj2 (late_init_audio_nonfatal (sample_services true false)
                    (sample_state "Vulkan" None))); reflexivity.
Defined.

(** ** The driver loader *)

(** C6: when the directory of the driver exists and holds no
    [driver_name.txt], [load_custom_driver] returns failure after logging
    that the manifest is missing, and makes no other call: in particular
    [adrenotools_open_libvulkan] is not invoked. *)
Theorem load_custom_driver_manifest_missing
    (L : FsLib) (h : AndroidHost) (driver_name : string) :
  fs_exists (android_fs h) (driver_path_of h driver_name) = true ->
  fs_exists (android_fs h) (driver_path_of h driver_name // "driver_name.txt") = false ->
  run_eff (load_custom_driver h driver_name) =
    (false, [EvLog LOG_ERROR "Could not find driver driver_name.txt"]) /\
  forall temp_dir lib_dir driver_path main_so_name file_redirect,
    ~ In (EvOpenLibvulkan temp_dir lib_dir driver_path main_so_name file_redirect)
         (snd (run_eff (load_custom_driver h driver_name))).
Proof.
  intros Hdir Hfile.
  assert (Hrun : run_eff (load_custom_driver h driver_name) =
                 (false, [EvLog LOG_ERROR "Could not find driver driver_name.txt"])).
  { unfold run_eff, load_custom_driver. rewrite Hdir, Hfile. reflexivity. }
  split; [exact Hrun |].
  intros. rewrite Hrun. simpl. intros [Heq | []]. discriminate Heq.
Qed.

Lemma load_custom_driver_manifest_missing_witness :
  run_eff (load_custom_driver (L := posix_fs) sample_android "turnip") =
    (false, [EvLog LOG_ERROR "Could not find driver driver_name.txt"]) /\
  forall temp_dir lib_dir driver_path main_so_name file_redirect,
    ~ In (EvOpenLibvulkan temp_dir lib_dir driver_path main_so_name file_redirect)
         (snd (run_eff (load_custom_driver (L := posix_fs) sample_android "turnip"))).
Proof.
  apply (load_custom_driver_manifest_missing posix_fs sample_android "turnip");
    reflexivity.
Defined.

(** ** Backend selection *)

Lemma seed_paths_current_config (pf : Platform) (state : EmuEnvState) (root_paths : Root) :
  current_config (cfg (seed_paths pf state root_paths)) = current_config (cfg state) /\
  cfg_config_path (cfg (seed_paths pf state root_paths)) = cfg_config_path (cfg state).
Proof.
  unfold seed_paths. simpl.
  destruct (_ || _); [split; reflexivity |].
  destruct (last_char _); [| split; reflexivity].
  destruct (_ && _); split; reflexivity.
Qed.

Lemma bind_trace_app {A B : Type} (m : Eff A) (k : A -> Eff B) (t : list Event) :
  snd (bind m k t) = snd (k (fst (m t)) (snd (m t))).
Proof. unfold bind. destruct (m t). reflexivity. Qed.

Lemma extends_ret {A : Type} (a : A) : extends (ret a).
Proof. intros t. exists []. simpl. now rewrite app_nil_r. Qed.

Lemma extends_emit (e : Event) : extends (emit e).
Proof. intros t. exists [e]. reflexivity. Qed.

Lemma extends_bind {A B : Type} (m : Eff A) (k : A -> Eff B) :
  extends m -> (forall a, extends (k a)) -> extends (bind m k).
Proof.
  intros Hm Hk t. rewrite bind_trace_app.
  destruct (Hm t) as [p1 H1]. destruct (Hk (fst (m t)) (snd (m t))) as [p2 H2].
  exists (p1 ++ p2)%list. rewrite H2, H1. now rewrite app_assoc.
Qed.

Lemma extends_when (c : bool) (m : Eff unit) : extends m -> extends (when c m).
Proof. intros Hm. destruct c; [exact Hm | apply extends_ret]. Qed.

Ltac extends_tac :=
  repeat first
    [ apply extends_ret | apply extends_emit
    | apply extends_when | (apply extends_bind; [| intros ?]) ].

Lemma extends_get_drawable_size (state : EmuEnvState) : extends (get_drawable_size state).
Proof.
  unfold get_drawable_size. destruct (current_backend _); extends_tac.
Qed.

Lemma extends_update_viewport (state : EmuEnvState) : extends (update_viewport state).
Proof.
  unfold update_viewport. apply extends_bind; [apply extends_get_drawable_size |].
  intros [w h]. destruct (viewport_of _ _ _). apply extends_ret.
Qed.

Lemma extends_renderer_error_dialog (pf : Platform) (state : EmuEnvState) :
  extends (renderer_error_dialog pf state).
Proof.
  unfold renderer_error_dialog.
  destruct (backend_renderer state), (is_android pf); apply extends_emit.
Qed.

(** The window is created first, whatever follows. *)
Lemma init_window_trace (pf : Platform) (sv : Services) (state : EmuEnvState)
    (window_type : Z) (t : list Event) :
  exists post,
    snd (init_window_and_subsystems pf sv state window_type t) =
      (t ++ EvCreateWindow (Z.lor window_type SDL_WINDOW_RESIZABLE) :: post)%list.
Proof.
  unfold init_window_and_subsystems.
  rewrite bind_trace_app. cbn [emit fst snd].
  match goal with
  | |- exists post, snd (?k ?t1) = _ =>
      assert (Hext : extends k); [| destruct (Hext t1) as [post Hpost]]
  end.
  - cbn [window set_window]. destruct (SDL_CreateWindow sv _); [| extends_tac].
    apply extends_bind.
    + destruct (negb _); [| extends_tac].
      apply extends_bind; [apply extends_emit | intros _].
      destruct (renderer_init sv _ _).
      * apply extends_bind; [apply extends_update_viewport | intros ?; apply extends_ret].
      * apply extends_bind; [apply extends_renderer_error_dialog | intros ?; apply extends_ret].
    + intros [ok st]. destruct (negb ok); [apply extends_ret |].
      apply extends_bind; [apply extends_emit | intros _].
      destruct (negb (io_init sv _ _ _ _)); extends_tac.
  - exists post. rewrite Hpost. now rewrite <- app_assoc.
Qed.

Lemma select_backend_apple (sv : Services) (state : EmuEnvState) (t : list Event) :
  String.eqb (toupper sv (cur_backend_renderer (current_config (cfg state)))) "OPENGL" = true ->
  select_backend Apple sv state t =
    (set_cfg (set_backend_renderer state Vulkan)
       (set_cfg_backend_renderer (cfg state) "Vulkan"),
     (t ++ [EvSerializeConfig (set_cfg_backend_renderer (cfg state) "Vulkan")
              (cfg_config_path (cfg state))])%list).
Proof.
  intros Hreq. unfold select_backend. cbn [cfg set_backend_renderer].
  rewrite Hreq. reflexivity.
Qed.

(** C5: the backend is Vulkan unless the configuration in use asks for
    OpenGL.  When it does, on Apple platforms Vulkan is kept, the
    [backend_renderer] entry of the configuration becomes Vulkan and the
    configuration is serialized to its file; [init] does not return there
    but goes on to create a Vulkan window.  On the other platforms OpenGL is
    selected, and nothing is written. *)
Theorem backend_selection (L : FsLib) (pf : Platform) (sv : Services)
    (state : EmuEnvState) :
  let requested :=
    String.eqb (toupper sv (cur_backend_renderer (current_config (cfg state)))) "OPENGL" in
  let r := run_eff (select_backend pf sv state) in
  (requested = true -> pf = Apple ->
     backend_renderer (fst r) = Vulkan /\
     cfg (fst r) = set_cfg_backend_renderer (cfg state) "Vulkan" /\
     snd r = [EvSerializeConfig (set_cfg_backend_renderer (cfg state) "Vulkan")
                (cfg_config_path (cfg state))] /\
     forall root_paths, exists pre c flags post,
       snd (run_eff (init pf sv state root_paths)) =
         (pre ++ EvSerializeConfig c (cfg_config_path (cfg state)) ::
                 EvCreateWindow flags :: post)%list /\
       cfg_backend_renderer c = "Vulkan" /\
       Z.land flags SDL_WINDOW_VULKAN = SDL_WINDOW_VULKAN /\
       Z.land flags SDL_WINDOW_OPENGL = 0) /\
  (requested = true -> pf <> Apple ->
     backend_renderer (fst r) = OpenGL /\ cfg (fst r) = cfg state /\ snd r = []) /\
  (requested = false ->
     backend_renderer (fst r) = Vulkan /\ cfg (fst r) = cfg state /\ snd r = []).
Proof.
  intros requested r. subst r.
  split; [| split].
  - intros Hreq Hpf. subst pf. unfold run_eff.
    rewrite (select_backend_apple sv state [] Hreq). cbn [fst snd app].
    repeat split.
    intros root_paths.
    destruct (seed_paths_current_config Apple state root_paths) as [Hcur Hpath].
    unfold run_eff, init, bind.
    destruct (log_paths Apple []) as [u1 t1].
    destruct (when (negb (imgui_has_context sv)) (emit EvImGuiCreateContext) t1) as [u2 t2].
    rewrite select_backend_apple by (rewrite Hcur; exact Hreq).
    rewrite Hpath.
    cbn [select_window_type backend_renderer set_cfg set_backend_renderer ret
         select_fullscreen is_android cfg andb].
    destruct (cfg_fullscreen _); cbn [ret negb];
      match goal with
      | |- context [init_window_and_subsystems ?p ?s ?st ?wt ?t] =>
          destruct (init_window_trace p s st wt t) as [post Hpost]; rewrite Hpost
      end;
      match goal with
      | |- context [((?pre ++ [EvSerializeConfig ?c ?path]) ++ EvCreateWindow ?f :: ?post)%list] =>
          exists pre, c, f, post
      end;
      (split; [rewrite <- app_assoc; reflexivity | repeat split]).
  - intros Hreq Hpf. unfold run_eff, select_backend.
    cbn [cfg set_backend_renderer]. fold requested. rewrite Hreq.
    destruct pf; try congruence; cbn; repeat split.
  - intros Hreq. unfold run_eff, select_backend.
    cbn [cfg set_backend_renderer]. fold requested. rewrite Hreq. cbn. repeat split.
Qed.

Lemma backend_selection_witness :
  (backend_renderer (fst (run_eff (select_backend Apple (sample_services true true)
                                     (sample_state "OpenGL" None)))) = Vulkan /\
   snd (run_eff (select_backend Apple (sample_services true true)
                   (sample_state "OpenGL" None))) =
     [EvSerializeConfig (set_cfg_backend_renderer (sample_cfg "OpenGL") "Vulkan")
        "/home/user/.config/Vita3K/"]) /\
  backend_renderer (fst (run_eff (select_backend Linux (sample_services true true)
                                    (sample_state "opengl" None)))) = OpenGL /\
  backend_renderer (fst (run_eff (select_backend Windows (sample_services true true)
                                    (sample_state "" None)))) = Vulkan.
Proof.
  split; [| split].
  - pose proof (proj1 (backend_selection posix_fs Apple (sample_services true true)
                         (sample_state "OpenGL" None)) eq_refl eq_refl) as H.
    split; [exact (proj1 H) | exact (proj1 (proj2 (proj2 H)))].
  - refine (proj1 (proj1 (proj2 (backend_selection posix_fs Linux
              (sample_services true true) (sample_state "opengl" None))) eq_refl _)).
    discriminate.
  - exact (proj1 (proj2 (proj2 (backend_selection posix_fs Windows
              (sample_services true true) (sample_state "" None))) eq_refl)).
Defined.

(** ** Pause and resume *)

Lemma pause_status_idempotent (s : ThreadStatus) :
  pause_status (pause_status s) = pause_status s.
Proof. destruct s; reflexivity. Qed.

Lemma pause_threads_idempotent (k : KernelState) :
  pause_threads (pause_threads k) = pause_threads k.
Proof.
  unfold pause_threads, map_status. simpl. f_equal.
  rewrite map_map. apply map_ext. intros [id s]. simpl.
  now rewrite pause_status_idempotent.
Qed.

Lemma resume_pause_running (k : KernelState) (id : Z) :
  In (id, run) (threads k) ->
  In (id, run) (threads (resume_threads (pause_threads k))).
Proof.
  intros Hin. unfold resume_threads, pause_threads, map_status. simpl.
  rewrite map_map. apply in_map_iff. exists (id, run). split; [reflexivity | exact Hin].
Qed.

Lemma pause_threads_none_running (k : KernelState) (id : Z) :
  ~ In (id, run) (threads (pause_threads k)).
Proof.
  unfold pause_threads, map_status. simpl. intros Hin.
  apply in_map_iff in Hin. destruct Hin as [[id' s] [Heq _]].
  simpl in Heq. destruct s; discriminate.
Qed.

Lemma kernel_switch_state (pf : Platform) (sv : Services) (emuenv : EmuEnvState)
    (pause : bool) :
  kernel (switch_state pf sv emuenv pause) =
    (if pause then pause_threads else resume_threads) (kernel emuenv).
Proof.
  unfold switch_state, switch_state_steps, exec_steps.
  destruct pause, (is_android pf); simpl; try reflexivity.
  destruct (cfg_enable_gamepad_overlay _); reflexivity.
Qed.

Lemma audio_switch_state_paused (pf : Platform) (sv : Services) (emuenv : EmuEnvState)
    (pause : bool) :
  stream_paused (audio (switch_state pf sv emuenv pause)) = pause.
Proof.
  unfold switch_state, exec_steps, switch_state_steps.
  rewrite fold_left_app. reflexivity.
Qed.

(** C8: pausing twice leaves the state that pausing once leaves, in which
    no thread is running and the audio stream is suspended; resuming after
    a pause makes every thread that was running before the pause run again
    and resumes the audio stream. *)
Theorem pause_idempotent_resume_restores (pf : Platform) (sv : Services)
    (emuenv : EmuEnvState) :
  let paused := switch_state pf sv emuenv true in
  switch_state pf sv paused true = paused /\
  (forall id, ~ In (id, run) (threads (kernel paused))) /\
  stream_paused (audio paused) = true /\
  (forall id, In (id, run) (threads (kernel emuenv)) ->
     In (id, run) (threads (kernel (switch_state pf sv paused false)))) /\
  stream_paused (audio (switch_state pf sv paused false)) = false.
Proof.
  intros paused. subst paused. repeat split.
  - unfold switch_state, switch_state_steps, exec_steps.
    destruct (is_android pf); simpl; unfold set_audio, set_kernel; simpl;
      rewrite pause_threads_idempotent; reflexivity.
  - intros id. rewrite kernel_switch_state. apply pause_threads_none_running.
  - apply audio_switch_state_paused.
  - intros id Hin. rewrite !kernel_switch_state. now apply resume_pause_running.
  - apply audio_switch_state_paused.
Qed.

Lemma pause_idempotent_resume_restores_witness :
  In (1, run)
     (threads (kernel (switch_state Android (sample_services true true)
                         (switch_state Android (sample_services true true)
                            (sample_state "Vulkan" None) true) false))).
Proof.
  apply (proj1 (proj2 (proj2 (proj2 (pause_idempotent_resume_restores Android
           (sample_services true true) (sample_state "Vulkan" None)))))).
  simpl. left. reflexivity.
Defined.

(** C9: in both directions [switch_state] ends with the thread transition
    followed by the audio transition, as two separate steps that nothing of
    the kind precedes.  Between them the environment is in a state where
    the threads have changed and the audio stream has not; on a suitable
    environment that state is neither the initial nor the final one. *)
Theorem switch_state_order (pf : Platform) (sv : Services) (emuenv : EmuEnvState)
    (pause : bool) :
  let thread_step := if pause then StepPauseThreads else StepResumeThreads in
  let transition := if pause then pause_threads else resume_threads in
  (exists pre,
     switch_state_steps pf sv emuenv pause =
       (pre ++ [thread_step; StepAudioSwitch pause])%list /\
     ~ In StepPauseThreads pre /\ ~ In StepResumeThreads pre /\
     (forall b, ~ In (StepAudioSwitch b) pre) /\
     let mid := exec_steps (pre ++ [thread_step])%list emuenv in
     kernel mid = transition (kernel emuenv) /\
     audio mid = audio emuenv /\
     switch_state pf sv emuenv pause = exec_step mid (StepAudioSwitch pause)) /\
  (exists env0 pre0,
     switch_state_steps pf sv env0 pause =
       (pre0 ++ [thread_step; StepAudioSwitch pause])%list /\
     let mid0 := exec_steps (pre0 ++ [thread_step])%list env0 in
     mid0 <> env0 /\ mid0 <> switch_state pf sv env0 pause).
Proof.
  intros thread_step transition. split.
  - exists (if is_android pf then
              if pause then [StepImguiRender true; StepControllerOverlay 0]
              else StepImguiRender false ::
                   (if cfg_enable_gamepad_overlay (cfg emuenv)
                    then [StepControllerOverlay (get_overlay_display_mask sv (cfg emuenv))]
                    else [])
            else []).
    unfold switch_state, switch_state_steps, exec_steps.
    subst thread_step transition.
    destruct pause, (is_android pf); try destruct (cfg_enable_gamepad_overlay (cfg emuenv));
      (split; [reflexivity |]);
      simpl; repeat split; try tauto;
      try intros b; intuition discriminate.
  - exists (if pause then sample_state "Vulkan" None
            else switch_state pf sv (sample_state "Vulkan" None) true).
    exists (if is_android pf then
              if pause then [StepImguiRender true; StepControllerOverlay 0]
              else [StepImguiRender false;
                    StepControllerOverlay
                      (get_overlay_display_mask sv (sample_cfg "Vulkan"))]
            else []).
    unfold switch_state, switch_state_steps, exec_steps. subst thread_step.
    destruct pause, (is_android pf); (split; [reflexivity |]);
      simpl; split; intros H;
      [ apply (f_equal (fun e => threads (kernel e))) in H
      | apply (f_equal (fun e => stream_paused (audio e))) in H
      | apply (f_equal (fun e => threads (kernel e))) in H
      | apply (f_equal (fun e => stream_paused (audio e))) in H
      | apply (f_equal (fun e => threads (kernel e))) in H
      | apply (f_equal (fun e => stream_paused (audio e))) in H
      | apply (f_equal (fun e => threads (kernel e))) in H
      | apply (f_equal (fun e => stream_paused (audio e))) in H ];
      discriminate H.
Qed.

(** ** Path resolution *)

Lemma string_append_assoc (a b c : string) : (a ++ b) ++ c = a ++ (b ++ c).
Proof. induction a as [| x a IH]; simpl; [reflexivity | now rewrite IH]. Qed.

Lemma string_append_cancel (p a b : string) : p ++ a = p ++ b -> a = b.
Proof.
  induction p as [| x p IH]; simpl; intros H; [exact H |].
  injection H as H. now apply IH.
Qed.

Lemma string_append_self (p a : string) : p ++ a = p -> a = "".
Proof.
  induction p as [| x p IH]; simpl; intros H; [exact H |].
  injection H as H. now apply IH.
Qed.

(** Distinct suffixes of one pathname give distinct pathnames. *)
Ltac differ :=
  let H := fresh "H" in
  repeat rewrite string_append_assoc; simpl; intros H;
  first [ apply string_append_self in H
        | symmetry in H; apply string_append_self in H
        | apply string_append_cancel in H ];
  discriminate H.

Section PathLaws.

Context {L : FsLib} {Laws : FsLibLaws L}.

(** A directory [p / name / ""] and two entries under another name. *)
Lemma subdir_differs (p : string) :
  p // "fs" // "" <> p /\ p // "fs" // "" <> p // "cache" // "".
Proof.
  destruct (append_rootless p "fs" eq_refl) as [s1 [Hs1 E1]].
  destruct (append_rootless (p // "fs") "" eq_refl) as [s2 [Hs2 E2]].
  destruct (append_rootless p "cache" eq_refl) as [s3 [Hs3 E3]].
  destruct (append_rootless (p // "cache") "" eq_refl) as [s4 [Hs4 E4]].
  rewrite E2, E1, E4, E3.
  destruct Hs1 as [? | [? | ?]], Hs2 as [? | [? | ?]],
           Hs3 as [? | [? | ?]], Hs4 as [? | [? | ?]]; subst; split; differ.
Qed.

Lemma portable_fs_differs (b : string) :
  b // "portable" // "" // "fs" // "" <> b.
Proof.
  destruct (append_rootless b "portable" eq_refl) as [s1 [Hs1 E1]].
  destruct (append_rootless (b // "portable") "" eq_refl) as [s2 [Hs2 E2]].
  destruct (append_rootless (b // "portable" // "") "fs" eq_refl) as [s3 [Hs3 E3]].
  destruct (append_rootless (b // "portable" // "" // "fs") "" eq_refl) as [s4 [Hs4 E4]].
  rewrite E4, E3, E2, E1.
  destruct Hs1 as [? | [? | ?]], Hs2 as [? | [? | ?]],
           Hs3 as [? | [? | ?]], Hs4 as [? | [? | ?]]; subst; differ.
Qed.

Lemma android_vita_differs (s : string) :
  s // "vita/" <> s /\ s // "vita/" <> s // "cache" // "".
Proof.
  destruct (append_rootless s "vita/" eq_refl) as [s1 [Hs1 E1]].
  destruct (append_rootless s "cache" eq_refl) as [s3 [Hs3 E3]].
  destruct (append_rootless (s // "cache") "" eq_refl) as [s4 [Hs4 E4]].
  rewrite E1, E4, E3.
  destruct Hs1 as [? | [? | ?]], Hs3 as [? | [? | ?]], Hs4 as [? | [? | ?]];
    subst; split; differ.
Qed.

End PathLaws.

Lemma needs_sep_false_append (p q : string) :
  posix_append p q = p ++ q \/ posix_append p q = p ++ "/" ++ q.
Proof.
  unfold posix_append. destruct q as [| c q]; [left | ].
  - clear. induction p as [| x p IH]; simpl; [reflexivity | now rewrite <- IH].
  - destruct (_ || _); [left | right]; reflexivity.
Qed.

Lemma posix_fs_laws : FsLibLaws posix_fs.
Proof.
  constructor. intros p s _. simpl.
  destruct (needs_sep_false_append p s) as [H | H].
  - exists "". split; [now left | exact H].
  - exists "/". split; [right; now left | exact H].
Qed.

Section Resolver.

Context {L : FsLib}.
Variables org_name app_name : string.
Variable split_string : string -> ascii -> list string.

Lemma init_paths_portable (pf : Platform) (h : Host) (root_paths : Root) :
  is_android pf = false ->
  fs_is_directory (host_fs h) (portable_path_of pf (SDL_GetBasePath h)) = true ->
  fst (init_paths org_name app_name split_string pf h root_paths) =
    let portable := portable_path_of pf (SDL_GetBasePath h) in
    {| base_path := SDL_GetBasePath h;
       pref_path := portable // "fs" // "";
       log_path := portable;
       config_path := portable;
       shared_path := portable;
       cache_path := portable // "cache" // "";
       static_assets_path := SDL_GetBasePath h |}.
Proof.
  intros Hpf Hdir. unfold init_paths, init_paths_desktop.
  rewrite Hpf. cbn [fst]. rewrite Hdir. reflexivity.
Qed.

Lemma init_paths_android_roots (h : Host) (root_paths : Root) :
  fst (init_paths org_name app_name split_string Android h root_paths) =
    let storage_path := SDL_AndroidGetExternalStoragePath h // "" in
    {| base_path := storage_path;
       pref_path := storage_path // "vita/";
       log_path := storage_path;
       config_path := storage_path;
       shared_path := storage_path;
       cache_path := storage_path // "cache" // "";
       static_assets_path := storage_path |}.
Proof. reflexivity. Qed.

(** The Apple arm without portable directory, [config.yml] or [ux0]. *)
Lemma init_paths_apple_user (h : Host) (root_paths : Root) (legacy_ux0 : bool) :
  fs_is_directory (host_fs h) (portable_path_of Apple (SDL_GetBasePath h)) = false ->
  fs_exists (host_fs h) (SDL_GetBasePath h // "config.yml") = false ->
  fs_is_directory (host_fs h) (SDL_GetPrefPath h org_name app_name // "ux0") = legacy_ux0 ->
  fst (init_paths org_name app_name split_string Apple h root_paths) =
    let user := SDL_GetPrefPath h org_name app_name in
    {| base_path := SDL_GetBasePath h;
       pref_path := if legacy_ux0 then user else user // "fs" // "";
       log_path := user;
       config_path := user;
       shared_path := user;
       cache_path := user // "cache" // "";
       static_assets_path := SDL_GetBasePath h |}.
Proof.
  intros Hport Hcfg Hux0. unfold init_paths, init_paths_desktop, init_paths_user.
  cbn [is_android is_apple is_linux fst]. rewrite Hport, Hcfg, Hux0. reflexivity.
Qed.

(** C1, as the code has it: with a portable directory on a desktop
    platform, the preference path is [portable/fs], the log, config and
    shared paths are the portable directory and the cache path is
    [portable/cache]; the base and static-assets paths stay at the directory
    of the executable.  The environment is not consulted: replacing it
    changes neither the roots nor the directories that are created. *)
Theorem portable_roots (pf : Platform) (h : Host) (root_paths : Root) :
  pf <> Android ->
  fs_is_directory (host_fs h) (portable_path_of pf (SDL_GetBasePath h)) = true ->
  let portable := portable_path_of pf (SDL_GetBasePath h) in
  let r := fst (init_paths org_name app_name split_string pf h root_paths) in
  pref_path r = portable // "fs" // "" /\
  log_path r = portable /\ config_path r = portable /\ shared_path r = portable /\
  cache_path r = portable // "cache" // "" /\
  base_path r = SDL_GetBasePath h /\ static_assets_path r = SDL_GetBasePath h /\
  forall env,
    init_paths org_name app_name split_string pf (set_getenv h env) root_paths =
    init_paths org_name app_name split_string pf h root_paths.
Proof.
  intros Hpf Hdir portable r.
  assert (Hand : is_android pf = false) by (destruct pf; [congruence | | |]; reflexivity).
  subst r. rewrite (init_paths_portable pf h root_paths Hand Hdir). cbn.
  repeat split.
  intros env. unfold init_paths. rewrite Hand.
  assert (Heq : init_paths_desktop org_name app_name split_string pf (set_getenv h env) root_paths
                = init_paths_desktop org_name app_name split_string pf h root_paths).
  { unfold init_paths_desktop. cbn [SDL_GetBasePath host_fs set_getenv].
    rewrite Hdir. reflexivity. }
  rewrite Heq. reflexivity.
Qed.

(** C2, as the code has it: on Android, and with a portable directory on
    the desktop platforms other than Apple, the preference path differs from
    the six other roots; with a portable directory on Apple it differs from
    the log, config, cache and shared paths.  Without a portable directory on
    Apple, when no [config.yml] lies at the base path, the preference path
    differs from the log, config, cache and shared paths if the per-user
    directory has no [ux0] directory, and equals the log, config and shared
    paths if it has one. *)
Theorem pref_path_apart (Laws : FsLibLaws L) (h : Host) (root_paths : Root) :
  (let r := fst (init_paths org_name app_name split_string Android h root_paths) in
   pref_apart_from_user_roots r /\ pref_apart_from_install_roots r) /\
  (forall pf, pf <> Android ->
     fs_is_directory (host_fs h) (portable_path_of pf (SDL_GetBasePath h)) = true ->
     let r := fst (init_paths org_name app_name split_string pf h root_paths) in
     pref_apart_from_user_roots r /\
     (pf <> Apple -> pref_apart_from_install_roots r)) /\
  (fs_is_directory (host_fs h) (portable_path_of Apple (SDL_GetBasePath h)) = false ->
   fs_exists (host_fs h) (SDL_GetBasePath h // "config.yml") = false ->
   let r := fst (init_paths org_name app_name split_string Apple h root_paths) in
   (fs_is_directory (host_fs h) (SDL_GetPrefPath h org_name app_name // "ux0") = false ->
    pref_apart_from_user_roots r) /\
   (fs_is_directory (host_fs h) (SDL_GetPrefPath h org_name app_name // "ux0") = true ->
    pref_path r = log_path r /\ pref_path r = config_path r /\
    pref_path r = shared_path r)).
Proof.
  unfold pref_apart_from_user_roots, pref_apart_from_install_roots.
  split; [| split].
  - rewrite init_paths_android_roots. cbn.
    destruct (android_vita_differs (SDL_AndroidGetExternalStoragePath h // "")) as [H1 H2].
    repeat split; assumption.
  - intros pf Hpf Hdir.
    assert (Hand : is_android pf = false) by (destruct pf; [congruence | | |]; reflexivity).
    rewrite (init_paths_portable pf h root_paths Hand Hdir). cbn.
    destruct (subdir_differs (portable_path_of pf (SDL_GetBasePath h))) as [H1 H2].
    repeat split; try assumption;
      destruct pf; try congruence; cbn; apply portable_fs_differs.
  - intros Hport Hcfg. cbn zeta. split; intros Hux0.
    + rewrite (init_paths_apple_user h root_paths false Hport Hcfg Hux0). cbn.
      destruct (subdir_differs (SDL_GetPrefPath h org_name app_name)) as [H1 H2].
      repeat split; assumption.
    + rewrite (init_paths_apple_user h root_paths true Hport Hcfg Hux0). cbn.
      repeat split.
Qed.

End Resolver.

Lemma portable_roots_witness :
  let r := fst (init_paths (L := posix_fs) "Vita3K" "Vita3K" sample_split_string
                  Linux portable_host empty_root) in
  pref_path r = "/opt/vita3k/portable/fs" /\
  log_path r = "/opt/vita3k/portable" /\
  cache_path r = "/opt/vita3k/portable/cache" /\
  base_path r = "/opt/vita3k/".
Proof.
  pose proof (portable_roots (L := posix_fs) "Vita3K" "Vita3K" sample_split_string
                Linux portable_host empty_root) as H.
  cbv zeta in H. specialize (H ltac:(discriminate) eq_refl).
  destruct H as (Hpref & Hlog & _ & _ & Hcache & Hbase & _).
  repeat split; assumption.
Defined.

(** C1 as stated fails: with a portable directory, the base and
    static-assets paths are the directory of the executable, which is not
    under the portable directory, and the cache path is a subdirectory of
    the portable directory. *)
Lemma portable_roots_counterexample :
  let portable := "/opt/vita3k/portable" in
  let r := fst (init_paths (L := posix_fs) "Vita3K" "Vita3K" sample_split_string
                  Linux portable_host empty_root) in
  fs_is_directory (host_fs portable_host)
    (portable_path_of (L := posix_fs) Linux (SDL_GetBasePath portable_host)) = true /\
  portable_path_of (L := posix_fs) Linux (SDL_GetBasePath portable_host) = portable /\
  base_path r = "/opt/vita3k/" /\ prefix portable (base_path r) = false /\
  static_assets_path r = "/opt/vita3k/" /\
  prefix portable (static_assets_path r) = false /\
  cache_path r <> portable /\
  ~ (base_path r = portable /\ static_assets_path r = portable /\
     log_path r = portable /\ config_path r = portable /\
     cache_path r = portable /\ shared_path r = portable).
Proof.
  cbv zeta. repeat split; try reflexivity.
  - discriminate.
  - intros [H _]. discriminate H.
Qed.

Lemma pref_path_apart_witness :
  pref_apart_from_user_roots
    (fst (init_paths (L := posix_fs) "Vita3K" "Vita3K" sample_split_string
            Android android_host empty_root)) /\
  pref_apart_from_user_roots
    (fst (init_paths (L := posix_fs) "Vita3K" "Vita3K" sample_split_string
            Linux portable_host empty_root)) /\
  pref_path (fst (init_paths (L := posix_fs) "Vita3K" "Vita3K" sample_split_string
                    Apple legacy_apple_host empty_root)) =
  log_path (fst (init_paths (L := posix_fs) "Vita3K" "Vita3K" sample_split_string
                   Apple legacy_apple_host empty_root)).
Proof.
  split; [| split].
  - exact (proj1 (proj1 (pref_path_apart (L := posix_fs) "Vita3K" "Vita3K"
             sample_split_string posix_fs_laws android_host empty_root))).
  - refine (proj1 (proj1 (proj2 (pref_path_apart (L := posix_fs) "Vita3K" "Vita3K"
             sample_split_string posix_fs_laws portable_host empty_root)) Linux _ eq_refl)).
    discriminate.
  - exact (proj1 (proj2 (proj2 (proj2 (pref_path_apart (L := posix_fs) "Vita3K" "Vita3K"
             sample_split_string posix_fs_laws legacy_apple_host empty_root))
             eq_refl eq_refl) eq_refl)).
Defined.

(** C2 as stated fails: on Apple, without portable directory and without
    [config.yml] at the base path, a [ux0] directory in the per-user
    directory makes the preference path equal to the log, config and shared
    paths. *)
Lemma pref_path_apart_counterexample :
  let r := fst (init_paths (L := posix_fs) "Vita3K" "Vita3K" sample_split_string
                  Apple legacy_apple_host empty_root) in
  pref_path r = "/Users/user/Library/Application Support/Vita3K/Vita3K/" /\
  pref_path r = log_path r /\ pref_path r = config_path r /\
  pref_path r = shared_path r /\
  ~ pref_apart_from_user_roots r.
Proof.
  cbv zeta. repeat split.
  intros [H _]. apply H. reflexivity.
Qed.

(** ** Single-precision rounding *)

Lemma digits2_pos_bounds (p : positive) :
  2 ^ (Zpos (digits2_pos p) - 1) <= Zpos p < 2 ^ Zpos (digits2_pos p).
Proof.
  induction p as [p IH | p IH |]; cbn [digits2_pos].
  - rewrite Pos2Z.inj_succ.
    replace (Z.succ (Zpos (digits2_pos p)) - 1) with (Z.succ (Zpos (digits2_pos p) - 1)) by lia.
    rewrite !Z.pow_succ_r by lia. lia.
  - rewrite Pos2Z.inj_succ.
    replace (Z.succ (Zpos (digits2_pos p)) - 1) with (Z.succ (Zpos (digits2_pos p) - 1)) by lia.
    rewrite !Z.pow_succ_r by lia. lia.
  - simpl. lia.
Qed.

Lemma digits2_pos_unique (p : positive) (d : Z) :
  2 ^ (d - 1) <= Zpos p < 2 ^ d -> Zpos (digits2_pos p) = d.
Proof.
  intros [Hlo Hhi]. pose proof (digits2_pos_bounds p) as [Blo Bhi].
  assert (Hd : 0 < d).
  { destruct d as [| d | d]; [simpl in Hhi; lia | lia | simpl in Hhi; lia]. }
  remember (Zpos (digits2_pos p)) as d' eqn:Ed.
  assert (0 < d') by lia.
  destruct (Z.lt_trichotomy d' d) as [Hlt | [Heq | Hgt]]; [| exact Heq |].
  - assert (2 ^ d' <= 2 ^ (d - 1)) by (apply Z.pow_le_mono_r; lia). lia.
  - assert (2 ^ d <= 2 ^ (d' - 1)) by (apply Z.pow_le_mono_r; lia). lia.
Qed.

Lemma shr_1_inv (N V : Z) (mrs : shr_record) :
  0 < V -> shr_inv N V mrs -> shr_inv N (2 * V) (shr_1 mrs).
Proof.
  intros HV [Hm [Hb Hs]]. destruct mrs as [m r s]. cbn [shr_m shr_r shr_s] in *.
  assert (Hs' : orb r s = false <-> (r = false /\ 2 * N = V * (2 * m + b2z r))).
  { destruct r, s; cbn [orb b2z] in *; intuition (try discriminate; try lia). }
  unfold shr_inv, shr_1.
  destruct m as [| [p | p |] | p]; try lia; cbn [shr_m shr_r shr_s b2z];
    (split; [lia |]);
    (split; [destruct r; cbn [b2z] in *; nia |]);
    rewrite Hs'; destruct r; cbn [b2z] in *;
    (split; [intros [? ?]; try discriminate; nia | intros ?; split; [try reflexivity; nia | nia]]).
Qed.

Lemma pow2_xO (p : positive) : 2 ^ Zpos p~0 = 2 ^ Zpos p * 2 ^ Zpos p.
Proof.
  replace (Zpos p~0) with (Zpos p + Zpos p) by lia.
  now rewrite Z.pow_add_r by lia.
Qed.

Lemma pow2_xI (p : positive) : 2 ^ Zpos p~1 = 2 * (2 ^ Zpos p * 2 ^ Zpos p).
Proof.
  replace (Zpos p~1) with (Z.succ (Zpos p~0)) by lia.
  rewrite Z.pow_succ_r by lia. now rewrite pow2_xO.
Qed.

Lemma iter_shr_1_inv (N : Z) (p : positive) :
  forall (V : Z) (mrs : shr_record),
    0 < V -> shr_inv N V mrs -> shr_inv N (V * 2 ^ Zpos p) (iter_pos shr_1 p mrs).
Proof.
  induction p as [p IH | p IH |]; intros V mrs HV Hinv; cbn [iter_pos].
  - pose proof (Z.pow_pos_nonneg 2 (Zpos p) ltac:(lia) ltac:(lia)) as Hpow.
    replace (V * 2 ^ Zpos p~1) with ((2 * V * 2 ^ Zpos p) * 2 ^ Zpos p)
      by (rewrite pow2_xI; ring).
    apply IH; [nia |]. apply IH; [lia |]. now apply shr_1_inv.
  - pose proof (Z.pow_pos_nonneg 2 (Zpos p) ltac:(lia) ltac:(lia)) as Hpow.
    replace (V * 2 ^ Zpos p~0) with ((V * 2 ^ Zpos p) * 2 ^ Zpos p)
      by (rewrite pow2_xO; ring).
    apply IH; [nia |]. now apply IH.
  - rewrite Z.pow_1_r, Z.mul_comm. now apply shr_1_inv.
Qed.

(** [n] right shifts, none when [n] is zero. *)
Lemma shr_inv_shift (N V : Z) (mrs : shr_record) (e n : Z) :
  0 < V -> 0 <= n -> shr_inv N V mrs ->
  shr_inv N (V * 2 ^ n) (fst (shr mrs e n)) /\ snd (shr mrs e n) = e + n.
Proof.
  intros HV Hn Hinv. destruct n as [| p | p]; [| | lia]; cbn [shr fst snd].
  - rewrite Z.mul_1_r. split; [exact Hinv | lia].
  - split; [now apply iter_shr_1_inv | reflexivity].
Qed.

(** Rounding to nearest even lands within half a unit. *)
Lemma round_nearest_even_inv (N V : Z) (mrs : shr_record) :
  0 < V -> shr_inv N V mrs ->
  let m := round_nearest_even (shr_m mrs) (loc_of_shr_record mrs) in
  shr_m mrs <= m <= shr_m mrs + 1 /\ Z.abs (2 * N - 2 * V * m) <= V.
Proof.
  intros HV [Hm [Hb Hs]]. destruct mrs as [m r s]. cbn [shr_m shr_r shr_s] in *.
  destruct r, s; cbn [loc_of_shr_record round_nearest_even b2z] in *;
    try destruct (Z.even m); split; try lia.
Qed.

Lemma shr_record_of_loc_m (m : Z) (l : location) : shr_m (shr_record_of_loc m l) = m.
Proof. destruct l as [| []]; reflexivity. Qed.

Lemma Zdigits2_unique (m d : Z) :
  2 ^ (d - 1) <= m < 2 ^ d -> 0 < m -> Zdigits2 m = d.
Proof.
  intros Hb Hm. destruct m as [| p | p]; try lia. simpl. now apply digits2_pos_unique.
Qed.

Lemma fexp32_normal (x : Z) : -149 <= x - 24 -> fexp 24 128 x = x - 24.
Proof. intros H. unfold fexp, emin. lia. Qed.

Lemma binary_round_aux_normal (s : bool) (N V : Z) (m : positive) (e n : Z) (l : location) :
  0 < V -> 0 <= n -> Zpos (digits2_pos m) = 24 + n ->
  -149 <= e + n -> e + n + 1 <= 104 ->
  shr_inv N V (shr_record_of_loc (Zpos m) l) ->
  exists m' e',
    binary_round_aux 24 128 s (Zpos m) e l = S754_finite s m' e' /\
    2 ^ 23 <= Zpos m' < 2 ^ 24 /\
    (e' = e + n \/ (e' = e + n + 1 /\ Zpos m' = 2 ^ 23)) /\
    Z.abs (2 * N - 2 * (V * 2 ^ (e' - e)) * Zpos m') <= V * 2 ^ n.
Proof.
  intros HV Hn Hd Hlo Hhi Hinv.
  pose proof (digits2_pos_bounds m) as Hm. rewrite Hd in Hm.
  replace (24 + n - 1) with (n + 23) in Hm by lia.
  rewrite !Z.pow_add_r in Hm by lia.
  pose proof (Z.pow_pos_nonneg 2 n ltac:(lia) Hn) as Hpow.
  set (T := 2 ^ n) in *.
  unfold binary_round_aux, shr_fexp.
  cbn [Zdigits2]. rewrite Hd.
  rewrite fexp32_normal by lia.
  replace (24 + n + e - 24 - e) with n by lia.
  destruct (shr_inv_shift N V (shr_record_of_loc (Zpos m) l) e n HV Hn Hinv) as [Hinv1 He1].
  fold T in Hinv1.
  destruct (shr (shr_record_of_loc (Zpos m) l) e n) as [mrs1 e1].
  cbn [fst snd] in Hinv1, He1. subst e1.
  assert (HV1 : 0 < V * T) by nia.
  destruct (round_nearest_even_inv N (V * T) mrs1 HV1 Hinv1) as [Hr1 Hr2].
  set (m1 := round_nearest_even (shr_m mrs1) (loc_of_shr_record mrs1)) in *.
  assert (HN : V * T * 2 ^ 23 <= N < V * T * 2 ^ 24).
  { destruct Hinv as [_ [Hb _]]. rewrite shr_record_of_loc_m in Hb.
    destruct (shr_r _); cbn [b2z] in Hb; nia. }
  assert (Hm1 : 2 ^ 23 <= shr_m mrs1 < 2 ^ 24).
  { destruct Hinv1 as [_ [Hb _]]. destruct (shr_r mrs1); cbn [b2z] in Hb; nia. }
  assert (Hm1' : 2 ^ 23 <= m1 <= 2 ^ 24) by lia.
  destruct (Z.eq_dec m1 (2 ^ 24)) as [Heq | Hne].
  - rewrite Heq in *. exists (2 ^ 23)%positive, (e + n + 1).
    replace (Zdigits2 (2 ^ 24)) with 25 by reflexivity.
    rewrite fexp32_normal by lia.
    replace (25 + (e + n) - 24 - (e + n)) with 1 by lia.
    cbn [shr_record_of_loc shr iter_pos shr_1 shr_m].
    replace (2 ^ 24) with (Zpos (xO (2 ^ 23)%positive)) by reflexivity.
    cbn [shr shr_1 iter_pos shr_m].
    replace (128 - 24) with 104 by reflexivity.
    destruct (Z.leb_spec (e + n + 1) 104); [| lia].
    split; [reflexivity |]. split; [simpl; lia |]. split; [right; split; [lia | reflexivity] |].
    replace (e + n + 1 - e) with (n + 1) by lia.
    rewrite Z.pow_add_r by lia. fold T.
    replace (2 * (V * (T * 2 ^ 1)) * Z.pos (2 ^ 23)) with (2 * (V * T) * 2 ^ 24)
      by (change (Z.pos (2 ^ 23)) with 8388608; change (2 ^ 24) with 16777216;
          change (2 ^ 1) with 2; ring).
    exact Hr2.
  - assert (Hd1 : Zdigits2 m1 = 24) by (apply Zdigits2_unique; simpl; lia).
    rewrite Hd1. rewrite fexp32_normal by lia.
    replace (24 + (e + n) - 24 - (e + n)) with 0 by lia.
    cbn [shr_record_of_loc shr shr_m].
    destruct m1 as [| p1 | p1]; try (simpl in Hm1'; lia).
    exists p1, (e + n).
    replace (128 - 24) with 104 by reflexivity.
    destruct (Z.leb_spec (e + n) 104); [| lia].
    split; [reflexivity |]. split; [lia |]. split; [left; reflexivity |].
    replace (e + n - e) with n by lia. fold T. exact Hr2.
Qed.

Lemma pos_iter_xO (p k : positive) : Zpos (Pos.iter xO p k) = Zpos p * 2 ^ Zpos k.
Proof.
  induction k as [| k IH] using Pos.peano_ind.
  - simpl. lia.
  - rewrite Pos.iter_succ, Pos2Z.inj_xO, IH, Pos2Z.inj_succ, Z.pow_succ_r by lia. ring.
Qed.

Lemma shr_inv_exact (m : Z) : 0 <= m -> shr_inv m 1 (shr_record_of_loc m loc_Exact).
Proof.
  intros Hm. unfold shr_inv. cbn [shr_record_of_loc shr_m shr_r shr_s b2z].
  repeat split; lia.
Qed.

(** The conversion of a non-zero 32-bit integer is a normal number. *)
Lemma binary_round_int (s : bool) (m : positive) :
  Zpos m < 2 ^ 32 ->
  exists m' e',
    binary_round 24 128 s m 0 = S754_finite s m' e' /\
    2 ^ 23 <= Zpos m' < 2 ^ 24 /\ -23 <= e' <= 9.
Proof.
  intros Hm. pose proof (digits2_pos_bounds m) as Hd.
  set (d := Zpos (digits2_pos m)) in *.
  assert (Hd1 : 1 <= d <= 32).
  { split; [subst d; lia |].
    destruct (Z.le_gt_cases d 32) as [H | H]; [exact H |].
    assert (2 ^ 32 <= 2 ^ (d - 1)) by (apply Z.pow_le_mono_r; lia). lia. }
  unfold binary_round. fold d. rewrite Z.add_0_r, fexp32_normal by lia.
  unfold shl_align. rewrite Z.sub_0_r.
  destruct (d - 24) as [| k | k] eqn:Ek.
  - destruct (binary_round_aux_normal s (Zpos m) 1 m 0 0 loc_Exact)
      as (m' & e' & Heq & Hb & He & _); try lia.
    { apply shr_inv_exact. lia. }
    exists m', e'. rewrite Heq. repeat split; try lia.
  - destruct (binary_round_aux_normal s (Zpos m) 1 m 0 (Zpos k) loc_Exact)
      as (m' & e' & Heq & Hb & He & _); try lia.
    { apply shr_inv_exact. lia. }
    exists m', e'. rewrite Heq. repeat split; try lia.
  - assert (Hsh : Zpos (digits2_pos (Pos.iter xO m k)) = 24 + 0).
    { apply digits2_pos_unique. rewrite pos_iter_xO.
      replace (24 + 0 - 1) with ((d - 1) + Zpos k) by lia.
      replace (24 + 0) with (d + Zpos k) by lia.
      rewrite !Z.pow_add_r by lia.
      pose proof (Z.pow_pos_nonneg 2 (Zpos k) ltac:(lia) ltac:(lia)). nia. }
    destruct (binary_round_aux_normal s (Zpos (Pos.iter xO m k)) 1 (Pos.iter xO m k)
                (Zneg k) 0 loc_Exact) as (m' & e' & Heq & Hb & He & _); try lia.
    { apply shr_inv_exact. lia. }
    exists m', e'. rewrite Heq. repeat split; try lia.
Qed.

Lemma float_of_int_normal (n : Z) :
  n <> 0 -> - 2 ^ 31 <= n < 2 ^ 31 ->
  exists m e,
    float_of_int n = S754_finite (n <? 0) m e /\
    2 ^ 23 <= Zpos m < 2 ^ 24 /\ -23 <= e <= 9.
Proof.
  intros Hn Hr. unfold float_of_int, binary_normalize.
  destruct n as [| p | p]; [congruence | |];
    apply binary_round_int; change (2 ^ 32) with 4294967296;
    change (2 ^ 31) with 2147483648 in Hr; lia.
Qed.

Lemma vita_aspect_value : vita_aspect = S754_finite false 14803426 (-23).
Proof. reflexivity. Qed.

Lemma keeps_aspect_rel (s : bool) (mx my : positive) (ex ey kx ky : Z) :
  ex - Z.min ex ey = kx -> ey - Z.min ex ey = ky ->
  Z.abs (DEFAULT_RES_HEIGHT * (Zpos mx * 2 ^ kx) - DEFAULT_RES_WIDTH * (Zpos my * 2 ^ ky))
    * 2 ^ 23 <= DEFAULT_RES_WIDTH * (Zpos my * 2 ^ ky) ->
  keeps_aspect {| vx := S754_finite s mx ex; vy := S754_finite s my ey |} = true.
Proof.
  intros Hx Hy Hle. unfold keeps_aspect. cbn [vx vy].
  rewrite Bool.eqb_reflx. cbn [andb]. rewrite Hx, Hy. now apply Z.leb_le.
Qed.

(** The location of a quotient, from the remainder of the division. *)
Lemma new_location_inv (M D q r : Z) :
  0 < D -> 0 <= q -> 0 <= r < D -> M = D * q + r ->
  shr_inv M D (shr_record_of_loc q (new_location D r)).
Proof.
  intros HD Hq Hr HM. unfold new_location, new_location_even, new_location_odd.
  destruct (Z.even D) eqn:Ev.
  - destruct (Z.eqb_spec r 0) as [Hz | Hz].
    + unfold shr_inv; cbn [shr_record_of_loc shr_m shr_r shr_s b2z]. repeat split; lia.
    + destruct (Z.compare_spec (2 * r) D); unfold shr_inv;
        cbn [shr_record_of_loc shr_m shr_r shr_s b2z];
        repeat split; try lia; intros; try discriminate; try lia.
  - assert (Hodd : Z.odd D = true) by (rewrite <- Z.negb_even, Ev; reflexivity).
    apply Z.odd_spec in Hodd. destruct Hodd as [k Hk].
    destruct (Z.eqb_spec r 0) as [Hz | Hz].
    + unfold shr_inv; cbn [shr_record_of_loc shr_m shr_r shr_s b2z]. repeat split; lia.
    + destruct (Z.compare_spec (2 * r + 1) D); unfold shr_inv;
        cbn [shr_record_of_loc shr_m shr_r shr_s b2z];
        repeat split; try lia; intros; try discriminate; try lia.
Qed.

Ltac pow2_consts :=
  change (2 ^ 0) with 1 in *; change (2 ^ 1) with 2 in *; change (2 ^ 2) with 4 in *;
  change (2 ^ 23) with 8388608 in *; change (2 ^ 24) with 16777216 in *;
  change (2 ^ 25) with 33554432 in *;
  change (2 ^ 46) with 70368744177664 in *;
  change (2 ^ 47) with 140737488355328 in *;
  change (2 ^ 48) with 281474976710656 in *.

(** Height pinned: the width is the height times the reference ratio. *)
Lemma wide_keeps_aspect (s : bool) (m : positive) (e : Z) :
  2 ^ 23 <= Zpos m < 2 ^ 24 -> -23 <= e <= 9 ->
  keeps_aspect {| vx := fmul (S754_finite s m e) vita_aspect;
                  vy := S754_finite s m e |} = true.
Proof.
  intros Hm He. rewrite vita_aspect_value. unfold fmul, SFmul, prec32, emax32.
  rewrite Bool.xorb_false_r.
  pose proof (Pos2Z.inj_mul m 14803426) as HP.
  set (P := (m * 14803426)%positive) in *.
  pow2_consts.
  destruct (Z_lt_le_dec (Zpos P) (2 ^ 47)) as [Hlt | Hge]; pow2_consts.
  - destruct (binary_round_aux_normal s (Zpos P) 1 P (e + -23) 23 loc_Exact)
      as (m' & e' & Heq & Hb & He' & Habs); try lia.
    { apply digits2_pos_unique. change (24 + 23 - 1) with 46. change (24 + 23) with 47.
      pow2_consts. lia. }
    { apply shr_inv_exact. lia. }
    rewrite Heq. pow2_consts.
    destruct He' as [He' | [He' Hm']]; subst e'.
    + replace (e + -23 + 23 - (e + -23)) with 23 in Habs by lia. pow2_consts.
      apply (keeps_aspect_rel _ _ _ _ _ 0 0); [lia | lia |].
      unfold DEFAULT_RES_HEIGHT, DEFAULT_RES_WIDTH. pow2_consts. lia.
    + replace (e + -23 + 23 + 1 - (e + -23)) with 24 in Habs by lia. pow2_consts.
      apply (keeps_aspect_rel _ _ _ _ _ 1 0); [lia | lia |].
      unfold DEFAULT_RES_HEIGHT, DEFAULT_RES_WIDTH. pow2_consts. lia.
  - destruct (binary_round_aux_normal s (Zpos P) 1 P (e + -23) 24 loc_Exact)
      as (m' & e' & Heq & Hb & He' & Habs); try lia.
    { apply digits2_pos_unique. change (24 + 24 - 1) with 47. change (24 + 24) with 48.
      pow2_consts. lia. }
    { apply shr_inv_exact. lia. }
    rewrite Heq. pow2_consts.
    destruct He' as [He' | [He' Hm']]; subst e'.
    + replace (e + -23 + 24 - (e + -23)) with 24 in Habs by lia. pow2_consts.
      apply (keeps_aspect_rel _ _ _ _ _ 1 0); [lia | lia |].
      unfold DEFAULT_RES_HEIGHT, DEFAULT_RES_WIDTH. pow2_consts. lia.
    + replace (e + -23 + 24 + 1 - (e + -23)) with 25 in Habs by lia. pow2_consts.
      apply (keeps_aspect_rel _ _ _ _ _ 2 0); [lia | lia |].
      unfold DEFAULT_RES_HEIGHT, DEFAULT_RES_WIDTH. pow2_consts. lia.
Qed.

Lemma div_core_aspect (m : positive) (e : Z) :
  2 ^ 23 <= Zpos m < 2 ^ 24 -> -23 <= e <= 9 ->
  SFdiv_core_binary 24 128 (Zpos m) e 14803426 (-23) =
    (Zpos m * 2 ^ 24 / 14803426, e - 1,
     new_location 14803426 ((Zpos m * 2 ^ 24) mod 14803426)).
Proof.
  intros Hm He. unfold SFdiv_core_binary. cbn [Zdigits2].
  rewrite (digits2_pos_unique m 24) by (pow2_consts; lia).
  change (Zpos (digits2_pos 14803426)) with 24.
  replace (24 + e - (24 + -23)) with (e + 23) by lia.
  rewrite fexp32_normal by lia.
  rewrite Z.min_l by lia.
  replace (e - -23 - (e + 23 - 24)) with 24 by lia.
  rewrite Z.shiftl_mul_pow2 by lia.
  unfold Z.div, Z.modulo.
  destruct (Z.div_eucl (Zpos m * 2 ^ 24) 14803426) as [q r].
  f_equal. f_equal. lia.
Qed.

(** Width pinned: the height is the width divided by the reference ratio. *)
Lemma tall_keeps_aspect (s : bool) (m : positive) (e : Z) :
  2 ^ 23 <= Zpos m < 2 ^ 24 -> -23 <= e <= 9 ->
  keeps_aspect {| vx := S754_finite s m e;
                  vy := fdiv (S754_finite s m e) vita_aspect |} = true.
Proof.
  intros Hm He. rewrite vita_aspect_value. unfold fdiv, SFdiv, prec32, emax32.
  rewrite Bool.xorb_false_r, (div_core_aspect m e Hm He).
  pose proof (Z.div_mod (Zpos m * 2 ^ 24) 14803426 ltac:(lia)) as Hdiv.
  pose proof (Z.mod_pos_bound (Zpos m * 2 ^ 24) 14803426 ltac:(lia)) as Hmod.
  set (q := Zpos m * 2 ^ 24 / 14803426) in *.
  set (r := (Zpos m * 2 ^ 24) mod 14803426) in *.
  pow2_consts.
  assert (Hq : 2 ^ 23 <= q < 2 ^ 25) by (pow2_consts; lia).
  destruct q as [| q | q]; try (pow2_consts; lia).
  assert (Hinv : shr_inv (Zpos m * 2 ^ 24) 14803426
                   (shr_record_of_loc (Zpos q) (new_location 14803426 r)))
    by (apply new_location_inv; pow2_consts; lia).
  pow2_consts.
  destruct (Z_lt_le_dec (Zpos q) (2 ^ 24)) as [Hlt | Hge]; pow2_consts.
  - destruct (binary_round_aux_normal s (Zpos m * 16777216) 14803426 q (e - 1) 0
                (new_location 14803426 r) ltac:(lia) ltac:(lia)
                (digits2_pos_unique q (24 + 0) ltac:(change (2 ^ (24 + 0 - 1)) with 8388608; change (2 ^ (24 + 0)) with 16777216; lia))
                ltac:(lia) ltac:(lia) Hinv)
      as (m' & e' & Heq & Hb & He' & Habs).
    rewrite Heq. pow2_consts.
    destruct He' as [He' | [He' Hm']]; subst e'.
    + replace (e - 1 + 0 - (e - 1)) with 0 in Habs by lia. pow2_consts.
      apply (keeps_aspect_rel _ _ _ _ _ 1 0); [lia | lia |].
      unfold DEFAULT_RES_HEIGHT, DEFAULT_RES_WIDTH. pow2_consts. lia.
    + replace (e - 1 + 0 + 1 - (e - 1)) with 1 in Habs by lia. pow2_consts.
      apply (keeps_aspect_rel _ _ _ _ _ 0 0); [lia | lia |].
      unfold DEFAULT_RES_HEIGHT, DEFAULT_RES_WIDTH. pow2_consts. lia.
  - destruct (binary_round_aux_normal s (Zpos m * 16777216) 14803426 q (e - 1) 1
                (new_location 14803426 r) ltac:(lia) ltac:(lia)
                (digits2_pos_unique q (24 + 1) ltac:(change (2 ^ (24 + 1 - 1)) with 16777216; change (2 ^ (24 + 1)) with 33554432; lia))
                ltac:(lia) ltac:(lia) Hinv)
      as (m' & e' & Heq & Hb & He' & Habs).
    rewrite Heq. pow2_consts.
    destruct He' as [He' | [He' Hm']]; subst e'.
    + replace (e - 1 + 1 - (e - 1)) with 1 in Habs by lia. pow2_consts.
      apply (keeps_aspect_rel _ _ _ _ _ 0 0); [lia | lia |].
      unfold DEFAULT_RES_HEIGHT, DEFAULT_RES_WIDTH. pow2_consts. lia.
    + replace (e - 1 + 1 + 1 - (e - 1)) with 2 in Habs by lia. pow2_consts.
      apply (keeps_aspect_rel _ _ _ _ _ 0 1); [lia | lia |].
      unfold DEFAULT_RES_HEIGHT, DEFAULT_RES_WIDTH. pow2_consts. lia.
Qed.

(** ** The viewport that keeps the aspect ratio *)

Lemma update_viewport_view (state : EmuEnvState) (t : list Event) :
  view (fst (update_viewport state t)) =
    let wh := fst (get_drawable_size state t) in
    let v := viewport_of (fst wh) (snd wh) (cfg_stretch_the_display_area (cfg state)) in
    {| drawable_size := wh; viewport_pos := fst v; viewport_size := snd v |}.
Proof.
  unfold update_viewport, bind.
  destruct (get_drawable_size state t) as [[w h] t']. cbn [fst snd].
  destruct (viewport_of w h _) as [pos size]. reflexivity.
Qed.

Lemma viewport_of_keeps_aspect (w h : Z) :
  - 2 ^ 31 <= w < 2 ^ 31 -> 0 < h < 2 ^ 31 -> w <> 0 ->
  keeps_aspect (snd (viewport_of w h false)) = true.
Proof.
  intros Hw Hh Hw0. unfold viewport_of.
  destruct (Z.ltb_spec 0 h) as [_ | ?]; [| lia].
  destruct (fgt _ _); cbn [snd].
  - destruct (float_of_int_normal h) as (m & e & Heq & Hm & He); [lia | lia |].
    rewrite Heq. now apply wide_keeps_aspect.
  - destruct (float_of_int_normal w) as (m & e & Heq & Hm & He); [lia | lia |].
    rewrite Heq. now apply tall_keeps_aspect.
Qed.

(** C3, as the code has it: for a drawable size of 32-bit integers with a
    positive height, without stretching, the viewport is the one the two
    formulas give, in single-precision arithmetic: when the ratio of the
    window exceeds the reference ratio, the height is the drawable height,
    the width is the height times the reference ratio and the viewport is
    centred horizontally; otherwise the width is the drawable width, the
    height is the width divided by the reference ratio and the viewport is
    centred vertically.  When the drawable width is not zero, the ratio of
    the width to the height of the viewport is the reference ratio up to a
    relative error of 2^-23. *)
Theorem update_viewport_keeps_aspect (state : EmuEnvState) (t : list Event) :
  let state' := fst (update_viewport state t) in
  let w := fst (drawable_size (view state')) in
  let h := snd (drawable_size (view state')) in
  cfg_stretch_the_display_area (cfg state) = false ->
  - 2 ^ 31 <= w < 2 ^ 31 -> 0 < h < 2 ^ 31 ->
  (viewport_pos (view state'), viewport_size (view state')) =
    (if fgt (fdiv (float_of_int w) (float_of_int h)) vita_aspect then
       ({| vx := fdiv (fsub (float_of_int w) (fmul (float_of_int h) vita_aspect))
                   (float_of_int 2);
           vy := fzero |},
        {| vx := fmul (float_of_int h) vita_aspect; vy := float_of_int h |})
     else
       ({| vx := fzero;
           vy := fdiv (fsub (float_of_int h) (fdiv (float_of_int w) vita_aspect))
                   (float_of_int 2) |},
        {| vx := float_of_int w; vy := fdiv (float_of_int w) vita_aspect |})) /\
  (w <> 0 -> keeps_aspect (viewport_size (view state')) = true).
Proof.
  intros state' w h Hstretch Hw Hh. subst state' w h.
  rewrite update_viewport_view in *. cbn [drawable_size viewport_pos viewport_size] in *.
  rewrite Hstretch.
  destruct (fst (get_drawable_size state t)) as [w h]. cbn [fst snd] in *.
  split.
  - unfold viewport_of. destruct (Z.ltb_spec 0 h) as [_ | ?]; [| lia].
    destruct (fgt _ _); reflexivity.
  - intros Hw0. now apply viewport_of_keeps_aspect.
Qed.

Lemma update_viewport_keeps_aspect_witness :
  keeps_aspect
    (viewport_size (view (fst (update_viewport (sample_state "Vulkan" (Some sample_window)) []))))
  = true.
Proof.
  apply (update_viewport_keeps_aspect (sample_state "Vulkan" (Some sample_window)) []);
    [reflexivity | cbn; lia | cbn; lia | cbn; lia].
Defined.

(** C3 as stated fails: a window of width 0 and height 600 gets a viewport
    of width 0 and height 0, which has no aspect ratio. *)
Lemma update_viewport_keeps_aspect_counterexample :
  let state :=
    sample_state "Vulkan"
      (Some {| gl_drawable_size := (0, 600); vulkan_drawable_size := (0, 600) |}) in
  let state' := fst (update_viewport state []) in
  cfg_stretch_the_display_area (cfg state) = false /\
  drawable_size (view state') = (0, 600) /\
  viewport_size (view state') = zero2 /\
  keeps_aspect (viewport_size (view state')) = false.
Proof.
  cbv zeta. repeat split.
Qed.

(** * Further properties of the code *)

(** ** The driver loader, call by call *)

Section DriverCalls.

Context {L : FsLib}.
Variable h : AndroidHost.
Variable driver_name : string.

Let driver_path := driver_path_of h driver_name.
Let manifest := driver_path // "driver_name.txt".
Let temp_dir :=
  if SDL_GetAndroidSDKVersion h <? 29 then Some (driver_path // "tmp/") else None.
Let lib_dir := nativeLibraryDir h // "/".
Let file_redirect := driver_path // "file_redirect/".
Let handle :=
  adrenotools_open_libvulkan h temp_dir lib_dir driver_path (read_word h manifest)
    file_redirect.

(** The calls up to the opening of the driver, once the manifest is found. *)
Lemma load_custom_driver_opens :
  fs_exists (android_fs h) driver_path = true ->
  fs_exists (android_fs h) manifest = true ->
  exists r post,
    run_eff (load_custom_driver h driver_name) =
      (r,
       (EvReadFile manifest ::
        (if SDL_GetAndroidSDKVersion h <? 29
         then [EvCreateDirectory (driver_path // "tmp/")] else []) ++
        [EvQueryNativeLibraryDir;
         EvCreateDirectory (driver_path // "file_redirect");
         EvOpenLibvulkan temp_dir lib_dir driver_path (read_word h manifest)
           file_redirect] ++ post)%list) /\
    (r, post) =
      if handle =? 0
      then (false, [EvLog LOG_ERROR "Could not open handle for custom driver {}"])
      else if SDL_Vulkan_LoadLibrary h driver_magic handle <? 0
           then (false, [EvVulkanLoadLibrary driver_magic handle;
                         EvLog LOG_ERROR "Could not load custom diver, error {}"])
           else (true, [EvVulkanLoadLibrary driver_magic handle]).
Proof.
  intros Hdir Hman. unfold run_eff, load_custom_driver.
  fold driver_path. rewrite Hdir. cbn [negb]. fold manifest. rewrite Hman. cbn [negb].
  subst handle temp_dir.
  unfold bind, emit, ret.
  destruct (SDL_GetAndroidSDKVersion h <? 29); cbn [app];
    fold lib_dir; fold file_redirect;
    destruct (_ =? 0); cbn [app];
      [ | destruct (_ <? 0); cbn [app] | | destruct (_ <? 0); cbn [app] ];
    eexists; eexists; split; reflexivity.
Qed.

(** X1: [load_custom_driver] succeeds exactly when the directory of the
    driver and its manifest exist, [adrenotools_open_libvulkan] returns a
    handle that is not null and [SDL_Vulkan_LoadLibrary] does not return a
    negative value. *)
Theorem load_custom_driver_success :
  fst (run_eff (load_custom_driver h driver_name)) =
    fs_exists (android_fs h) driver_path
    && fs_exists (android_fs h) manifest
    && negb (handle =? 0)
    && negb (SDL_Vulkan_LoadLibrary h driver_magic handle <? 0).
Proof.
  destruct (fs_exists (android_fs h) driver_path) eqn:Hdir.
  - destruct (fs_exists (android_fs h) manifest) eqn:Hman.
    + destruct (load_custom_driver_opens Hdir Hman) as (r & post & Hrun & Hr).
      rewrite Hrun. cbn [fst andb].
      destruct (handle =? 0); [injection Hr as -> _; reflexivity |].
      destruct (_ <? 0); injection Hr as -> _; reflexivity.
    + unfold run_eff, load_custom_driver. fold driver_path. rewrite Hdir.
      cbn [negb]. fold manifest. rewrite Hman. reflexivity.
  - unfold run_eff, load_custom_driver. fold driver_path. rewrite Hdir. reflexivity.
Qed.

(** X2: when the directory of the driver does not exist,
    [load_custom_driver] fails after logging that the driver is not found:
    no file is read, no directory is created and no library is opened. *)
Theorem load_custom_driver_not_found :
  fs_exists (android_fs h) driver_path = false ->
  run_eff (load_custom_driver h driver_name) =
    (false, [EvLog LOG_ERROR "Could not find driver {}"]) /\
  forallb (fun e => negb (is_driver_call e))
    (snd (run_eff (load_custom_driver h driver_name))) = true.
Proof.
  intros Hdir.
  assert (Hrun : run_eff (load_custom_driver h driver_name) =
                 (false, [EvLog LOG_ERROR "Could not find driver {}"])).
  { unfold run_eff, load_custom_driver. fold driver_path. rewrite Hdir. reflexivity. }
  rewrite Hrun. split; reflexivity.
Qed.

(** X3: once the manifest is found, the driver is opened after the manifest
    is read, the library directory is queried and the [file_redirect]
    directory is created, in this order.  Below SDK version 29 a [tmp]
    directory is created first and handed to the driver; from version 29 on
    no such directory is created and the driver receives no temporary
    directory. *)
Theorem load_custom_driver_call_order :
  fs_exists (android_fs h) driver_path = true ->
  fs_exists (android_fs h) manifest = true ->
  exists post,
    snd (run_eff (load_custom_driver h driver_name)) =
      (EvReadFile manifest ::
       (if SDL_GetAndroidSDKVersion h <? 29
        then [EvCreateDirectory (driver_path // "tmp/")] else []) ++
       [EvQueryNativeLibraryDir;
        EvCreateDirectory (driver_path // "file_redirect");
        EvOpenLibvulkan
          (if SDL_GetAndroidSDKVersion h <? 29 then Some (driver_path // "tmp/") else None)
          lib_dir driver_path (read_word h manifest) file_redirect] ++ post)%list /\
    forallb (fun e => match e with
                      | EvCreateDirectory _ | EvOpenLibvulkan _ _ _ _ _
                      | EvReadFile _ | EvQueryNativeLibraryDir => false
                      | _ => true
                      end) post = true.
Proof.
  intros Hdir Hman.
  destruct (load_custom_driver_opens Hdir Hman) as (r & post & Hrun & Hr).
  exists post. rewrite Hrun. split; [reflexivity |].
  destruct (handle =? 0); [injection Hr as _ ->; reflexivity |].
  destruct (_ <? 0); injection Hr as _ ->; reflexivity.
Qed.

(** X4: the handshake with the windowing layer passes the magic number
    [0xFEEDC0DE] and the handle that [adrenotools_open_libvulkan] returned,
    which is not null; when the driver cannot be opened, no handshake is
    attempted. *)
Theorem load_custom_driver_handshake (magic hd : Z) :
  In (EvVulkanLoadLibrary magic hd) (snd (run_eff (load_custom_driver h driver_name))) ->
  magic = 4276994270 /\ hd = handle /\ hd <> 0 /\
  fs_exists (android_fs h) driver_path = true /\
  fs_exists (android_fs h) manifest = true.
Proof.
  intros Hin.
  destruct (fs_exists (android_fs h) driver_path) eqn:Hdir.
  - destruct (fs_exists (android_fs h) manifest) eqn:Hman.
    + destruct (load_custom_driver_opens Hdir Hman) as (r & post & Hrun & Hr).
      rewrite Hrun in Hin. cbn [snd] in Hin.
      assert (Hpost : In (EvVulkanLoadLibrary magic hd) post).
      { destruct Hin as [Hin | Hin]; [discriminate Hin |].
        apply in_app_or in Hin. destruct Hin as [Hin | Hin].
        - destruct (_ <? 29); simpl in Hin; intuition discriminate.
        - apply in_app_or in Hin. destruct Hin as [Hin | Hin]; [| exact Hin].
          simpl in Hin. intuition discriminate. }
      destruct (Z.eqb_spec handle 0) as [Hz | Hnz].
      * injection Hr as _ ->. simpl in Hpost. intuition discriminate.
      * destruct (_ <? 0); injection Hr as _ ->; simpl in Hpost;
          destruct Hpost as [Heq | Hpost];
          try (injection Heq as <- <-; repeat split; congruence);
          intuition discriminate.
    + exfalso. revert Hin. unfold run_eff, load_custom_driver. fold driver_path.
      rewrite Hdir. cbn [negb]. fold manifest. rewrite Hman. simpl.
      intuition discriminate.
  - exfalso. revert Hin. unfold run_eff, load_custom_driver. fold driver_path.
    rewrite Hdir. simpl. intuition discriminate.
Qed.

End DriverCalls.

Lemma load_custom_driver_not_found_witness :
  run_eff (load_custom_driver (L := posix_fs) sample_android "adreno") =
    (false, [EvLog LOG_ERROR "Could not find driver {}"]) /\
  forallb (fun e => negb (is_driver_call e))
    (snd (run_eff (load_custom_driver (L := posix_fs) sample_android "adreno"))) = true.
Proof.
  apply (load_custom_driver_not_found (L := posix_fs) sample_android "adreno").
  reflexivity.
Defined.

Lemma load_custom_driver_call_order_witness :
  exists post,
    snd (run_eff (load_custom_driver (L := posix_fs) ready_android "turnip")) =
      ([EvReadFile "/data/app/driver/turnip/driver_name.txt";
       EvCreateDirectory "/data/app/driver/turnip/tmp/";
       EvQueryNativeLibraryDir;
       EvCreateDirectory "/data/app/driver/turnip/file_redirect";
       EvOpenLibvulkan (Some "/data/app/driver/turnip/tmp/") "/data/app/lib/"
         "/data/app/driver/turnip/" "libvulkan_freedreno.so"
         "/data/app/driver/turnip/file_redirect/"] ++ post)%list.
Proof.
  destruct (load_custom_driver_call_order (L := posix_fs) ready_android "turnip"
              eq_refl eq_refl) as [post [Hpost _]].
  exists post. exact Hpost.
Defined.

Lemma load_custom_driver_handshake_witness :
  4096 <> 0 /\
  fs_exists (android_fs ready_android) "/data/app/driver/turnip/driver_name.txt" = true.
Proof.
  destruct (load_custom_driver_handshake (L := posix_fs) ready_android "turnip"
              4276994270 4096) as (_ & _ & Hn & _ & Hf).
  - simpl. tauto.
  - split; [exact Hn | exact Hf].
Defined.

(** ** Late initialization, step by step *)

Section LateInit.

Variable sv : Services.
Variable state : EmuEnvState.

Let renderer' := renderer_late_init sv (cfg state) (renderer state).
Let need :=
  MappingMethod_eqb (mapping_method renderer') PageTable
  || MappingMethod_eqb (mapping_method renderer') NativeBuffer.

(** The run of [late_init], by the answer of the memory subsystem. *)
Lemma late_init_run :
  run_eff (late_init sv state) =
    match mem_init sv need with
    | None =>
        ((false, set_renderer state renderer'),
         [EvRendererLateInit; EvMemInit need;
          EvLog LOG_ERROR "Failed to initialize memory for emulator state!"])
    | Some ms =>
        ((ngs_init sv, set_mem (set_renderer state renderer') ms),
         ([EvRendererLateInit; EvMemInit need] ++
          (if use_page_table ms
              && match cpu_backend (kernel state) with Unicorn => true | _ => false end
           then [EvLog LOG_CRITICAL "Unicorn backend is not supported with a page table"]
           else []) ++
          [EvAudioInit (cfg_audio_backend (cfg state))] ++
          (if audio_init sv (cfg_audio_backend (cfg state)) then []
           else [EvLog LOG_WARN "Failed to initialize audio! Audio will not work."]) ++
          [EvNgsInit] ++
          (if ngs_init sv then [] else [EvLog LOG_ERROR "Failed to initialize ngs."]))%list)
    end.
Proof.
  unfold run_eff, late_init, bind, emit, when, ret. cbn [app fst snd].
  fold renderer'. cbn [renderer set_renderer]. fold need.
  destruct (mem_init sv need) as [ms |]; [| reflexivity].
  cbn [mem set_mem kernel set_renderer cfg audio].
  destruct (use_page_table ms && _); cbn [app];
    destruct (audio_init sv _); cbn [negb app];
    destruct (ngs_init sv); reflexivity.
Qed.


(** X6: [late_init] succeeds exactly when the memory subsystem and ngs
    both initialize; the answer of the audio subsystem and the CPU backend
    play no part. *)
Theorem late_init_success :
  fst (fst (run_eff (late_init sv state))) = true <->
  mem_init sv need <> None /\ ngs_init sv = true.
Proof.
  rewrite late_init_run. destruct (mem_init sv need) as [ms |]; cbn [fst].
  - split; [intros H; split; [discriminate | exact H] | intros [_ H]; exact H].
  - split; [discriminate | intros [H _]; congruence].
Qed.

(** X7: the critical message about the Unicorn backend is logged exactly
    when the memory subsystem initializes with a page table and the CPU
    backend is Unicorn; it does not stop the initialization, which still
    initializes audio and ngs. *)
Theorem late_init_unicorn_page_table :
  (In (EvLog LOG_CRITICAL "Unicorn backend is not supported with a page table")
      (snd (run_eff (late_init sv state))) <->
   exists ms, mem_init sv need = Some ms /\ use_page_table ms = true /\
              cpu_backend (kernel state) = Unicorn) /\
  (forall ms, mem_init sv need = Some ms ->
     fst (fst (run_eff (late_init sv state))) = ngs_init sv /\
     In (EvAudioInit (cfg_audio_backend (cfg state))) (snd (run_eff (late_init sv state))) /\
     In EvNgsInit (snd (run_eff (late_init sv state)))).
Proof.
  rewrite late_init_run. split.
  - destruct (mem_init sv need) as [ms |]; cbn [snd].
    + destruct (use_page_table ms) eqn:Hp, (cpu_backend (kernel state)) eqn:Hc;
        cbn [andb app]; split.
      all: try (intros _; exists ms; repeat split; assumption).
      all: try (intros _; simpl; tauto).
      all: try (intros [ms' [Heq [Hp' Hc']]]; injection Heq as <-; congruence).
      all: destruct (audio_init sv _), (ngs_init sv); simpl; intuition discriminate.
    + split; [simpl; intuition discriminate | intros [ms [H _]]; discriminate H].
  - intros ms Hmem. rewrite Hmem. cbn [fst snd]. split; [reflexivity |].
    split; apply in_or_app; right; apply in_or_app; right.
    + simpl. left. reflexivity.
    + simpl. right. apply in_or_app. right. simpl. left. reflexivity.
Qed.

(** X8: [late_init] initializes the subsystems in one order: the renderer,
    then the memory, then audio with the configured backend, then ngs; the
    only other calls are log messages. *)
Theorem late_init_order (ms : MemState) :
  mem_init sv need = Some ms ->
  exists log1 log2 log3,
    snd (run_eff (late_init sv state)) =
      ([EvRendererLateInit; EvMemInit need] ++ log1 ++
       [EvAudioInit (cfg_audio_backend (cfg state))] ++ log2 ++
       [EvNgsInit] ++ log3)%list /\
    forallb is_log log1 = true /\ forallb is_log log2 = true /\
    forallb is_log log3 = true.
Proof.
  intros Hmem. rewrite late_init_run, Hmem. cbn [snd].
  eexists; eexists; eexists. split; [reflexivity |].
  destruct (use_page_table ms && _), (audio_init sv _), (ngs_init sv); repeat split.
Qed.


End LateInit.


Lemma late_init_order_witness :
  exists log1 log2 log3,
    snd (run_eff (late_init (memory_services true) (sample_state "Vulkan" None))) =
      ([EvRendererLateInit; EvMemInit false] ++ log1 ++
       [EvAudioInit "SDL"] ++ log2 ++ [EvNgsInit] ++ log3)%list /\
    forallb is_log log1 = true /\ forallb is_log log2 = true /\
    forallb is_log log3 = true.
Proof.
  apply (late_init_order (memory_services true) (sample_state "Vulkan" None)
           {| use_page_table := false |}).
  reflexivity.
Defined.

(** ** Path resolution, role by role *)

Section Roles.

Context {L : FsLib}.
Variables org_name app_name : string.
Variable split_string : string -> ascii -> list string.

Let resolve := init_paths org_name app_name split_string.

(** X10: [init_paths] assigns every role: the roots it returns, and the
    directories it creates, do not depend on the roots it is given. *)
Theorem init_paths_assigns_all (pf : Platform) (h : Host) (r1 r2 : Root) :
  resolve pf h r1 = resolve pf h r2.
Proof.
  unfold resolve, init_paths. destruct pf; cbn [is_android]; try reflexivity;
    unfold init_paths_desktop; destruct (fs_is_directory _ _); reflexivity.
Qed.

(** X11: the environment is read on Linux only: on the other platforms,
    replacing the environment changes nothing of what [init_paths] returns. *)
Theorem init_paths_environment_linux_only (pf : Platform) (h : Host) (root_paths : Root)
    (env : string -> option string) :
  pf <> Linux ->
  resolve pf (set_getenv h env) root_paths = resolve pf h root_paths.
Proof.
  intros Hpf. destruct pf; [reflexivity | reflexivity | congruence | reflexivity].
Qed.

(** X12: wherever the XDG rules do not apply, that is on every platform
    but Linux and with a portable directory on Linux too, the log, config
    and shared paths are one directory and the cache path is its [cache]
    subdirectory. *)
Theorem init_paths_one_data_directory (pf : Platform) (h : Host) (root_paths : Root) :
  pf <> Linux \/
  fs_is_directory (host_fs h) (portable_path_of pf (SDL_GetBasePath h)) = true ->
  let r := fst (resolve pf h root_paths) in
  config_path r = log_path r /\ shared_path r = log_path r /\
  cache_path r = log_path r // "cache" // "".
Proof.
  intros Hcase. unfold resolve, init_paths.
  destruct pf; cbn [is_android fst];
    try (repeat split; reflexivity);
    unfold init_paths_desktop; destruct (fs_is_directory _ _) eqn:Hdir;
    try (repeat split; reflexivity).
  destruct Hcase as [Hpf | Hdir']; [congruence | discriminate Hdir'].
Qed.

(** The XDG block is a sequence of conditional assignments; each one is an
    assignment of a conditional value. *)
Lemma root_eta (r : Root) :
  r = {| base_path := base_path r; pref_path := pref_path r; log_path := log_path r;
         config_path := config_path r; shared_path := shared_path r;
         cache_path := cache_path r; static_assets_path := static_assets_path r |}.
Proof. destruct r. reflexivity. Qed.

Let xdg_pref (h : Host) (r : Root) : string :=
  match getenv h "XDG_DATA_HOME" with
  | Some d => d // app_name // app_name // ""
  | None => pref_path r
  end.

Let xdg_config (h : Host) (r : Root) : string :=
  match getenv h "XDG_CONFIG_HOME", getenv h "HOME" with
  | Some c, _ => c // app_name // ""
  | None, Some hm => hm // ".config" // app_name // ""
  | None, None => config_path r
  end.

Let xdg_cache (h : Host) (r : Root) : string :=
  match getenv h "XDG_CACHE_HOME", getenv h "HOME" with
  | Some c, _ => c // app_name // ""
  | None, Some hm => hm // ".cache" // app_name // ""
  | None, None => cache_path r
  end.

Let xdg_log (h : Host) (r : Root) : string :=
  match getenv h "XDG_CACHE_HOME", getenv h "HOME" with
  | Some c, _ => c // app_name // ""
  | None, Some hm => hm // ".cache" // app_name // ""
  | None, None => log_path r
  end.

Let xdg_static (h : Host) (r : Root) : string :=
  let fs := host_fs h in
  let s1 :=
    if has_assets fs (base_path r) then base_path r
    else match getenv h "HOME" with
         | Some hm => hm // ".local/share" // app_name // ""
         | None => static_assets_path r
         end in
  let s2 :=
    match getenv h "XDG_DATA_DIRS", getenv h "XDG_DATA_HOME" with
    | Some dirs, _ =>
        match first_data_dir app_name fs (split_string dirs ":"%char) with
        | Some i => i // app_name // ""
        | None => s1
        end
    | None, Some d => if has_assets fs (d // app_name) then d // app_name // "" else s1
    | None, None => s1
    end in
  match getenv h "APPDIR" with
  | Some a => if fs_exists fs (a // "usr/share/Vita3K") then a // "usr/share/Vita3K" else s2
  | None => s2
  end.

Let xdg_shared (h : Host) (r : Root) : string :=
  let s1 :=
    match getenv h "HOME" with
    | Some hm => hm // ".local/share" // app_name // ""
    | None => shared_path r
    end in
  match getenv h "XDG_DATA_DIRS", getenv h "XDG_DATA_HOME" with
  | Some dirs, _ =>
      match first_data_dir app_name (host_fs h) (split_string dirs ":"%char) with
      | Some i => i // app_name // ""
      | None => s1
      end
  | None, Some d => d // app_name // ""
  | None, None => s1
  end.

Let step_pref (h : Host) (r : Root) : Root :=
  match getenv h "XDG_DATA_HOME" with
  | Some d => set_pref_path r (d // app_name // app_name // "")
  | None => r
  end.

Let step_config (h : Host) (r : Root) : Root :=
  match getenv h "XDG_CONFIG_HOME", getenv h "HOME" with
  | Some c, _ => set_config_path r (c // app_name // "")
  | None, Some hm => set_config_path r (hm // ".config" // app_name // "")
  | None, None => r
  end.

Let step_cache (h : Host) (r : Root) : Root :=
  match getenv h "XDG_CACHE_HOME", getenv h "HOME" with
  | Some c, _ =>
      set_log_path (set_cache_path r (c // app_name // "")) (c // app_name // "")
  | None, Some hm =>
      set_log_path (set_cache_path r (hm // ".cache" // app_name // ""))
        (hm // ".cache" // app_name // "")
  | None, None => r
  end.

Let step_static_base (h : Host) (r : Root) : Root :=
  if has_assets (host_fs h) (base_path r)
  then set_static_assets_path r (base_path r)
  else match getenv h "HOME" with
       | Some hm => set_static_assets_path r (hm // ".local/share" // app_name // "")
       | None => r
       end.

Let step_static_dirs (h : Host) (r : Root) : Root :=
  match getenv h "XDG_DATA_DIRS", getenv h "XDG_DATA_HOME" with
  | Some dirs, _ =>
      match first_data_dir app_name (host_fs h) (split_string dirs ":"%char) with
      | Some i => set_static_assets_path r (i // app_name // "")
      | None => r
      end
  | None, Some d =>
      if has_assets (host_fs h) (d // app_name)
      then set_static_assets_path r (d // app_name // "")
      else r
  | None, None => r
  end.

Let step_static_appdir (h : Host) (r : Root) : Root :=
  match getenv h "APPDIR" with
  | Some a =>
      if fs_exists (host_fs h) (a // "usr/share/Vita3K")
      then set_static_assets_path r (a // "usr/share/Vita3K")
      else r
  | None => r
  end.

Let step_shared_home (h : Host) (r : Root) : Root :=
  match getenv h "HOME" with
  | Some hm => set_shared_path r (hm // ".local/share" // app_name // "")
  | None => r
  end.

Let step_shared_dirs (h : Host) (r : Root) : Root :=
  match getenv h "XDG_DATA_DIRS", getenv h "XDG_DATA_HOME" with
  | Some dirs, _ =>
      match first_data_dir app_name (host_fs h) (split_string dirs ":"%char) with
      | Some i => set_shared_path r (i // app_name // "")
      | None => r
      end
  | None, Some d => set_shared_path r (d // app_name // "")
  | None, None => r
  end.

Lemma xdg_paths_steps (h : Host) (r : Root) :
  xdg_paths app_name split_string h r =
    step_shared_dirs h (step_shared_home h (step_static_appdir h (step_static_dirs h
      (step_static_base h (step_cache h (step_config h (step_pref h r))))))).
Proof. reflexivity. Qed.

Lemma step_pref_roles h r :
  step_pref h r =
    {| base_path := base_path r; pref_path := xdg_pref h r; log_path := log_path r;
       config_path := config_path r; shared_path := shared_path r;
       cache_path := cache_path r; static_assets_path := static_assets_path r |}.
Proof.
  unfold step_pref, xdg_pref. destruct r, (getenv h "XDG_DATA_HOME"); reflexivity.
Qed.

Lemma step_config_roles h r :
  step_config h r =
    {| base_path := base_path r; pref_path := pref_path r; log_path := log_path r;
       config_path := xdg_config h r; shared_path := shared_path r;
       cache_path := cache_path r; static_assets_path := static_assets_path r |}.
Proof.
  unfold step_config, xdg_config.
  destruct r, (getenv h "XDG_CONFIG_HOME"), (getenv h "HOME"); reflexivity.
Qed.

Lemma step_cache_roles h r :
  step_cache h r =
    {| base_path := base_path r; pref_path := pref_path r; log_path := xdg_log h r;
       config_path := config_path r; shared_path := shared_path r;
       cache_path := xdg_cache h r; static_assets_path := static_assets_path r |}.
Proof.
  unfold step_cache, xdg_cache, xdg_log.
  destruct r, (getenv h "XDG_CACHE_HOME"), (getenv h "HOME"); reflexivity.
Qed.

Lemma step_static_roles h r :
  step_static_appdir h (step_static_dirs h (step_static_base h r)) =
    {| base_path := base_path r; pref_path := pref_path r; log_path := log_path r;
       config_path := config_path r; shared_path := shared_path r;
       cache_path := cache_path r; static_assets_path := xdg_static h r |}.
Proof.
  unfold step_static_appdir, step_static_dirs, step_static_base, xdg_static.
  destruct r as [b p l c s k a]. cbn [base_path static_assets_path].
  destruct (has_assets (host_fs h) b); [| destruct (getenv h "HOME")];
    (destruct (getenv h "XDG_DATA_DIRS");
       [destruct (first_data_dir _ _ _)
       | destruct (getenv h "XDG_DATA_HOME"); [destruct (has_assets _ _) |]]);
    (destruct (getenv h "APPDIR"); [destruct (fs_exists _ _) |]); reflexivity.
Qed.

Lemma step_shared_roles h r :
  step_shared_dirs h (step_shared_home h r) =
    {| base_path := base_path r; pref_path := pref_path r; log_path := log_path r;
       config_path := config_path r; shared_path := xdg_shared h r;
       cache_path := cache_path r; static_assets_path := static_assets_path r |}.
Proof.
  unfold step_shared_dirs, step_shared_home, xdg_shared.
  destruct r as [b p l c s k a]. cbn [shared_path].
  destruct (getenv h "HOME");
    (destruct (getenv h "XDG_DATA_DIRS");
       [destruct (first_data_dir _ _ _) | destruct (getenv h "XDG_DATA_HOME")]);
    reflexivity.
Qed.

Lemma xdg_paths_roles (h : Host) (r : Root) :
  xdg_paths app_name split_string h r =
    {| base_path := base_path r;
       pref_path := xdg_pref h r;
       log_path := xdg_log h r;
       config_path := xdg_config h r;
       shared_path := xdg_shared h r;
       cache_path := xdg_cache h r;
       static_assets_path := xdg_static h r |}.
Proof.
  rewrite xdg_paths_steps, step_pref_roles, step_config_roles, step_cache_roles,
    step_static_roles, step_shared_roles.
  reflexivity.
Qed.

(** X13: on Linux without a portable directory, the base path is the
    directory of the executable and four roles follow the environment, an
    XDG variable before [HOME]: the preference path is under
    [XDG_DATA_HOME], else the per-user path of SDL; the config path is under
    [XDG_CONFIG_HOME], else under [HOME/.config], else the base path; the
    cache and log paths are both the directory under [XDG_CACHE_HOME], else
    under [HOME/.cache], and without either the log path is the base path
    and the cache path its [cache] subdirectory. *)
Theorem linux_user_roles (h : Host) (root_paths : Root) :
  fs_is_directory (host_fs h) (portable_path_of Linux (SDL_GetBasePath h)) = false ->
  let r := fst (resolve Linux h root_paths) in
  let base := SDL_GetBasePath h in
  base_path r = base /\
  pref_path r =
    match getenv h "XDG_DATA_HOME" with
    | Some d => d // app_name // app_name // ""
    | None => SDL_GetPrefPath h org_name app_name
    end /\
  config_path r =
    match getenv h "XDG_CONFIG_HOME", getenv h "HOME" with
    | Some c, _ => c // app_name // ""
    | None, Some hm => hm // ".config" // app_name // ""
    | None, None => base
    end /\
  cache_path r =
    match getenv h "XDG_CACHE_HOME", getenv h "HOME" with
    | Some c, _ => c // app_name // ""
    | None, Some hm => hm // ".cache" // app_name // ""
    | None, None => base // "cache" // ""
    end /\
  log_path r =
    match getenv h "XDG_CACHE_HOME", getenv h "HOME" with
    | Some c, _ => c // app_name // ""
    | None, Some hm => hm // ".cache" // app_name // ""
    | None, None => base
    end.
Proof.
  intros Hdir. unfold resolve, init_paths, init_paths_desktop.
  cbn [is_android fst]. rewrite Hdir.
  unfold init_paths_user. cbn [is_apple is_linux]. rewrite xdg_paths_roles.
  cbn. repeat split.
Qed.

Lemma first_data_dir_first (fs : Filesystem) (l1 l2 : list string) (i : string) :
  (forall j, In j l1 -> fs_exists fs (j // app_name) = false) ->
  fs_exists fs (i // app_name) = true ->
  first_data_dir app_name fs (l1 ++ i :: l2) = Some i.
Proof.
  intros Hl1 Hi. unfold first_data_dir.
  induction l1 as [| j l1 IH]; cbn [app find].
  - now rewrite Hi.
  - rewrite (Hl1 j (or_introl eq_refl)). apply IH.
    intros k Hk. apply Hl1. now right.
Qed.

Lemma linux_roles (h : Host) (root_paths : Root) :
  fs_is_directory (host_fs h) (portable_path_of Linux (SDL_GetBasePath h)) = false ->
  fst (resolve Linux h root_paths) =
    xdg_paths app_name split_string h
      {| base_path := SDL_GetBasePath h;
         pref_path := SDL_GetPrefPath h org_name app_name;
         log_path := SDL_GetBasePath h;
         config_path := SDL_GetBasePath h;
         shared_path := SDL_GetBasePath h;
         cache_path := SDL_GetBasePath h // "cache" // "";
         static_assets_path := SDL_GetBasePath h |}.
Proof.
  intros Hdir. unfold resolve, init_paths, init_paths_desktop.
  cbn [is_android fst]. rewrite Hdir. reflexivity.
Qed.

(** X14: on Linux without a portable directory, the entries of
    [XDG_DATA_DIRS] are tried in list order: the first entry that holds a
    directory named after the application gives the shared path, whatever
    the later entries, [HOME] and [XDG_DATA_HOME] are; it gives the
    static-assets path too unless [APPDIR] holds [usr/share/Vita3K]. *)
Theorem linux_data_dirs_first_match (h : Host) (root_paths : Root)
    (dirs i : string) (before after : list string) :
  fs_is_directory (host_fs h) (portable_path_of Linux (SDL_GetBasePath h)) = false ->
  getenv h "XDG_DATA_DIRS" = Some dirs ->
  split_string dirs ":"%char = (before ++ i :: after)%list ->
  (forall j, In j before -> fs_exists (host_fs h) (j // app_name) = false) ->
  fs_exists (host_fs h) (i // app_name) = true ->
  let r := fst (resolve Linux h root_paths) in
  shared_path r = i // app_name // "" /\
  static_assets_path r =
    match getenv h "APPDIR" with
    | Some a =>
        if fs_exists (host_fs h) (a // "usr/share/Vita3K")
        then a // "usr/share/Vita3K" else i // app_name // ""
    | None => i // app_name // ""
    end.
Proof.
  intros Hdir Hdirs Hsplit Hbefore Hi. cbv zeta.
  rewrite (linux_roles h root_paths Hdir), xdg_paths_roles.
  cbn [shared_path static_assets_path]. unfold xdg_shared, xdg_static.
  rewrite Hdirs, Hsplit, (first_data_dir_first _ _ _ _ Hbefore Hi).
  split; reflexivity.
Qed.

(** X15: on Linux without a portable directory, when [XDG_DATA_DIRS] is set
    and none of its entries holds a directory named after the application,
    [XDG_DATA_HOME] is not consulted for the shared path: the shared path is
    the one under [HOME/.local/share], or the base path without [HOME].
    Only when [XDG_DATA_DIRS] is not set does [XDG_DATA_HOME] give the
    shared path, and then before [HOME]. *)
Theorem linux_shared_path (h : Host) (root_paths : Root) :
  fs_is_directory (host_fs h) (portable_path_of Linux (SDL_GetBasePath h)) = false ->
  let r := fst (resolve Linux h root_paths) in
  let by_home :=
    match getenv h "HOME" with
    | Some hm => hm // ".local/share" // app_name // ""
    | None => SDL_GetBasePath h
    end in
  (forall dirs, getenv h "XDG_DATA_DIRS" = Some dirs ->
     (forall j, In j (split_string dirs ":"%char) ->
        fs_exists (host_fs h) (j // app_name) = false) ->
     shared_path r = by_home) /\
  (getenv h "XDG_DATA_DIRS" = None ->
   shared_path r =
     match getenv h "XDG_DATA_HOME" with
     | Some d => d // app_name // ""
     | None => by_home
     end).
Proof.
  intros Hdir. cbv zeta.
  rewrite (linux_roles h root_paths Hdir), xdg_paths_roles.
  cbn [shared_path]. unfold xdg_shared. cbn [shared_path]. split.
  - intros dirs Hdirs Hnone. rewrite Hdirs.
    destruct (first_data_dir _ _ _) as [i |] eqn:Hfind; [| reflexivity].
    apply find_some in Hfind. destruct Hfind as [Hin Hex].
    rewrite (Hnone i Hin) in Hex. discriminate Hex.
  - intros Hdirs. rewrite Hdirs. reflexivity.
Qed.

(** X16: on Linux without a portable directory, an [APPDIR] that holds
    [usr/share/Vita3K] gives the static-assets path, whatever the other
    variables and the filesystem are; it changes no other role. *)
Theorem linux_appdir_override (h : Host) (root_paths : Root) (a : string)
    (env : string -> option string) :
  fs_is_directory (host_fs h) (portable_path_of Linux (SDL_GetBasePath h)) = false ->
  getenv h "APPDIR" = Some a ->
  fs_exists (host_fs h) (a // "usr/share/Vita3K") = true ->
  let r := fst (resolve Linux h root_paths) in
  static_assets_path r = a // "usr/share/Vita3K" /\
  (env "APPDIR" = None ->
   (forall name, name <> "APPDIR" -> env name = getenv h name) ->
   let r' := fst (resolve Linux (set_getenv h env) root_paths) in
   base_path r' = base_path r /\ pref_path r' = pref_path r /\
   log_path r' = log_path r /\ config_path r' = config_path r /\
   shared_path r' = shared_path r /\ cache_path r' = cache_path r).
Proof.
  intros Hdir Happ Hex. cbv zeta.
  rewrite (linux_roles h root_paths Hdir), xdg_paths_roles.
  split.
  - cbn [static_assets_path]. unfold xdg_static. now rewrite Happ, Hex.
  - intros Henv Hsame.
    rewrite (linux_roles (set_getenv h env) root_paths Hdir), xdg_paths_roles.
    unfold xdg_pref, xdg_log, xdg_config, xdg_shared, xdg_cache.
    cbn [base_path pref_path log_path config_path shared_path cache_path
         getenv set_getenv SDL_GetBasePath SDL_GetPrefPath host_fs].
    rewrite !Hsame by discriminate. repeat split.
Qed.

End Roles.

Lemma init_paths_environment_linux_only_witness :
  init_paths (L := posix_fs) "Vita3K" "Vita3K" sample_split_string Windows
    (set_getenv portable_host (fun _ => Some "/elsewhere")) empty_root =
  init_paths (L := posix_fs) "Vita3K" "Vita3K" sample_split_string Windows
    portable_host empty_root.
Proof.
  apply (init_paths_environment_linux_only (L := posix_fs) "Vita3K" "Vita3K"
           sample_split_string Windows portable_host empty_root).
  discriminate.
Defined.

Lemma init_paths_one_data_directory_witness :
  config_path (fst (init_paths (L := posix_fs) "Vita3K" "Vita3K" sample_split_string
                      Apple legacy_apple_host empty_root)) =
  log_path (fst (init_paths (L := posix_fs) "Vita3K" "Vita3K" sample_split_string
                   Apple legacy_apple_host empty_root)).
Proof.
  apply (init_paths_one_data_directory (L := posix_fs) "Vita3K" "Vita3K"
           sample_split_string Apple legacy_apple_host empty_root).
  left. discriminate.
Defined.

Lemma linux_user_roles_witness :
  let r := fst (init_paths (L := posix_fs) "Vita3K" "Vita3K" sample_split_string
                  Linux xdg_host empty_root) in
  config_path r = "/home/user/.config/Vita3K" /\
  cache_path r = "/home/user/.cache/Vita3K" /\
  log_path r = "/home/user/.cache/Vita3K".
Proof.
  pose proof (linux_user_roles (L := posix_fs) "Vita3K" "Vita3K" sample_split_string
                xdg_host empty_root eq_refl) as H.
  cbv zeta in H. destruct H as (_ & _ & Hc & Hk & Hl).
  cbv zeta. repeat split; assumption.
Defined.

Lemma linux_data_dirs_first_match_witness :
  shared_path (fst (init_paths (L := posix_fs) "Vita3K" "Vita3K" sample_split_string
                      Linux xdg_host empty_root)) = "/usr/share/Vita3K".
Proof.
  refine (proj1 (linux_data_dirs_first_match (L := posix_fs) "Vita3K" "Vita3K"
                   sample_split_string xdg_host empty_root
                   "/usr/local/share:/usr/share" "/usr/share" ["/usr/local/share"] []
                   eq_refl eq_refl eq_refl _ eq_refl)).
  intros j [<- | []]. reflexivity.
Defined.

Lemma linux_shared_path_witness :
  shared_path (fst (init_paths (L := posix_fs) "Vita3K" "Vita3K" sample_split_string
                      Linux appimage_host empty_root)) =
  "/home/user/.local/share/Vita3K".
Proof.
  exact (proj2 (linux_shared_path (L := posix_fs) "Vita3K" "Vita3K" sample_split_string
                  appimage_host empty_root eq_refl) eq_refl).
Defined.

Lemma linux_appdir_override_witness :
  static_assets_path (fst (init_paths (L := posix_fs) "Vita3K" "Vita3K"
                             sample_split_string Linux appimage_host empty_root)) =
  "/tmp/.mount_Vita3K/usr/share/Vita3K".
Proof.
  exact (proj1 (linux_appdir_override (L := posix_fs) "Vita3K" "Vita3K"
                  sample_split_string appimage_host empty_root "/tmp/.mount_Vita3K"
                  (fun _ => None) eq_refl eq_refl eq_refl)).
Defined.

(** ** The viewport, beyond the aspect ratio *)

(** X17: with a backend that is not implemented, [update_viewport] logs an
    error and does not ask the window for its size: the drawable size is
    (0,0) and the viewport the degenerate rectangle, whatever the window
    and the stretch flag are. *)
Theorem update_viewport_unimplemented (state : EmuEnvState) (t : list Event) :
  current_backend (renderer state) = Unimplemented ->
  update_viewport state t =
    (set_view state
       {| drawable_size := (0, 0); viewport_pos := zero2; viewport_size := zero2 |},
     (t ++ [EvLog LOG_ERROR "Unimplemented backend renderer: {}."])%list).
Proof.
  intros Hb. unfold update_viewport, get_drawable_size, bind, emit, ret.
  rewrite Hb. reflexivity.
Qed.

Lemma update_viewport_unimplemented_witness :
  view (fst (update_viewport
               (set_renderer (sample_state "Vulkan" (Some sample_window))
                  (sample_renderer Unimplemented)) [])) =
  {| drawable_size := (0, 0); viewport_pos := zero2; viewport_size := zero2 |}.
Proof.
  rewrite (update_viewport_unimplemented
             (set_renderer (sample_state "Vulkan" (Some sample_window))
                (sample_renderer Unimplemented)) [] eq_refl).
  reflexivity.
Defined.

Lemma update_viewport_state (state : EmuEnvState) (t : list Event) :
  fst (update_viewport state t) =
    set_view state (view (fst (update_viewport state t))).
Proof.
  unfold update_viewport, bind.
  destruct (get_drawable_size state t) as [[w h] t'].
  destruct (viewport_of w h _). reflexivity.
Qed.

Lemma get_drawable_size_value (state : EmuEnvState) (t : list Event) :
  fst (get_drawable_size state t) =
    match current_backend (renderer state), window state with
    | OpenGL, Some win => gl_drawable_size win
    | Vulkan, Some win => vulkan_drawable_size win
    | _, _ => (0, 0)
    end.
Proof.
  unfold get_drawable_size. destruct (current_backend _), (window state); reflexivity.
Qed.

(** X18: [update_viewport] writes the drawable size and the viewport and
    nothing else of the state, and what it writes depends only on the
    backend of the renderer, the window and the stretch flag: running it
    again gives the same state. *)
Theorem update_viewport_idempotent (state : EmuEnvState) (t t' : list Event) :
  let state' := fst (update_viewport state t) in
  fst (update_viewport state' t') = state' /\
  paths state' = paths state /\ cfg state' = cfg state /\
  backend_renderer state' = backend_renderer state /\
  display state' = display state /\ window state' = window state /\
  renderer state' = renderer state /\ mem state' = mem state /\
  kernel state' = kernel state /\ audio state' = audio state /\
  controller_overlay_state state' = controller_overlay_state state.
Proof.
  cbv zeta. split.
  - rewrite (update_viewport_state (fst (update_viewport state t)) t').
    rewrite (update_viewport_state state t) at 3.
    rewrite update_viewport_view.
    rewrite (update_viewport_view state t).
    rewrite !get_drawable_size_value.
    rewrite (update_viewport_state state t). reflexivity.
  - rewrite (update_viewport_state state t). repeat split.
Qed.

Lemma binary_round_int_exact (s : bool) (m : positive) :
  Zpos m < 2 ^ 24 ->
  exists m' e',
    binary_round 24 128 s m 0 = S754_finite s m' e' /\
    e' <= 0 /\ Zpos m' = Zpos m * 2 ^ (- e').
Proof.
  intros Hm. pose proof (digits2_pos_bounds m) as Hd.
  set (d := Zpos (digits2_pos m)) in *.
  assert (Hd1 : 1 <= d <= 24).
  { split; [subst d; lia |].
    destruct (Z.le_gt_cases d 24) as [H | H]; [exact H |].
    assert (2 ^ 24 <= 2 ^ (d - 1)) by (apply Z.pow_le_mono_r; lia). lia. }
  unfold binary_round. fold d. rewrite Z.add_0_r, fexp32_normal by lia.
  unfold shl_align. rewrite Z.sub_0_r.
  destruct (d - 24) as [| k | k] eqn:Ek; [| lia |].
  - destruct (binary_round_aux_normal s (Zpos m) 1 m 0 0 loc_Exact)
      as (m' & e' & Heq & Hb & He & Habs); try lia.
    { apply shr_inv_exact. lia. }
    exists m', e'. rewrite Heq. split; [reflexivity |].
    destruct He as [-> | [-> Hm']].
    + replace (0 + 0 - 0) with 0 in Habs by lia.
      replace (- (0 + 0)) with 0 by lia. pow2_consts. split; lia.
    + replace (0 + 0 + 1 - 0) with 1 in Habs by lia. pow2_consts. lia.
  - assert (Hval : Zpos (Pos.iter xO m k) = Zpos m * 2 ^ Zpos k) by apply pos_iter_xO.
    assert (Hlt : Zpos (Pos.iter xO m k) < 2 ^ 24).
    { rewrite Hval. replace 24 with (d + Zpos k) by lia.
      rewrite Z.pow_add_r by lia.
      pose proof (Z.pow_pos_nonneg 2 (Zpos k) ltac:(lia) ltac:(lia)). nia. }
    assert (Hsh : Zpos (digits2_pos (Pos.iter xO m k)) = 24 + 0).
    { apply digits2_pos_unique. split; [| exact Hlt]. rewrite Hval.
      replace (24 + 0 - 1) with ((d - 1) + Zpos k) by lia.
      rewrite Z.pow_add_r by lia.
      pose proof (Z.pow_pos_nonneg 2 (Zpos k) ltac:(lia) ltac:(lia)). nia. }
    destruct (binary_round_aux_normal s (Zpos (Pos.iter xO m k)) 1 (Pos.iter xO m k)
                (Zneg k) 0 loc_Exact) as (m' & e' & Heq & Hb & He & Habs); try lia.
    { apply shr_inv_exact. lia. }
    exists m', e'. rewrite Heq. split; [reflexivity |].
    pow2_consts.
    destruct He as [-> | [-> Hm']].
    + replace (Z.neg k + 0 - Z.neg k) with 0 in Habs by lia.
      replace (- (Z.neg k + 0)) with (Zpos k) by lia.
      pow2_consts. split; lia.
    + replace (Z.neg k + 0 + 1 - Z.neg k) with 1 in Habs by lia.
      pow2_consts. lia.
Qed.

Lemma float_of_int_exact (n : Z) :
  Z.abs n < 2 ^ 24 -> float_is_int (float_of_int n) n = true.
Proof.
  intros Hn. unfold float_of_int, binary_normalize, prec32, emax32.
  destruct n as [| p | p]; [reflexivity | |].
  - destruct (binary_round_int_exact false p) as (m' & e' & Heq & He & Hm);
      [simpl in Hn; lia |].
    rewrite Heq. unfold float_is_int.
    rewrite (proj2 (Z.leb_le _ _) He), Hm.
    cbn [Z.abs Z.ltb Z.compare]. rewrite Z.eqb_refl. reflexivity.
  - destruct (binary_round_int_exact true p) as (m' & e' & Heq & He & Hm);
      [simpl in Hn; lia |].
    rewrite Heq. unfold float_is_int.
    rewrite (proj2 (Z.leb_le _ _) He), Hm.
    cbn [Z.abs Z.ltb Z.compare]. rewrite Z.eqb_refl. reflexivity.
Qed.

(** X19: when the display area is stretched and the drawable height is
    positive, the viewport starts at (0,0) and its size is the drawable
    size; for a drawable size below 2^24 in each direction the conversion
    to single precision is exact. *)
Theorem update_viewport_stretch (state : EmuEnvState) (t : list Event) :
  let state' := fst (update_viewport state t) in
  let w := fst (drawable_size (view state')) in
  let h := snd (drawable_size (view state')) in
  cfg_stretch_the_display_area (cfg state) = true ->
  0 < h ->
  viewport_pos (view state') = zero2 /\
  viewport_size (view state') = {| vx := float_of_int w; vy := float_of_int h |} /\
  (Z.abs w < 2 ^ 24 -> h < 2 ^ 24 ->
   float_is_int (vx (viewport_size (view state'))) w = true /\
   float_is_int (vy (viewport_size (view state'))) h = true).
Proof.
  cbv zeta. rewrite update_viewport_view. cbn [drawable_size viewport_pos viewport_size].
  destruct (fst (get_drawable_size state t)) as [w h]. cbn [fst snd].
  intros Hstretch Hh. rewrite Hstretch. unfold viewport_of.
  destruct (Z.ltb_spec 0 h) as [_ | ?]; [| lia]. cbn [fst snd vx vy].
  repeat split; apply float_of_int_exact; lia.
Qed.

Lemma update_viewport_stretch_witness :
  viewport_size (view (fst (update_viewport (stretched_state (Some sample_window)) []))) =
  {| vx := float_of_int 1920; vy := float_of_int 1080 |}.
Proof.
  refine (proj1 (proj2 (update_viewport_stretch (stretched_state (Some sample_window)) []
                          eq_refl _))).
  cbn. lia.
Defined.

(** ** Pause and resume, the rest of the state *)

(** X20: [switch_state] never touches the paths, the configuration, the
    backend, the window, the renderer, the viewport, the memory, the CPU
    backend or the fullscreen flag; on the platforms other than Android it
    leaves the display and the controller overlay as they are too. *)
Theorem switch_state_frame (pf : Platform) (sv : Services) (emuenv : EmuEnvState)
    (pause : bool) :
  let emuenv' := switch_state pf sv emuenv pause in
  paths emuenv' = paths emuenv /\ cfg emuenv' = cfg emuenv /\
  backend_renderer emuenv' = backend_renderer emuenv /\
  window emuenv' = window emuenv /\ renderer emuenv' = renderer emuenv /\
  view emuenv' = view emuenv /\ mem emuenv' = mem emuenv /\
  cpu_backend (kernel emuenv') = cpu_backend (kernel emuenv) /\
  fullscreen (display emuenv') = fullscreen (display emuenv) /\
  (pf <> Android ->
   display emuenv' = display emuenv /\
   controller_overlay_state emuenv' = controller_overlay_state emuenv).
Proof.
  cbv zeta. unfold switch_state, switch_state_steps, exec_steps.
  destruct pause, pf; cbn [is_android];
    try destruct (cfg_enable_gamepad_overlay (cfg emuenv));
    cbn; repeat split; intros; congruence.
Qed.

(** X21: on Android a pause shows the ImGui layer and hides the controller
    overlay (state 0); a resume hides the ImGui layer and sets the overlay
    to the display mask of the configuration when the gamepad overlay is
    enabled.  When it is disabled the resume leaves the overlay state as it
    is, so after a pause and a resume it stays 0. *)
Theorem switch_state_android_overlay (sv : Services) (emuenv : EmuEnvState) :
  let paused := switch_state Android sv emuenv true in
  let resumed := switch_state Android sv paused false in
  imgui_render (display paused) = true /\ controller_overlay_state paused = 0 /\
  imgui_render (display resumed) = false /\
  controller_overlay_state resumed =
    (if cfg_enable_gamepad_overlay (cfg emuenv)
     then get_overlay_display_mask sv (cfg emuenv) else 0) /\
  controller_overlay_state (switch_state Android sv emuenv false) =
    (if cfg_enable_gamepad_overlay (cfg emuenv)
     then get_overlay_display_mask sv (cfg emuenv)
     else controller_overlay_state emuenv).
Proof.
  cbv zeta. unfold switch_state, switch_state_steps, exec_steps. cbn.
  destruct (cfg_enable_gamepad_overlay (cfg emuenv)); cbn; repeat split.
Qed.

Lemma switch_state_frame_witness :
  display (switch_state Linux (sample_services true true) (sample_state "Vulkan" None) true)
  = display (sample_state "Vulkan" None).
Proof.
  pose proof (switch_state_frame Linux (sample_services true true)
                (sample_state "Vulkan" None) true) as H.
  cbv zeta in H. destruct H as (_ & _ & _ & _ & _ & _ & _ & _ & _ & H).
  apply H. discriminate.
Defined.

(** ** The callback that resumes a thread *)



(** ** The bootstrap sequence *)

Lemma emits_ret {A : Type} (a : A) : emits (ret a) a [].
Proof. intros t. unfold ret. now rewrite app_nil_r. Qed.

Lemma emits_emit (e : Event) : emits (emit e) tt [e].
Proof. intros t. reflexivity. Qed.

Lemma emits_bind {A B : Type} (m : Eff A) (k : A -> Eff B) a w b w' :
  emits m a w -> emits (k a) b w' -> emits (bind m k) b (w ++ w')%list.
Proof.
  intros Hm Hk t. unfold bind. rewrite Hm, Hk. now rewrite app_assoc.
Qed.

Lemma emits_run {A : Type} (m : Eff A) a w : emits m a w -> run_eff m = (a, w).
Proof. intros Hm. unfold run_eff. now rewrite Hm. Qed.

Lemma writes_ret {A : Type} (P : Event -> bool) (a : A) : writes P (ret a).
Proof. exists a, []. split; [apply emits_ret | reflexivity]. Qed.

Lemma writes_emit (P : Event -> bool) (e : Event) : P e = true -> writes P (emit e).
Proof. intros He. exists tt, [e]. split; [apply emits_emit | simpl; now rewrite He]. Qed.

Lemma writes_bind {A B : Type} (P : Event -> bool) (m : Eff A) (k : A -> Eff B) :
  writes P m -> (forall a, writes P (k a)) -> writes P (bind m k).
Proof.
  intros (a & w & Hm & Hw) Hk. destruct (Hk a) as (b & w' & Hk' & Hw').
  exists b, (w ++ w')%list. split; [now apply (emits_bind m k a w b w') |].
  rewrite forallb_app, Hw, Hw'. reflexivity.
Qed.

Lemma writes_when (P : Event -> bool) (c : bool) (m : Eff unit) :
  writes P m -> writes P (when c m).
Proof. intros Hm. destruct c; [exact Hm | apply writes_ret]. Qed.

Lemma writes_weaken {A : Type} (P Q : Event -> bool) (m : Eff A) :
  (forall e, P e = true -> Q e = true) -> writes P m -> writes Q m.
Proof.
  intros HPQ (a & w & Hm & Hw). exists a, w. split; [exact Hm |].
  rewrite forallb_forall in *. intros e He. apply HPQ, Hw, He.
Qed.

(** What a computation that [writes] returns and adds, from its run on the
    empty trace. *)
Lemma writes_run {A : Type} (P : Event -> bool) (m : Eff A) :
  writes P m ->
  emits m (fst (run_eff m)) (snd (run_eff m)) /\ forallb P (snd (run_eff m)) = true.
Proof.
  intros (a & w & Hm & Hw). rewrite (emits_run m a w Hm). split; assumption.
Qed.

Ltac writes_tac :=
  repeat first
    [ apply writes_ret
    | apply writes_emit; reflexivity
    | apply writes_when
    | apply writes_bind; [| intros ?] ].

Section Bootstrap.

Context {L : FsLib}.
Variable pf : Platform.
Variable sv : Services.

Lemma writes_load_custom_driver (h : AndroidHost) (driver_name : string) :
  writes (fun e => is_driver_call e || is_log e) (load_custom_driver h driver_name).
Proof.
  unfold load_custom_driver.
  destruct (negb (fs_exists _ _)); [writes_tac |].
  destruct (negb (fs_exists _ _)); [writes_tac |].
  apply writes_bind; [writes_tac | intros _].
  apply writes_bind; [destruct (_ <? 29); writes_tac | intros temp_dir].
  apply writes_bind; [writes_tac | intros _].
  apply writes_bind; [writes_tac | intros _].
  apply writes_bind; [writes_tac | intros _].
  destruct (_ =? 0); [writes_tac |].
  apply writes_bind; [writes_tac | intros _].
  destruct (_ <? 0); writes_tac.
Qed.

Lemma writes_update_viewport (state : EmuEnvState) :
  writes (fun e => is_renderer_call e || is_log e) (update_viewport state).
Proof.
  unfold update_viewport. apply writes_bind.
  - unfold get_drawable_size. destruct (current_backend _); writes_tac.
  - intros [w h]. destruct (viewport_of _ _ _). apply writes_ret.
Qed.

Lemma init_split (state : EmuEnvState) (root_paths : Root) (t : list Event) :
  init pf sv state root_paths t =
    bind (init_prologue pf sv state root_paths)
         (fun sw => init_epilogue pf sv (fst sw) (snd sw)) t.
Proof.
  unfold init, init_prologue, init_epilogue, bind.
  destruct (log_paths pf t) as [u1 t1].
  destruct (when _ _ t1) as [u2 t2].
  destruct (select_backend pf sv _ t2) as [st1 t3].
  destruct (select_window_type st1 t3) as [wt t4].
  destruct (select_fullscreen pf st1 wt t4) as [[st2 wt2] t5].
  reflexivity.
Qed.

Lemma seed_paths_fields (state : EmuEnvState) (root_paths : Root) :
  let state' := seed_paths pf state root_paths in
  current_config (cfg state') = current_config (cfg state) /\
  cfg_fullscreen (cfg state') = cfg_fullscreen (cfg state) /\
  cfg_console (cfg state') = cfg_console (cfg state) /\
  cfg_discord_rich_presence (cfg state') = cfg_discord_rich_presence (cfg state) /\
  cfg_stretch_the_display_area (cfg state') = cfg_stretch_the_display_area (cfg state) /\
  backend_renderer state' = backend_renderer state /\
  display state' = display state /\ window state' = window state /\
  renderer state' = renderer state /\ view state' = view state /\
  mem state' = mem state /\ kernel state' = kernel state /\ audio state' = audio state.
Proof.
  unfold seed_paths. cbn.
  destruct (_ || _); [repeat split |].
  destruct (last_char _); [| repeat split].
  destruct (_ && _); repeat split.
Qed.

Lemma writes_init_prologue (state : EmuEnvState) (root_paths : Root) :
  writes prologue_event (init_prologue pf sv state root_paths).
Proof.
  unfold init_prologue, log_paths.
  apply writes_bind; [writes_tac | intros _].
  apply writes_bind; [writes_tac | intros _].
  apply writes_bind.
  - unfold select_backend. destruct (String.eqb _ _); [destruct (is_apple pf) |]; writes_tac.
  - intros st. apply writes_bind.
    + unfold select_window_type. destruct (backend_renderer st); writes_tac.
    + intros wt. unfold select_fullscreen.
      destruct (is_android pf); [writes_tac |]. destruct (cfg_fullscreen _); writes_tac.
Qed.

Lemma init_prologue_result (state : EmuEnvState) (root_paths : Root) :
  let r := run_eff (init_prologue pf sv state root_paths) in
  let state' := fst (fst r) in
  Z.lor (snd (fst r)) SDL_WINDOW_RESIZABLE = window_flags pf sv (cfg state) /\
  paths state' = paths (seed_paths pf state root_paths) /\
  current_config (cfg state') = current_config (cfg state) /\
  cfg_console (cfg state') = cfg_console (cfg state) /\
  cfg_discord_rich_presence (cfg state') = cfg_discord_rich_presence (cfg state) /\
  backend_renderer state' =
    (if requests_opengl sv (cfg state) && negb (is_apple pf) then OpenGL else Vulkan) /\
  fullscreen (display state') =
    (is_android pf || cfg_fullscreen (cfg state) || fullscreen (display state)) /\
  window state' = window state /\ renderer state' = renderer state /\
  view state' = view state /\
  (is_apple pf = false ->
   forallb (fun e => negb (is_config_write e)) (snd r) = true).
Proof.
  destruct (seed_paths_fields state root_paths)
    as (Hcur & Hfs & Hcon & Hdis & _ & Hb & Hd & Hw & Hr & Hv & _).
  cbv zeta. unfold run_eff, init_prologue, window_flags, requests_opengl.
  remember (seed_paths pf state root_paths) as st0 eqn:Est0. clear Est0.
  unfold log_paths, select_backend, select_window_type, select_fullscreen.
  cbn [cfg set_backend_renderer set_cfg]. rewrite Hcur.
  remember (String.eqb (toupper sv (cur_backend_renderer (current_config (cfg state))))
              "OPENGL") as req eqn:Ereq. clear Ereq.
  unfold bind, when, emit, ret.
  destruct req, pf; cbn [is_apple is_android is_linux andb orb negb];
    destruct (imgui_has_context sv); cbn [negb app fst snd];
    cbn [cfg set_cfg set_backend_renderer backend_renderer cfg_fullscreen
         set_cfg_backend_renderer fst snd];
    rewrite ?Hfs; try destruct (cfg_fullscreen (cfg state));
    cbn [fst snd paths set_display set_cfg set_backend_renderer cfg display window
         renderer view current_config cfg_console cfg_discord_rich_presence
         set_cfg_backend_renderer backend_renderer fullscreen set_fullscreen orb
         forallb is_config_write negb andb app];
    rewrite ?Hd; repeat split; auto; try discriminate;
    destruct (fullscreen (display state)); reflexivity.
Qed.

(** The end of [init], once the renderer is set up or skipped. *)
Lemma init_closing (state : EmuEnvState) (window_type : Z) (win : Window)
    (rendered : Eff (bool * EmuEnvState)) (state1 : EmuEnvState) (w : list Event) :
  SDL_CreateWindow sv (Z.lor window_type SDL_WINDOW_RESIZABLE) = Some win ->
  (if negb (cfg_console (cfg state)) then
     emit (EvRendererInit (backend_renderer state)) ;;;
     match renderer_init sv (backend_renderer state) (cfg state) with
     | Some r =>
         state' <- update_viewport (set_renderer (set_window state (Some win)) r) ;;
         ret (true, state')
     | None =>
         renderer_error_dialog pf (set_window state (Some win)) ;;;
         ret (false, set_window state (Some win))
     end
   else ret (true, set_window state (Some win))) = rendered ->
  emits rendered (true, state1) w ->
  let state2 :=
    if is_android pf
    then set_renderer state1
           (set_current_custom_driver (renderer state1)
              (custom_driver_name (current_config (cfg state1))))
    else state1 in
  let io_ok :=
    io_init sv (st_cache_path (paths state1)) (st_log_path (paths state1))
      (st_pref_path (paths state1)) (cfg_console (cfg state1)) in
  emits (init_window_and_subsystems pf sv state window_type) (io_ok, state2)
    (EvCreateWindow (Z.lor window_type SDL_WINDOW_RESIZABLE) :: w ++
     closing_calls sv state1 io_ok)%list.
Proof.
  intros Hwin Hrendered Hemits state2 io_ok t.
  unfold init_window_and_subsystems.
  unfold bind at 1. cbn [emit]. cbn [window set_window]. rewrite Hwin.
  cbn [cfg set_window backend_renderer]. rewrite Hrendered.
  unfold bind at 1. rewrite Hemits. cbn [negb].
  subst state2 io_ok. unfold closing_calls.
  assert (Hpaths : paths (if is_android pf
                          then set_renderer state1
                                 (set_current_custom_driver (renderer state1)
                                    (custom_driver_name (current_config (cfg state1))))
                          else state1) = paths state1 /\
                   cfg (if is_android pf
                        then set_renderer state1
                               (set_current_custom_driver (renderer state1)
                                  (custom_driver_name (current_config (cfg state1))))
                        else state1) = cfg state1)
    by (destruct (is_android pf); split; reflexivity).
  destruct Hpaths as [Hp Hc]. rewrite Hp, Hc.
  unfold bind, emit, when, ret.
  destruct (io_init sv _ _ _ _); cbn [negb];
    [destruct (USE_DISCORD sv); [destruct (_ && _) |] |];
    rewrite <- ?app_assoc; reflexivity.
Qed.

Lemma forallb_not_in (P : Event -> bool) (e : Event) (w : list Event) :
  forallb P w = true -> P e = false -> ~ In e w.
Proof.
  intros Hw He Hin. rewrite forallb_forall in Hw. rewrite (Hw e Hin) in He. discriminate.
Qed.

Lemma forallb_weaken (P Q : Event -> bool) (w : list Event) :
  (forall e, P e = true -> Q e = true) -> forallb P w = true -> forallb Q w = true.
Proof.
  intros HPQ Hw. rewrite forallb_forall in *. intros e He. apply HPQ, Hw, He.
Qed.

Lemma closing_calls_class (state : EmuEnvState) (io_ok : bool) :
  forallb (fun e => is_log e || is_subsystem_call e) (closing_calls sv state io_ok) = true /\
  (In EvMotionInit (closing_calls sv state io_ok) <-> io_ok = true).
Proof.
  unfold closing_calls.
  destruct io_ok; [destruct (USE_DISCORD sv); [destruct (_ && _) |] |];
    cbn; (split; [reflexivity |]); split; intros H; try reflexivity;
    intuition discriminate.
Qed.

(** The run of [init] from the creation of the window on, case by case. *)
Lemma init_window_cases (state : EmuEnvState) (window_type : Z) :
  let flags := Z.lor window_type SDL_WINDOW_RESIZABLE in
  let io_ok :=
    io_init sv (st_cache_path (paths state)) (st_log_path (paths state))
      (st_pref_path (paths state)) (cfg_console (cfg state)) in
  exists r w,
    emits (init_window_and_subsystems pf sv state window_type) r
      (EvCreateWindow flags :: w) /\
    forallb window_event w = true /\
    paths (snd r) = paths state /\ cfg (snd r) = cfg state /\
    window (snd r) = SDL_CreateWindow sv flags /\
    (SDL_CreateWindow sv flags = None ->
     r = (false, set_window state None) /\
     w = [EvLog LOG_ERROR "SDL failed to create window!"]) /\
    (SDL_CreateWindow sv flags <> None -> cfg_console (cfg state) = true ->
     fst r = io_ok /\ w = closing_calls sv state io_ok /\
     view (snd r) = view state) /\
    (SDL_CreateWindow sv flags <> None -> cfg_console (cfg state) = false ->
     renderer_init sv (backend_renderer state) (cfg state) = None ->
     fst r = false /\
     exists message, w = [EvRendererInit (backend_renderer state); EvErrorDialog message]) /\
    (SDL_CreateWindow sv flags <> None -> cfg_console (cfg state) = false ->
     renderer_init sv (backend_renderer state) (cfg state) <> None ->
     fst r = io_ok /\
     exists wv, w = (EvRendererInit (backend_renderer state) :: wv ++
                     closing_calls sv state io_ok)%list /\
                forallb (fun e => is_renderer_call e || is_log e) wv = true) /\
    (fst r = true <-> In EvMotionInit w).
Proof.
  intros flags io_ok.
  destruct (SDL_CreateWindow sv flags) as [win |] eqn:Hwin.
  - destruct (cfg_console (cfg state)) eqn:Hcon.
    + (* headless *)
      pose proof (init_closing state window_type win _ (set_window state (Some win)) []
                    Hwin eq_refl) as Hem.
      rewrite Hcon in Hem. cbn [negb] in Hem. specialize (Hem (emits_ret _)).
      cbv zeta in Hem. cbn [paths cfg set_window app] in Hem. rewrite Hcon in Hem.
      fold io_ok in Hem.
      eexists; eexists. split; [exact Hem |].
      destruct (closing_calls_class (set_window state (Some win)) io_ok) as [Hcl Hmo].
      unfold closing_calls in *. cbn [paths cfg set_window] in *. rewrite Hcon in *.
      split; [revert Hcl; apply forallb_weaken; intros e; unfold window_event;
              destruct (is_log e), (is_renderer_call e), (is_subsystem_call e);
              intros; try reflexivity; discriminate |].
      cbn [fst snd].
      repeat split; try discriminate; try congruence;
        try (destruct (is_android pf); reflexivity);
        try (apply Hmo; assumption).
    + destruct (renderer_init sv (backend_renderer state) (cfg state)) as [rr |] eqn:Hren.
      * (* rendered *)
        destruct (writes_update_viewport (set_renderer (set_window state (Some win)) rr))
          as (st1 & wv & Hvp & Hwv).
        assert (Hst1 : st1 = set_view (set_renderer (set_window state (Some win)) rr)
                               (view st1)).
        { pose proof (update_viewport_state
                        (set_renderer (set_window state (Some win)) rr) []) as Hs.
          rewrite (Hvp []) in Hs. exact Hs. }
        assert (Hrendered :
          emits (emit (EvRendererInit (backend_renderer state)) ;;;
                 (state' <- update_viewport
                              (set_renderer (set_window state (Some win)) rr) ;;
                  ret (true, state')))
            (true, st1) (EvRendererInit (backend_renderer state) :: wv)).
        { intros t. unfold bind, emit, ret. rewrite Hvp.
          rewrite <- app_assoc. reflexivity. }
        pose proof (init_closing state window_type win _ st1
                      (EvRendererInit (backend_renderer state) :: wv) Hwin eq_refl)
          as Hem.
        rewrite Hcon, Hren in Hem. cbn [negb] in Hem. specialize (Hem Hrendered).
        cbv zeta in Hem.
        assert (Hp : paths st1 = paths state) by (rewrite Hst1; reflexivity).
        assert (Hc : cfg st1 = cfg state) by (rewrite Hst1; reflexivity).
        assert (Hw1 : window st1 = Some win) by (rewrite Hst1; reflexivity).
        rewrite Hp, Hc, Hcon in Hem. fold io_ok in Hem.
        destruct (closing_calls_class st1 io_ok) as [Hcl Hmo].
        assert (Hcc : closing_calls sv st1 io_ok = closing_calls sv state io_ok)
          by (unfold closing_calls; rewrite Hp, Hc; reflexivity).
        rewrite Hcc in *.
        eexists; eexists. split; [exact Hem |].
        cbn [fst snd].
        split.
        { apply forallb_forall. intros e [<- | Hin]; [reflexivity |].
          rewrite forallb_forall in Hwv, Hcl. unfold window_event.
          apply in_app_or in Hin. destruct Hin as [Hin | Hin].
          - specialize (Hwv e Hin). destruct (is_log e), (is_renderer_call e);
              try reflexivity; discriminate.
          - specialize (Hcl e Hin).
            destruct (is_log e), (is_renderer_call e), (is_subsystem_call e);
              try reflexivity; discriminate. }
        repeat split; try discriminate; try congruence;
          try (destruct (is_android pf); cbn; congruence).
        -- exists wv. split; [reflexivity | exact Hwv].
        -- intros Hio. right. apply in_or_app. right. apply Hmo. exact Hio.
        -- intros [Hin | Hin]; [discriminate Hin |].
           apply in_app_or in Hin. destruct Hin as [Hin | Hin]; [| apply Hmo; exact Hin].
           exfalso. revert Hin. apply (forallb_not_in _ _ _ Hwv). reflexivity.
      * (* the renderer fails *)
        exists (false, set_window state (Some win)).
        exists [EvRendererInit (backend_renderer state);
                EvErrorDialog
                  match backend_renderer state with
                  | OpenGL => if is_android pf
                              then "Could not create OpenGL ES context!"
                              else "Could not create OpenGL context!"
                  | Vulkan => "Could not create Vulkan context!"
                  | Unimplemented => "Unknown backend renderer: {}."
                  end].
        split.
        { intros t. unfold init_window_and_subsystems, bind, emit, ret.
          cbn [window set_window]. fold flags. rewrite Hwin.
          cbn [cfg set_window backend_renderer]. rewrite Hcon, Hren. cbn [negb].
          unfold renderer_error_dialog, emit. cbn [backend_renderer set_window].
          destruct (backend_renderer state), (is_android pf); cbn [negb];
            rewrite <- !app_assoc; reflexivity. }
        cbn [fst snd].
        repeat split; try discriminate; try congruence; try reflexivity.
        -- eexists. reflexivity.
        -- intros H. simpl in H. intuition discriminate.
  - (* no window *)
    exists (false, set_window state None), [EvLog LOG_ERROR "SDL failed to create window!"].
    split.
    { intros t. unfold init_window_and_subsystems, bind, emit, ret.
      cbn [window set_window]. fold flags. rewrite Hwin.
      rewrite <- app_assoc. reflexivity. }
    cbn [fst snd].
    repeat split; try discriminate; try congruence; try reflexivity.
    intros H. simpl in H. intuition discriminate.
Qed.

(** The run of [init], from the runs of its three parts. *)
Lemma init_run (state : EmuEnvState) (root_paths : Root) :
  let p := run_eff (init_prologue pf sv state root_paths) in
  let name := custom_driver_name (current_config (cfg state)) in
  let attempted := is_android pf && negb (String.eqb name "") in
  let d := run_eff (load_custom_driver (driver_host sv) name) in
  forall r w,
    emits (init_window_and_subsystems pf sv (fst (fst p)) (snd (fst p))) r w ->
    run_eff (init pf sv state root_paths) =
      (if attempted && negb (fst d) then (false, fst (fst p)) else r,
       (snd p ++ (if attempted then snd d else []) ++
        (if attempted && negb (fst d) then [] else w))%list).
Proof.
  intros p name attempted d r w Hw.
  destruct (writes_run _ _ (writes_init_prologue state root_paths)) as [Hp _].
  fold p in Hp.
  destruct (init_prologue_result state root_paths) as (_ & _ & Hcur & _).
  fold p in Hcur.
  unfold run_eff at 1. rewrite init_split. unfold bind at 1. rewrite Hp.
  cbn [fst snd app]. unfold init_epilogue. rewrite Hcur. fold name. fold attempted.
  destruct attempted.
  - destruct (writes_run _ _ (writes_load_custom_driver (driver_host sv) name)) as [Hd _].
    fold d in Hd. unfold bind. rewrite Hd. cbn [andb].
    destruct (fst d); cbn [negb].
    + rewrite Hw. now rewrite app_assoc.
    + unfold ret. now rewrite app_nil_r.
  - unfold bind, ret. cbn [negb andb app]. rewrite Hw. reflexivity.
Qed.

Ltac init_setup state root_paths :=
  let p := fresh "p" in
  pose proof (init_prologue_result state root_paths) as Hpro;
  destruct (writes_run _ _ (writes_init_prologue state root_paths)) as [_ Hw0];
  destruct (writes_run _ _ (writes_load_custom_driver (driver_host sv)
              (custom_driver_name (current_config (cfg state))))) as [_ Hwd];
  cbv zeta in Hpro;
  destruct Hpro as (Hflags & Hpaths & Hcur & Hcon & Hdis & Hback & Hfull & Hwin & Hren
                    & Hview & Hser);
  remember (run_eff (init_prologue pf sv state root_paths)) as p eqn:Ep;
  pose proof (init_window_cases (fst (fst p)) (snd (fst p))) as Hcases;
  cbv zeta in Hcases;
  destruct Hcases as (r & w & Hem & Hwev & Hrp & Hrc & Hrw & Hnone & Hhead & Hrfail
                      & Hrok & Hmotion);
  pose proof (init_run state root_paths) as Hrun;
  cbv zeta in Hrun; rewrite <- Ep in Hrun; specialize (Hrun r _ Hem);
  rewrite Hflags in *.

(** X23: the window that [init] creates is resizable, has the Vulkan flag
    unless the configuration asks for OpenGL on a platform other than
    Apple, where it has the OpenGL flag, and is a desktop-fullscreen window
    exactly on Android or when the configuration asks for fullscreen; no
    window is created with other flags. *)
Theorem init_window_flags (state : EmuEnvState) (root_paths : Root) (flags : Z) :
  In (EvCreateWindow flags) (snd (run_eff (init pf sv state root_paths))) ->
  flags = window_flags pf sv (cfg state).
Proof.
  init_setup state root_paths. rewrite Hrun. cbn [snd]. intros Hin.
  apply in_app_or in Hin. destruct Hin as [Hin | Hin].
  { exfalso. revert Hin. apply (forallb_not_in _ _ _ Hw0). reflexivity. }
  apply in_app_or in Hin. destruct Hin as [Hin | Hin].
  { exfalso.
    match type of Hin with context [if ?c then _ else []] => destruct c end;
      [| destruct Hin].
    revert Hin. apply (forallb_not_in _ _ _ Hwd). reflexivity. }
  match type of Hin with context [if ?c then [] else _] => destruct c end;
    [destruct Hin |].
  destruct Hin as [Heq | Hin]; [congruence |].
  exfalso. revert Hin. apply (forallb_not_in _ _ _ Hwev). reflexivity.
Qed.

(** X24: on Android, when a custom driver is configured and cannot be
    loaded, [init] returns failure before it creates a window: no window,
    renderer or subsystem call is made. *)
Theorem init_driver_failure (state : EmuEnvState) (root_paths : Root) :
  let name := custom_driver_name (current_config (cfg state)) in
  pf = Android -> name <> "" ->
  fst (run_eff (load_custom_driver (driver_host sv) name)) = false ->
  fst (fst (run_eff (init pf sv state root_paths))) = false /\
  forallb (fun e => negb (is_window_call e) && negb (is_renderer_call e)
                    && negb (is_subsystem_call e))
    (snd (run_eff (init pf sv state root_paths))) = true.
Proof.
  cbv zeta. intros Hpf Hname Hfail. init_setup state root_paths.
  rewrite Hrun, Hfail. subst pf. cbn [is_android andb negb].
  apply String.eqb_neq in Hname. rewrite Hname. cbn [negb fst snd].
  split; [reflexivity |].
  rewrite !forallb_app. cbn [forallb]. rewrite andb_true_r.
  apply andb_true_intro. split.
  - revert Hw0. apply forallb_weaken. intros e. destruct e; cbn; congruence.
  - revert Hwd. apply forallb_weaken. intros e. destruct e; cbn; congruence.
Qed.

(** X25: [init] loads a driver on Android only, and only when a custom
    driver is configured; it writes the configuration on Apple only. *)
Theorem init_never (state : EmuEnvState) (root_paths : Root) :
  (pf <> Android \/ custom_driver_name (current_config (cfg state)) = "" ->
   forallb (fun e => negb (is_driver_call e))
     (snd (run_eff (init pf sv state root_paths))) = true) /\
  (pf <> Apple ->
   forallb (fun e => negb (is_config_write e))
     (snd (run_eff (init pf sv state root_paths))) = true).
Proof.
  init_setup state root_paths. rewrite Hrun. cbn [snd]. split.
  - intros Hcase.
    assert (Hatt : is_android pf
                   && negb (String.eqb (custom_driver_name (current_config (cfg state))) "")
                   = false).
    { destruct Hcase as [Hpf | Hname].
      - destruct pf; try reflexivity. congruence.
      - rewrite Hname. cbn. apply andb_false_r. }
    rewrite Hatt. cbn [andb app].
    rewrite forallb_app. apply andb_true_intro. split.
    + revert Hw0. apply forallb_weaken. intros e. destruct e; cbn; congruence.
    + cbn [forallb is_driver_call negb andb].
      revert Hwev. apply forallb_weaken. intros e. destruct e; cbn; congruence.
  - intros Hpf.
    assert (Hap : is_apple pf = false) by (destruct pf; try reflexivity; congruence).
    rewrite !forallb_app. rewrite (Hser Hap). cbn [andb].
    apply andb_true_intro. split.
    + match goal with |- context [if ?c then _ else []] => destruct c end;
        [| reflexivity].
      revert Hwd. apply forallb_weaken. intros e. destruct e; cbn; congruence.
    + match goal with |- context [if ?c then [] else _] => destruct c end;
        [reflexivity |].
      cbn [forallb is_config_write negb andb].
      revert Hwev. apply forallb_weaken. intros e. destruct e; cbn; congruence.
Qed.

Lemma driver_ready_run (state : EmuEnvState) :
  driver_ready pf sv (cfg state) = true ->
  is_android pf
  && negb (String.eqb (custom_driver_name (current_config (cfg state))) "")
  && negb (fst (run_eff (load_custom_driver (driver_host sv)
                           (custom_driver_name (current_config (cfg state)))))) = false.
Proof.
  unfold driver_ready.
  destruct (is_android pf && _); [| reflexivity].
  cbn [negb orb andb]. intros ->. reflexivity.
Qed.

Lemma before_window_calls (state : EmuEnvState) (root_paths : Root) :
  forallb before_window
    (snd (run_eff (init_prologue pf sv state root_paths)) ++
     (if is_android pf
         && negb (String.eqb (custom_driver_name (current_config (cfg state))) "")
      then snd (run_eff (load_custom_driver (driver_host sv)
                           (custom_driver_name (current_config (cfg state)))))
      else []))%list = true.
Proof.
  destruct (writes_run _ _ (writes_init_prologue state root_paths)) as [_ Hw0].
  destruct (writes_run _ _ (writes_load_custom_driver (driver_host sv)
              (custom_driver_name (current_config (cfg state))))) as [_ Hwd].
  rewrite forallb_app. apply andb_true_intro. split.
  - revert Hw0. apply forallb_weaken. intros e He. unfold before_window.
    rewrite He. reflexivity.
  - destruct (is_android pf && _); [| reflexivity].
    revert Hwd. apply forallb_weaken. intros e. unfold before_window.
    destruct e; cbn; congruence.
Qed.

(** X26: when no driver stands in the way and the window cannot be
    created, [init] fails with no window in the state; its last two calls
    are the creation of the window and the log of the error, and before
    them it only logs, prepares the user interface, the configuration and
    the driver. *)
Theorem init_window_failure (state : EmuEnvState) (root_paths : Root) :
  let flags := window_flags pf sv (cfg state) in
  let res := run_eff (init pf sv state root_paths) in
  driver_ready pf sv (cfg state) = true ->
  SDL_CreateWindow sv flags = None ->
  fst (fst res) = false /\ window (snd (fst res)) = None /\
  exists pre,
    snd res = (pre ++ [EvCreateWindow flags;
                       EvLog LOG_ERROR "SDL failed to create window!"])%list /\
    forallb before_window pre = true.
Proof.
  cbv zeta. intros Hdr Hnw. apply driver_ready_run in Hdr.
  pose proof (before_window_calls state root_paths) as Hbw.
  init_setup state root_paths. rewrite Hrun, Hdr.
  destruct (Hnone Hnw) as [-> ->]. cbn [fst snd set_window window].
  split; [reflexivity |]. split; [reflexivity |].
  eexists. split; [rewrite app_assoc; reflexivity | exact Hbw].
Qed.

(** X27: in console mode [init] makes no renderer call and leaves the
    viewport as it was. *)
Theorem init_console (state : EmuEnvState) (root_paths : Root) :
  let res := run_eff (init pf sv state root_paths) in
  cfg_console (cfg state) = true ->
  forallb (fun e => negb (is_renderer_call e)) (snd res) = true /\
  view (snd (fst res)) = view state.
Proof.
  cbv zeta. intros Hc.
  pose proof (before_window_calls state root_paths) as Hbw.
  init_setup state root_paths. rewrite Hrun. cbn [fst snd].
  rewrite app_assoc, forallb_app.
  assert (Hpre : forallb (fun e => negb (is_renderer_call e))
                   (snd p ++
                    (if is_android pf
                        && negb (String.eqb
                                   (custom_driver_name (current_config (cfg state))) "")
                     then snd (run_eff (load_custom_driver (driver_host sv)
                                 (custom_driver_name (current_config (cfg state)))))
                     else []))%list = true).
  { revert Hbw. apply forallb_weaken. intros e. unfold before_window.
    destruct e; cbn; congruence. }
  rewrite Hpre. cbn [andb].
  match goal with |- context [if ?c then [] else _] => destruct c end;
    [split; [reflexivity | exact Hview] |].
  cbn [snd].
  destruct (SDL_CreateWindow sv (window_flags pf sv (cfg state))) eqn:Hsw.
  - destruct Hhead as (_ & -> & Hv); [discriminate | congruence |].
    split; [| congruence].
    cbn [forallb is_renderer_call negb andb].
    destruct (closing_calls_class (fst (fst p))
                (io_init sv (st_cache_path (paths (fst (fst p))))
                   (st_log_path (paths (fst (fst p))))
                   (st_pref_path (paths (fst (fst p))))
                   (cfg_console (cfg (fst (fst p)))))) as [Hcl _].
    revert Hcl. apply forallb_weaken. intros e. destruct e; cbn; congruence.
  - destruct (Hnone eq_refl) as [-> ->]. cbn. split; [reflexivity | exact Hview].
Qed.

(** X28: when no driver stands in the way, the window is created, the
    console mode is off and the renderer of the selected backend cannot be
    created, [init] fails; after the creation of the window it asks for the
    renderer, shows an error dialog and does nothing else. *)
Theorem init_renderer_failure (state : EmuEnvState) (root_paths : Root) :
  let flags := window_flags pf sv (cfg state) in
  let backend :=
    if requests_opengl sv (cfg state) && negb (is_apple pf) then OpenGL else Vulkan in
  let res := run_eff (init pf sv state root_paths) in
  driver_ready pf sv (cfg state) = true ->
  SDL_CreateWindow sv flags <> None ->
  cfg_console (cfg state) = false ->
  (forall c, renderer_init sv backend c = None) ->
  fst (fst res) = false /\
  exists pre message,
    snd res = (pre ++ [EvCreateWindow flags; EvRendererInit backend;
                       EvErrorDialog message])%list /\
    forallb before_window pre = true.
Proof.
  cbv zeta. intros Hdr Hsw Hc Hrn. apply driver_ready_run in Hdr.
  pose proof (before_window_calls state root_paths) as Hbw.
  init_setup state root_paths. rewrite Hrun, Hdr. cbn [fst snd].
  destruct Hrfail as (Hf & message & ->);
    [assumption | congruence | rewrite Hback; apply Hrn |].
  split; [exact Hf |]. rewrite Hback.
  eexists. exists message. split; [rewrite app_assoc; reflexivity | exact Hbw].
Qed.





End Bootstrap.

Lemma init_window_flags_witness :
  34 = window_flags Linux (sample_services true true) (cfg (sample_state "OpenGL" None)).
Proof.
  apply (@init_window_flags posix_fs Linux (sample_services true true)
           (sample_state "OpenGL" None) empty_root 34).
  vm_compute. auto 30.
Defined.

Lemma init_driver_failure_witness :
  fst (fst (run_eff (init (L:=posix_fs) Android
                       (bootstrap_services (Some sample_window) true true)
                       (configured_state "turnip" false) empty_root))) = false /\
  forallb (fun e => negb (is_window_call e) && negb (is_renderer_call e)
                    && negb (is_subsystem_call e))
    (snd (run_eff (init (L:=posix_fs) Android
                     (bootstrap_services (Some sample_window) true true)
                     (configured_state "turnip" false) empty_root))) = true.
Proof.
  apply (@init_driver_failure posix_fs Android
           (bootstrap_services (Some sample_window) true true)
           (configured_state "turnip" false) empty_root);
    [reflexivity | discriminate | reflexivity].
Defined.

Lemma init_window_failure_witness :
  fst (fst (run_eff (init (L:=posix_fs) Windows (bootstrap_services None true true)
                       (configured_state "" false) empty_root))) = false /\
  window (snd (fst (run_eff (init (L:=posix_fs) Windows
                               (bootstrap_services None true true)
                               (configured_state "" false) empty_root)))) = None /\
  exists pre,
    snd (run_eff (init (L:=posix_fs) Windows (bootstrap_services None true true)
                    (configured_state "" false) empty_root)) =
      (pre ++ [EvCreateWindow (Z.lor SDL_WINDOW_VULKAN SDL_WINDOW_RESIZABLE);
               EvLog LOG_ERROR "SDL failed to create window!"])%list /\
    forallb before_window pre = true.
Proof.
  apply (@init_window_failure posix_fs Windows (bootstrap_services None true true)
           (configured_state "" false) empty_root); reflexivity.
Defined.

Lemma init_console_witness :
  forallb (fun e => negb (is_renderer_call e))
    (snd (run_eff (init (L:=posix_fs) Linux
                     (bootstrap_services (Some sample_window) true true)
                     (configured_state "" true) empty_root))) = true /\
  view (snd (fst (run_eff (init (L:=posix_fs) Linux
                             (bootstrap_services (Some sample_window) true true)
                             (configured_state "" true) empty_root)))) =
    view (configured_state "" true).
Proof.
  apply (@init_console posix_fs Linux (bootstrap_services (Some sample_window) true true)
           (configured_state "" true) empty_root).
  reflexivity.
Defined.

Lemma init_renderer_failure_witness :
  fst (fst (run_eff (init (L:=posix_fs) Linux
                       (bootstrap_services (Some sample_window) false true)
                       (configured_state "" false) empty_root))) = false /\
  exists pre message,
    snd (run_eff (init (L:=posix_fs) Linux
                    (bootstrap_services (Some sample_window) false true)
                    (configured_state "" false) empty_root)) =
      (pre ++ [EvCreateWindow (Z.lor SDL_WINDOW_VULKAN SDL_WINDOW_RESIZABLE);
               EvRendererInit Vulkan; EvErrorDialog message])%list /\
    forallb before_window pre = true.
Proof.
  apply (@init_renderer_failure posix_fs Linux
           (bootstrap_services (Some sample_window) false true)
           (configured_state "" false) empty_root);
    [reflexivity | discriminate | reflexivity | intros c; reflexivity].
Defined.
